(** * MOX: the [Model] base class of [src/Model.ts]

    A shallow embedding of the model engine: key conversion, the import
    engine ([fromJson], [applyDefaults], [applyJson], [merge]), the export
    engine ([toJson]) and the change tracker ([clone], [diff], [isEqual],
    [reset], [getChangesSince]), followed by the properties of the
    specification that were checked against it, and then by the decorators,
    [toFormData] and further properties of the engine.  [freeze], [isValid]
    and [validate] are not part of it.

    Modelling decisions.
    - A JavaScript string is a [string]; the two regular expressions of the
      key converter only look at ASCII letters and the underscore, every
      other character is copied.
    - A model instance is an object with identity: it lives in a store and
      is referred to by its address ([VRef]), so that two fields can hold
      the same instance.  Arrays and plain objects are values without
      identity: [toCamelCase] and [toSnakeCase] rebuild every array and
      plain object they traverse.
    - The own enumerable properties of an object are an association list in
      insertion order (the order of [Object.keys] for names that are not
      array indices); the member [_originalState] is one of them, created
      by the assignment in [fromJson].
    - Plain objects and the metadata maps inherit from [Object.prototype]:
      a lookup [map[key]] under a name that the map does not hold finds the
      member of [Object.prototype] of that name, [obj.constructor] is
      [Object] unless the object has an own property [constructor], and
      [this.constructor] is the class unless the instance has such an own
      property.  [Object(v)] of a primitive is a wrapper object
      ([VBoxed]).
    - Numbers are the integers, held as doubles: [String(n)] is the text of
      the nearest double.
    - A [FormData] is the list of its entries, each value stored as the
      text [String(value)].
    - The metadata maps that the decorators fill are association lists on
      the decorated field names; a class is looked up as a whole (the
      prototype chain is flattened), with the classes it extends.  An
      import into a field that a class registers with [@Type] or
      [@Transform] under the name of a member of [Object.prototype] is not
      described ([Unsupported]), and no field is named [__proto__].
    - A [@Transform] function is a function on values; each call is
      recorded in a log kept in the state.  The optional hooks act on the
      members of the instance they are called on.
    - Calls are bounded by a fuel counter: running out of it stands for the
      unbounded recursion of the source on cyclic or self-instantiating
      data.  A thrown [TypeError] is an outcome of its own. *)

From Stdlib Require Import ZArith String Ascii List Bool Lia DecimalString.
From stdpp Require Import base list.
Import ListNotations.
Local Open Scope string_scope.
Local Open Scope list_scope.

(** ** Key conversion *)

Module Keys.

Definition is_lower (c : ascii) : bool :=
  (97 <=? nat_of_ascii c)%nat && (nat_of_ascii c <=? 122)%nat.

Definition is_upper (c : ascii) : bool :=
  (65 <=? nat_of_ascii c)%nat && (nat_of_ascii c <=? 90)%nat.

Definition is_underscore (c : ascii) : bool := Ascii.eqb c "_"%char.

(** [c.toUpperCase()] and [c.toLowerCase()] on one ASCII character. *)
Definition toUpperCase (c : ascii) : ascii :=
  if is_lower c then ascii_of_nat (nat_of_ascii c - 32) else c.

Definition toLowerCase (c : ascii) : ascii :=
  if is_upper c then ascii_of_nat (nat_of_ascii c + 32) else c.

(** [key.replace(/_([a-z])/g, (_, c) => c.toUpperCase())]: a left-to-right
    scan; an underscore followed by a lower-case letter is consumed together
    with the letter. *)
Fixpoint toCamelCaseKey (key : string) : string :=
  match key with
  | EmptyString => EmptyString
  | String c rest =>
      match rest with
      | String d rest' =>
          if is_underscore c && is_lower d
          then String (toUpperCase d) (toCamelCaseKey rest')
          else String c (toCamelCaseKey rest)
      | EmptyString => String c EmptyString
      end
  end.

(** [key.replace(/[A-Z]/g, c => `_${c.toLowerCase()}`)]. *)
Fixpoint toSnakeCaseKey (key : string) : string :=
  match key with
  | EmptyString => EmptyString
  | String c rest =>
      if is_upper c
      then String "_"%char (String (toLowerCase c) (toSnakeCaseKey rest))
      else String c (toSnakeCaseKey rest)
  end.

(** [key.startsWith('_')]. *)
Definition startsWithUnderscore (key : string) : bool :=
  match key with
  | String c _ => is_underscore c
  | EmptyString => false
  end.

(** No underscore of the string is followed by a lower-case letter. *)
Fixpoint settled (s : string) : bool :=
  match s with
  | EmptyString => true
  | String c rest =>
      match rest with
      | String d _ => negb (is_underscore c && is_lower d) && settled rest
      | EmptyString => true
      end
  end.

End Keys.

(** ** Values, objects and the store *)

(** Addresses of the store. *)
Abbreviation addr := nat (only parsing).
Definition ClassId := string.

(** A primitive value that [Object(v)] wraps in an object. *)
Inductive Prim : Type :=
| PBool (b : bool)
| PNum (n : Z)
| PStr (s : string).

(** The values the engine handles.  [VRef a] is a model instance (anything
    for which [instanceof Model] holds); [VObj] is an object created by an
    object literal, [JSON.parse] or [Object.fromEntries], with its own
    properties; [VBoxed p] is the wrapper object [Object(p)] of a
    primitive. *)
#[warnings="-register-all"]
Inductive Value : Type :=
| VUndefined
| VNull
| VBool (b : bool)
| VNum (n : Z)
| VStr (s : string)
| VArr (items : list Value)
| VObj (props : list (string * Value))
| VRef (a : addr)
| VBoxed (p : Prim).

(** The primitive inside a wrapper object. *)
Definition unbox (p : Prim) : Value :=
  match p with
  | PBool b => VBool b
  | PNum n => VNum n
  | PStr s => VStr s
  end.

(** Own enumerable properties, in insertion order. *)
Definition Props := list (string * Value).

Module Obj.

(** [o[k]] on the own properties of [o]. *)
Fixpoint get (k : string) (ps : Props) : option Value :=
  match ps with
  | [] => None
  | (k', v) :: rest => if String.eqb k k' then Some v else get k rest
  end.

(** [o[k] = v]: an existing property keeps its place, a new one is added
    last. *)
Fixpoint set (k : string) (v : Value) (ps : Props) : Props :=
  match ps with
  | [] => [(k, v)]
  | (k', v') :: rest =>
      if String.eqb k k' then (k, v) :: rest else (k', v') :: set k v rest
  end.

Definition has (k : string) (ps : Props) : bool :=
  match get k ps with Some _ => true | None => false end.

(** [Object.keys(o)]. *)
Definition keys (ps : Props) : list string := map fst ps.

(** [Object.fromEntries(es)]. *)
Definition fromEntries (es : list (string * Value)) : Props :=
  fold_left (fun acc e => set (fst e) (snd e) acc) es [].

(** [o[k]] as an expression: [undefined] when the property is missing. *)
Definition read (k : string) (ps : Props) : Value :=
  match get k ps with Some v => v | None => VUndefined end.

End Obj.

(** Lookup in a metadata map or set filled by a decorator. *)
Fixpoint assoc {A : Type} (k : string) (m : list (string * A)) : option A :=
  match m with
  | [] => None
  | (k', x) :: rest => if String.eqb k k' then Some x else assoc k rest
  end.

Definition has_key (k : string) (s : list string) : bool :=
  existsb (String.eqb k) s.

(** JavaScript truthiness, as used by [!json], [options.group &&] and
    [this._originalState &&]. *)
Definition truthy (v : Value) : bool :=
  match v with
  | VUndefined | VNull => false
  | VBool b => b
  | VNum n => negb (Z.eqb n 0)
  | VStr s => negb (String.eqb s EmptyString)
  | VArr _ | VObj _ | VRef _ | VBoxed _ => true
  end.

(** ** Members of [Object.prototype]

    An object created by an object literal inherits from [Object.prototype]:
    reading [o[key]] finds the member of that name when [o] has no own
    property [key].  This holds for the plain objects of the input and for
    the metadata maps of the decorators alike. *)

Module Proto.

(** [Object.getOwnPropertyNames(Object.prototype)]. *)
Definition names : list string :=
  ["constructor"; "__defineGetter__"; "__defineSetter__"; "hasOwnProperty";
   "__lookupGetter__"; "__lookupSetter__"; "isPrototypeOf";
   "propertyIsEnumerable"; "toString"; "valueOf"; "__proto__";
   "toLocaleString"].

(** [key in Object.prototype]. *)
Definition inherited (key : string) : bool := has_key key names.

(** [obj.constructor === Object] on a plain object: it holds unless the
    object has an own property [constructor], whose value is then data. *)
Definition constructorIsObject (props : Props) : bool :=
  negb (Obj.has "constructor" props).

(** [v instanceof Object]. *)
Definition isObject (v : Value) : bool :=
  match v with
  | VArr _ | VObj _ | VRef _ | VBoxed _ => true
  | _ => false
  end.

(** [Object(v)]: an empty object for [undefined] and [null], the wrapper
    object of a primitive, and an object itself. *)
Definition toObject (v : Value) : Value :=
  match v with
  | VUndefined | VNull => VObj []
  | VBool b => VBoxed (PBool b)
  | VNum n => VBoxed (PNum n)
  | VStr s => VBoxed (PStr s)
  | _ => v
  end.

End Proto.

(** [Model.toCamelCase]: model instances are returned as they are, arrays
    are rebuilt, and so is an object whose [constructor] is [Object];
    everything else is returned, an object with an own property
    [constructor] included. *)
Fixpoint toCamelCase (obj : Value) : Value :=
  match obj with
  | VRef a => VRef a
  | VArr items => VArr (map toCamelCase items)
  | VObj props =>
      if Proto.constructorIsObject props then
        VObj (Obj.fromEntries
                (map (fun kv => (Keys.toCamelCaseKey (fst kv), toCamelCase (snd kv)))
                     props))
      else obj
  | _ => obj
  end.

(** [Model.toSnakeCase], the same traversal with the other key conversion. *)
Fixpoint toSnakeCase (obj : Value) : Value :=
  match obj with
  | VRef a => VRef a
  | VArr items => VArr (map toSnakeCase items)
  | VObj props =>
      if Proto.constructorIsObject props then
        VObj (Obj.fromEntries
                (map (fun kv => (Keys.toSnakeCaseKey (fst kv), toSnakeCase (snd kv)))
                     props))
      else obj
  | _ => obj
  end.

(** A model instance in the store: its class and its own properties. *)
Record Instance := { cls : ClassId; props : Props }.

Abbreviation Heap := (list Instance) (only parsing).

(** One invocation of a [@Transform] function: the class and field it is
    registered for and the argument. *)
Record Call := { call_class : ClassId; call_key : string; call_arg : Value }.

Record State := { heap : Heap; calls : list Call }.

(** The invocations, in a log, of the transform registered for field [k] of
    class [c]. *)
Definition invocations (c : ClassId) (k : string) (log : list Call) : list Call :=
  List.filter (fun call => String.eqb (call_class call) c
                           && String.eqb (call_key call) k) log.

(** Outcome of a call: a result, unbounded recursion, or a thrown
    [TypeError].  [Unsupported] is the outcome of an import into a class
    that decorates a field named like a member of [Object.prototype]: what
    the source does there depends on that member's own code, which this
    development does not describe. *)
Inductive Res (A : Type) : Type :=
| Ok (x : A)
| OutOfFuel
| TypeError
| Unsupported.
Arguments Ok {A} x.
Arguments OutOfFuel {A}.
Arguments TypeError {A}.
Arguments Unsupported {A}.

Definition rbind {A B} (r : Res A) (f : A -> Res B) : Res B :=
  match r with
  | Ok x => f x
  | OutOfFuel => OutOfFuel
  | TypeError => TypeError
  | Unsupported => Unsupported
  end.

(** Computations that read and update the state. *)
Definition M (A : Type) : Type := State -> Res (A * State).

Definition ret {A} (x : A) : M A := fun s => Ok (x, s).

Definition bind {A B} (m : M A) (f : A -> M B) : M B :=
  fun s => match m s with
           | Ok (x, s') => f x s'
           | OutOfFuel => OutOfFuel
           | TypeError => TypeError
           | Unsupported => Unsupported
           end.

Definition outOfFuel {A} : M A := fun _ => OutOfFuel.
Definition throw {A} : M A := fun _ => TypeError.
Definition unsupported {A} : M A := fun _ => Unsupported.

(** A computation that only reads the store. *)
Definition reading {A} (f : Heap -> Res A) : M A :=
  fun s => rbind (f (heap s)) (fun x => Ok (x, s)).

Declare Scope js_scope.
Delimit Scope js_scope with js.
Notation "'let*' x := m 'in' k" := (bind m (fun x => k))
  (at level 10, x pattern, m at level 100, k at level 200) : js_scope.
Notation "'run' m 'in' k" := (bind m (fun _ => k))
  (at level 10, m at level 100, k at level 200) : js_scope.
Notation "'let?' x := r 'in' k" := (rbind r (fun x => k))
  (at level 10, x pattern, r at level 100, k at level 200) : js_scope.

(** [for (const x of xs) body(x)]. *)
Fixpoint forEach {A} (xs : list A) (body : A -> M unit) : M unit :=
  match xs with
  | [] => ret tt
  | x :: rest => bind (body x) (fun _ => forEach rest body)
  end.

(** [xs.map(f)] for an [f] with effects. *)
Fixpoint mapM {A B} (f : A -> M B) (xs : list A) : M (list B) :=
  match xs with
  | [] => ret []
  | x :: rest => bind (f x) (fun y => bind (mapM f rest) (fun ys => ret (y :: ys)))
  end.

(** A loop that builds a result without touching the store. *)
Fixpoint foldRes {A B} (step : A -> B -> Res B) (xs : list A) (acc : B) : Res B :=
  match xs with
  | [] => Ok acc
  | x :: rest => rbind (step x acc) (foldRes step rest)
  end.

Fixpoint mapRes {A B} (f : A -> Res B) (xs : list A) : Res (list B) :=
  match xs with
  | [] => Ok []
  | x :: rest => rbind (f x) (fun y => rbind (mapRes f rest) (fun ys => Ok (y :: ys)))
  end.

Module Store.

Definition classOf (h : Heap) (a : addr) : option ClassId :=
  cls <$> h !! a.

Definition ownProps (h : Heap) (a : addr) : Props :=
  match h !! a with Some i => props i | None => [] end.

(** [this[key]] on a model instance. *)
Definition getField (h : Heap) (a : addr) (k : string) : Value :=
  Obj.read k (ownProps h a).

Definition writeField (a : addr) (k : string) (v : Value) (h : Heap) : Heap :=
  match h !! a with
  | Some i => <[a := {| cls := cls i; props := Obj.set k v (props i) |}]> h
  | None => h
  end.

(** [this[key] = v]. *)
Definition setField (a : addr) (k : string) (v : Value) : M unit :=
  fun s => Ok (tt, {| heap := writeField a k v (heap s); calls := calls s |}).

(** The object a constructor call starts from: no own property yet. *)
Definition alloc (c : ClassId) : M addr :=
  fun s => Ok (length (heap s),
               {| heap := heap s ++ [{| cls := c; props := [] |}];
                  calls := calls s |}).

Definition logCall (c : Call) : M unit :=
  fun s => Ok (tt, {| heap := heap s; calls := calls s ++ [c] |}).

(** [v[key]] for the values the engine reads a member of: a model instance
    or a plain object; any other value has no such member. *)
Definition member (h : Heap) (v : Value) (k : string) : Value :=
  match v with
  | VRef a => getField h a k
  | VObj ps => Obj.read k ps
  | _ => VUndefined
  end.

End Store.

(** ** Numbers as text

    A number is an integer here; the source holds it as a double.  [String(n)]
    writes the shortest decimal digits that denote the same double, followed
    by zeros up to 21 digits and by an exponent beyond. *)

Module Number.

Local Open Scope Z_scope.

Definition decimal (n : Z) : string := NilZero.string_of_uint (N.to_uint (Z.to_N n)).

(** The double nearest to a non-negative integer, ties to the even
    mantissa; [None] beyond the largest double. *)
Definition toDouble (v : Z) : option Z :=
  if v <? 2 ^ 53 then Some v
  else
    let e := Z.log2 v - 52 in
    let q := Z.shiftr v e in
    let r := v - Z.shiftl q e in
    let half := Z.shiftl 1 (e - 1) in
    let q' := if (half <? r) || ((r =? half) && Z.odd q) then q + 1 else q in
    let x := Z.shiftl q' e in
    if 2 ^ 1024 <=? x then None else Some x.

Definition finite (n : Z) : bool :=
  match toDouble (Z.abs n) with Some _ => true | None => false end.

Definition denotes (v x : Z) : bool :=
  match toDouble v with Some y => y =? x | None => false end.

(** The digits [s] and the power of ten [p] of the shortest decimal
    [s * 10^p] that denotes the double [x], trying [k], [k + 1], ...
    digits; of two candidates the closer one, the even one when equally
    close. *)
Fixpoint shortest (fuel : nat) (k len : nat) (x : Z) : Z * Z :=
  match fuel with
  | O => (x, 0)
  | S fuel =>
      let p := Z.of_nat (len - k) in
      let lo := x / 10 ^ p in
      let hi := lo + 1 in
      let below := x - lo * 10 ^ p in
      let above := hi * 10 ^ p - x in
      match denotes (lo * 10 ^ p) x, denotes (hi * 10 ^ p) x with
      | true, true =>
          if below <? above then (lo, p)
          else if above <? below then (hi, p)
          else if Z.even lo then (lo, p) else (hi, p)
      | true, false => (lo, p)
      | false, true => (hi, p)
      | false, false => shortest fuel (S k) len x
      end
  end.

(** Trailing zeros of the digits go to the power of ten. *)
Fixpoint normal (fuel : nat) (s p : Z) : Z * Z :=
  match fuel with
  | O => (s, p)
  | S fuel =>
      if (0 <? s) && (s mod 10 =? 0) then normal fuel (s / 10) (p + 1) else (s, p)
  end.

Fixpoint zeros (n : nat) : string :=
  match n with
  | O => EmptyString
  | S n => String "0" (zeros n)
  end.

(** [Number::toString] of a positive double that is an integer. *)
Definition format (x : Z) : string :=
  let len := String.length (decimal x) in
  let '(s, p) := shortest len 1 len x in
  let '(s, p) := normal len s p in
  let digits := decimal s in
  let n := Z.of_nat (String.length digits) + p in
  if n <=? 21 then (digits ++ zeros (Z.to_nat p))%string
  else
    match digits with
    | String d EmptyString => (String d EmptyString ++ "e+" ++ decimal (n - 1))%string
    | String d rest => (String d ("." ++ rest) ++ "e+" ++ decimal (n - 1))%string
    | EmptyString => EmptyString
    end.

(** [String(n)]. *)
Definition toString (n : Z) : string :=
  if n =? 0 then "0"
  else
    let sign := if n <? 0 then "-" else EmptyString in
    match toDouble (Z.abs n) with
    | Some x => (sign ++ format x)%string
    | None => (sign ++ "Infinity")%string
    end.

End Number.

(** ** [JSON.stringify] *)

Module Json.

Definition dquote : ascii := ascii_of_nat 34.
Definition backslash : ascii := ascii_of_nat 92.

Definition hexDigit (n : nat) : ascii :=
  nth n ["0"; "1"; "2"; "3"; "4"; "5"; "6"; "7"; "8"; "9";
         "a"; "b"; "c"; "d"; "e"; "f"]%char "0"%char.

Definition escaped (c : ascii) : string := String backslash (String c EmptyString).

(** One character of a quoted string. *)
Definition quoteChar (c : ascii) : string :=
  let n := nat_of_ascii c in
  if (n =? 34)%nat then escaped dquote
  else if (n =? 92)%nat then escaped backslash
  else if (n =? 8)%nat then escaped "b"
  else if (n =? 9)%nat then escaped "t"
  else if (n =? 10)%nat then escaped "n"
  else if (n =? 12)%nat then escaped "f"
  else if (n =? 13)%nat then escaped "r"
  else if (n <? 32)%nat
       then String backslash
              (String "u" (String "0" (String "0"
                 (String (hexDigit (n / 16)) (String (hexDigit (n mod 16)) EmptyString)))))
  else String c EmptyString.

Fixpoint quoteChars (s : string) : string :=
  match s with
  | EmptyString => EmptyString
  | String c rest => (quoteChar c ++ quoteChars rest)%string
  end.

Definition quote (s : string) : string :=
  String dquote (quoteChars s ++ String dquote EmptyString)%string.

(** [JSON.stringify] of a number: [String(n)], and [null] for a number
    that is not finite. *)
Definition numberToString (n : Z) : string :=
  if Number.finite n then Number.toString n else "null".

(** Members of an object: a property whose value serialises to [undefined]
    is left out. *)
Fixpoint members (ser : Value -> Res (option string)) (ps : Props)
  : Res (list string) :=
  match ps with
  | [] => Ok []
  | (k, v) :: rest =>
      rbind (ser v) (fun o =>
      rbind (members ser rest) (fun ms =>
        match o with
        | Some text => Ok ((quote k ++ ":" ++ text)%string :: ms)
        | None => Ok ms
        end))
  end.

(** Elements of an array: [undefined] is written [null]. *)
Definition elements (ser : Value -> Res (option string)) (items : list Value)
  : Res (list string) :=
  mapRes (fun v => rbind (ser v) (fun o =>
                   Ok (match o with Some text => text | None => "null" end)))
         items.

(** [JSON.stringify(v)]: [None] is the result [undefined].  [stack] holds
    the model instances being serialised; meeting one of them again is the
    [TypeError] of a circular structure.  [Model] has no [toJSON] method, so
    an instance is written with all its own properties; a wrapper object is
    written as the primitive it wraps. *)
Fixpoint stringifyAt (fuel : nat) (h : Heap) (stack : list addr) (v : Value)
  : Res (option string) :=
  match fuel with
  | O => OutOfFuel
  | S fuel =>
      match v with
      | VUndefined => Ok None
      | VNull => Ok (Some "null")
      | VBool b => Ok (Some (if b then "true" else "false"))
      | VNum n => Ok (Some (numberToString n))
      | VStr s => Ok (Some (quote s))
      | VArr items =>
          rbind (elements (stringifyAt fuel h stack) items) (fun texts =>
          Ok (Some ("[" ++ String.concat "," texts ++ "]")%string))
      | VObj ps =>
          rbind (members (stringifyAt fuel h stack) ps) (fun texts =>
          Ok (Some ("{" ++ String.concat "," texts ++ "}")%string))
      | VRef a =>
          if existsb (Nat.eqb a) stack then TypeError
          else
            rbind (members (stringifyAt fuel h (a :: stack)) (Store.ownProps h a))
                  (fun texts =>
            Ok (Some ("{" ++ String.concat "," texts ++ "}")%string))
      | VBoxed (PBool b) => Ok (Some (if b then "true" else "false"))
      | VBoxed (PNum n) => Ok (Some (numberToString n))
      | VBoxed (PStr s) => Ok (Some (quote s))
      end
  end.

Definition stringify (fuel : nat) (h : Heap) (v : Value) : Res (option string) :=
  stringifyAt fuel h [] v.

(** [JSON.stringify(x) === JSON.stringify(y)]. *)
Definition sameText (x y : option string) : bool :=
  match x, y with
  | Some s, Some t => String.eqb s t
  | None, None => true
  | _, _ => false
  end.

End Json.

(** ** How much fuel [JSON.stringify] needs *)

Module Fuel.

(** Nesting depth of arrays and plain objects in a value. *)
Fixpoint depth (v : Value) : nat :=
  match v with
  | VArr items => S (list_max (map depth items))
  | VObj ps => S (list_max (map (fun kv => depth (snd kv)) ps))
  | _ => 1
  end.

Definition propsDepth (ps : Props) : nat :=
  list_max (map (fun kv => depth (snd kv)) ps).

(** The deepest member value of the store. *)
Definition heapDepth (h : Heap) : nat :=
  list_max (map (fun i => propsDepth (props i)) h).

(** The instances of the store that are not being serialised. *)
Definition pending (h : Heap) (stack : list addr) : nat :=
  length (List.filter (fun b => negb (existsb (Nat.eqb b) stack))
            (seq 0 (length h))).

(** Fuel with which [stringifyAt] comes to an end. *)
Definition enough (h : Heap) (stack : list addr) (v : Value) : nat :=
  depth v + pending h stack * S (heapDepth h).

(** Fuel with which [diff] against [other] comes to an end. *)
Definition forDiff (h : Heap) (other : Value) : nat :=
  S (heapDepth h + depth other) + length h * S (heapDepth h).

(** Fuel with which the change filter of [toJson] comes to an end. *)
Definition forFilter (h : Heap) : nat :=
  S (S (heapDepth h)) + length h * S (heapDepth h).

(** The models that fields hold directly are nested without a cycle:
    [level] decreases from an instance to the model in one of its fields. *)
Definition layered (h : Heap) (level : addr -> nat) : Prop :=
  forall a i k b, h !! a = Some i -> In (k, VRef b) (props i) -> level b < level a.

End Fuel.

(** ** Classes and their field metadata *)

(** The right-hand side of a field initialiser or the result of a
    [@Default] provider: a value, or a fresh instance ([new C()]). *)
Inductive Init : Type :=
| InitValue (v : Value)
| InitNew (c : ClassId).

(** What the engine knows of a class: the classes it extends (its parent
    and so on, [Model] left out), the field initialisers its constructor
    runs, in declaration order, the metadata registered by the decorators
    [@Type], [@Exclude], [@Transform], [@Readonly], [@Expose] and
    [@Default], and the two optional hooks, which act on the members of the
    instance they are called on.  Initialisers and metadata are those of the
    class with all it inherits. *)
Record ClassDef := {
  ancestors : list ClassId;
  fieldInits : list (string * Init);
  types : list (string * ClassId);
  excluded : list string;
  transforms : list (string * (Value -> Value));
  readOnly : list string;
  exposed : list (string * list string);
  defaults : list (string * Init);
  beforeApplyJson : option (Props -> Props);
  afterApplyJson : option (Props -> Props)
}.

(** The [options] argument of [toJson]. *)
Record Options := { group : option string; onlyChanged : bool }.

Definition noOptions : Options := {| group := None; onlyChanged := false |}.

(** [options.group] is given and is not the empty string. *)
Definition requestedGroup (o : Options) : option string :=
  match group o with
  | Some g => if String.eqb g EmptyString then None else Some g
  | None => None
  end.

(** ** The engine *)

Section Engine.

(** The classes of the program: the metadata the decorators registered. *)
Variable classes : ClassId -> ClassDef.

Local Open Scope js_scope.

(** The class of [this], whose prototype holds the metadata. *)
Definition classOfThis (this : addr) : M ClassId :=
  fun s => match Store.classOf (heap s) this with
           | Some c => Ok (c, s)
           | None => TypeError
           end.

(** [this.constructor], for a call of one of the static methods of the
    class: an own property [constructor] of the instance hides the class,
    and its value, which is data, has no such method. *)
Definition constructorOf (this : addr) : M ClassId :=
  fun s => if Obj.has "constructor" (Store.ownProps (heap s) this) then TypeError
           else classOfThis this s.

(** [v instanceof ClassType]: an instance of the class or of a class that
    extends it. *)
Definition instanceOf (h : Heap) (v : Value) (ClassType : ClassId) : bool :=
  match v with
  | VRef a =>
      match Store.classOf h a with
      | Some c => String.eqb c ClassType || has_key ClassType (ancestors (classes c))
      | None => false
      end
  | _ => false
  end.

(** The key of the element at index [i] of an array or a string. *)
Definition indexKey (i : nat) : string := NilZero.string_of_uint (Nat.to_uint i).

Fixpoint indexed (i : nat) (items : list Value) : Props :=
  match items with
  | [] => []
  | v :: rest => (indexKey i, v) :: indexed (S i) rest
  end.

Fixpoint characters (s : string) : list Value :=
  match s with
  | EmptyString => []
  | String c rest => VStr (String c EmptyString) :: characters rest
  end.

(** [Object.entries(v)] for a truthy [v]. *)
Definition entries (h : Heap) (v : Value) : Props :=
  match v with
  | VObj ps => ps
  | VArr items => indexed 0 items
  | VStr s | VBoxed (PStr s) => indexed 0 (characters s)
  | VRef a => Store.ownProps h a
  | _ => []
  end.

(** The value of an initialiser or of a call to a default provider. *)
Definition evalInit (construct : ClassId -> M addr) (i : Init) : M Value :=
  match i with
  | InitValue v => ret v
  | InitNew c => let* a := construct c in ret (VRef a)
  end.

(** [new C()]: the field initialisers run in declaration order on the new
    object. *)
Fixpoint construct (fuel : nat) (c : ClassId) : M addr :=
  match fuel with
  | O => outOfFuel
  | S fuel =>
      let* this := Store.alloc c in
      run forEach (fieldInits (classes c))
            (fun ki => let* v := evalInit (construct fuel) (snd ki) in
                       Store.setField this (fst ki) v) in
      ret this
  end.

(** [applyDefaults()]. *)
Definition applyDefaults (fuel : nat) (this : addr) : M unit :=
  let* c := classOfThis this in
  forEach (defaults (classes c))
    (fun kf => let* v := evalInit (construct fuel) (snd kf) in
               Store.setField this (fst kf) v).

(** [this.beforeApplyJson?.()] and [this.afterApplyJson?.()]. *)
Definition runHook (hook : option (Props -> Props)) (this : addr) : M unit :=
  match hook with
  | None => ret tt
  | Some f =>
      fun s =>
        Ok (tt,
            {| heap := match heap s !! this with
                       | Some i => <[this := {| cls := cls i; props := f (props i) |}]> (heap s)
                       | None => heap s
                       end;
               calls := calls s |})
  end.

(** The group filter of [toJson]:
    [options.group && exposed[key] && !exposed[key].includes(options.group)]. *)
Definition groupHides (C : ClassDef) (options : Options) (key : string) : bool :=
  match requestedGroup options, assoc key (exposed C) with
  | Some g, Some groups => negb (has_key g groups)
  | _, _ => false
  end.

(** [exposed[key].includes] is not a function: a group is requested, no
    decorator registered the key, and the lookup finds the member of
    [Object.prototype] of that name. *)
Definition groupThrows (C : ClassDef) (options : Options) (key : string) : bool :=
  match requestedGroup options, assoc key (exposed C) with
  | Some _, None => Proto.inherited key
  | _, _ => false
  end.

(** The change filter of [toJson]:
    [options.onlyChanged && this._originalState &&
     JSON.stringify(this[key]) === JSON.stringify(this._originalState[key])]. *)
Definition unchanged (fuel : nat) (h : Heap) (this : addr) (options : Options)
  (key : string) : Res bool :=
  if onlyChanged options then
    let original := Store.getField h this "_originalState" in
    if truthy original then
      let? now := Json.stringify fuel h (Store.getField h this key) in
      let? before := Json.stringify fuel h (Store.member h original key) in
      Ok (Json.sameText now before)
    else Ok false
  else Ok false.

(** The body of the loop of [toJson] for one own key; [nested] is the
    call [value.toJson(options)] on a field that holds a model.  The
    external name is [this.constructor.toSnakeCaseKey(key)], a call that
    throws on an instance with an own property [constructor]. *)
Definition exportKey (nested : addr -> Res Value) (C : ClassDef) (fuel : nat)
  (h : Heap) (this : addr) (options : Options) (key : string) (plain : Props)
  : Res Props :=
  if Keys.startsWithUnderscore key then Ok plain
  else if has_key key (excluded C) then Ok plain
  else if groupThrows C options key then TypeError
  else if groupHides C options key then Ok plain
  else
    let? same := unchanged fuel h this options key in
    if same : bool then Ok plain
    else if Obj.has "constructor" (Store.ownProps h this) then TypeError
    else
      let value := Store.getField h this key in
      let? out :=
        match value with
        | VRef a => nested a
        | _ => Ok (toSnakeCase value)
        end in
      Ok (Obj.set (Keys.toSnakeCaseKey key) out plain).

(** [toJson(options)]. *)
Fixpoint toJson (fuel : nat) (h : Heap) (this : addr) (options : Options)
  : Res Value :=
  match fuel with
  | O => OutOfFuel
  | S fuel =>
      match Store.classOf h this with
      | None => TypeError
      | Some c =>
          let? plain :=
            foldRes
              (exportKey (fun a => toJson fuel h a options) (classes c) fuel h
                 this options)
              (Obj.keys (Store.ownProps h this)) [] in
          Ok (VObj plain)
      end
  end.

(** [v instanceof ClassType ? v : ClassType.fromJson(v)]. *)
Definition coerce (fromJsonRec : ClassId -> Value -> bool -> M addr)
  (ClassType : ClassId) (v : Value) : M Value :=
  fun s =>
    if instanceOf (heap s) v ClassType then Ok (v, s)
    else (let* a := fromJsonRec ClassType v false in ret (VRef a)) s.

(** The body of the loop of [applyJson] for an entry whose key names a
    member of [Object.prototype] and that neither [@Transform] nor [@Type]
    registered: [transforms[key]] and [types[key]] both find that member.
    For [constructor] it is [Object]: the value is [Object(val)], kept when
    it is an [instanceof Object], element by element for an array, where
    [Object.fromJson] is not a function.  Any other member is called as the
    transform, and then fails as a class: it has no [prototype] for
    [instanceof] and no [fromJson]. *)
Definition inheritedEntry (this : addr) (key : string) (val : Value) : M unit :=
  if String.eqb key "constructor" then
    match val with
    | VArr items =>
        if forallb Proto.isObject items then Store.setField this key (VArr items)
        else throw
    | _ => Store.setField this key (Proto.toObject val)
    end
  else throw.

(** The body of the loop of [applyJson] for one entry of the converted
    input. *)
Definition applyEntry (fromJsonRec : ClassId -> Value -> bool -> M addr)
  (c : ClassId) (this : addr) (entry : string * Value) : M unit :=
  let C := classes c in
  let key := fst entry in
  let val := snd entry in
  if has_key key (readOnly C) then ret tt
  else if Proto.inherited key then
    match assoc key (transforms C), assoc key (types C) with
    | None, None => inheritedEntry this key val
    | _, _ => unsupported
    end
  else
    let* value :=
      match assoc key (transforms C) with
      | Some f =>
          run Store.logCall {| call_class := c; call_key := key; call_arg := val |} in
          ret (f val)
      | None => ret val
      end in
    match assoc key (types C) with
    | Some ClassType =>
        match value with
        | VArr items =>
            let* models := mapM (coerce fromJsonRec ClassType) items in
            Store.setField this key (VArr models)
        | _ =>
            let* model := coerce fromJsonRec ClassType value in
            Store.setField this key model
        end
    | None => Store.setField this key value
    end.

Definition applyJsonWith (fromJsonRec : ClassId -> Value -> bool -> M addr)
  (this : addr) (json : Value) : M unit :=
  if negb (truthy json) then ret tt
  else
    let* c := constructorOf this in
    let camel := toCamelCase json in
    let* es := reading (fun h => Ok (entries h camel)) in
    forEach es (applyEntry fromJsonRec c this).

(** [this.constructor.fromJson(this.toJson(), true)]. *)
Definition cloneWith (fuel : nat)
  (fromJsonRec : ClassId -> Value -> bool -> M addr) (this : addr) : M addr :=
  let* plain := reading (fun h => toJson fuel h this noOptions) in
  let* c := constructorOf this in
  fromJsonRec c plain true.

(** [C.fromJson(json, skipOriginalState)]. *)
Fixpoint fromJson (fuel : nat) (c : ClassId) (json : Value)
  (skipOriginalState : bool) : M addr :=
  match fuel with
  | O => outOfFuel
  | S fuel =>
      let* instance := construct fuel c in
      run applyDefaults fuel instance in
      run runHook (beforeApplyJson (classes c)) instance in
      run applyJsonWith (fromJson fuel) instance json in
      run runHook (afterApplyJson (classes c)) instance in
      if skipOriginalState then ret instance
      else
        let* snapshot := cloneWith fuel (fromJson fuel) instance in
        run Store.setField instance "_originalState" (VRef snapshot) in
        ret instance
  end.

(** [applyJson(json)]. *)
Definition applyJson (fuel : nat) (this : addr) (json : Value) : M unit :=
  applyJsonWith (fromJson fuel) this json.

(** [clone()]. *)
Definition clone (fuel : nat) (this : addr) : M addr :=
  cloneWith fuel (fromJson fuel) this.

(** [merge(other)]. *)
Definition merge (fuel : nat) (this : addr) (other : Value) : M unit :=
  applyJson fuel this other.

(** [JSON.stringify(this[key]) !== JSON.stringify(other[key])]. *)
Definition differs (fuel : nat) (h : Heap) (this : addr) (other : Value)
  (key : string) : Res bool :=
  let? mine := Json.stringify fuel h (Store.getField h this key) in
  let? theirs := Json.stringify fuel h (Store.member h other key) in
  Ok (negb (Json.sameText mine theirs)).

(** The body of the loop of [diff] for one own key. *)
Definition diffKey (fuel : nat) (h : Heap) (this : addr) (other : Value)
  (key : string) (diffs : Props) : Res Props :=
  let? d := differs fuel h this other key in
  if d : bool then Ok (Obj.set key (Store.getField h this key) diffs)
  else Ok diffs.

(** [diff(other)]. *)
Definition diff (fuel : nat) (h : Heap) (this : addr) (other : Value)
  : Res Value :=
  let? diffs :=
    foldRes (diffKey fuel h this other) (Obj.keys (Store.ownProps h this)) [] in
  Ok (VObj diffs).

(** [isEqual(other)]. *)
Definition isEqual (fuel : nat) (h : Heap) (this other : addr) : Res bool :=
  let? mine := toJson fuel h this noOptions in
  let? mineText := Json.stringify fuel h mine in
  let? theirs := toJson fuel h other noOptions in
  let? theirsText := Json.stringify fuel h theirs in
  Ok (Json.sameText mineText theirsText).

(** [reset()]. *)
Definition reset (fuel : nat) (this : addr) : M unit :=
  let* original := reading (fun h => Ok (Store.getField h this "_originalState")) in
  if truthy original then
    match original with
    | VRef snapshot =>
        let* plain := reading (fun h => toJson fuel h snapshot noOptions) in
        applyJson fuel this plain
    | _ => throw
    end
  else ret tt.

(** [getChangesSince()]. *)
Definition getChangesSince (fuel : nat) (h : Heap) (this : addr) : Res Value :=
  let original := Store.getField h this "_originalState" in
  if negb (truthy original) then Ok (VObj [])
  else diff fuel h this original.

(** The statements of [fromJson] that precede the import: [new this()],
    [applyDefaults()] and the optional [beforeApplyJson] hook. *)
Definition instantiate (fuel : nat) (c : ClassId) : M addr :=
  let* instance := construct fuel c in
  run applyDefaults fuel instance in
  run runHook (beforeApplyJson (classes c)) instance in
  ret instance.



End Engine.

(** ** What a call may change *)

Section Effects.

Variable classes : ClassId -> ClassDef.

(** A logged call is allowed when its field is not read-only in its
    class. *)
Definition allowed (c : Call) : Prop :=
  has_key (call_key c) (readOnly (classes (call_class c))) = false.

(** [kept N keep h h']: the store has not shrunk, every instance keeps its
    class, and every instance below address [N] has all the members it had
    and the value of each member selected by [keep]. *)
Definition kept (N : nat) (keep : addr -> string -> Prop) (h h' : Heap) : Prop :=
  length h <= length h' /\
  (forall b c, Store.classOf h b = Some c -> Store.classOf h' b = Some c) /\
  forall b, b < N ->
    (forall k, Obj.has k (Store.ownProps h b) = true ->
               Obj.has k (Store.ownProps h' b) = true) /\
    (forall k, keep b k ->
               Obj.get k (Store.ownProps h' b) = Obj.get k (Store.ownProps h b)).

(** [evolves N keep s s']: the store is kept as above and the log has only
    grown, by allowed calls. *)
Definition evolves (N : nat) (keep : addr -> string -> Prop) (s s' : State) : Prop :=
  kept N keep (heap s) (heap s') /\
  exists new, calls s' = calls s ++ new /\ Forall allowed new.

(** Every member of every instance. *)
Definition everything : addr -> string -> Prop := fun _ _ => True.

(** [post N keep m Q]: from a store with at least [N] instances, a run of
    [m] that returns keeps what [keep] selects and returns a result that
    satisfies [Q]. *)
Definition post {A} (N : nat) (keep : addr -> string -> Prop) (m : M A)
  (Q : A -> Prop) : Prop :=
  forall s x s',
    N <= length (heap s) -> m s = Ok (x, s') -> evolves N keep s s' /\ Q x.

(** What the engine assumes of the [fromJson] it calls back. *)
Definition allocates (rec : ClassId -> Value -> bool -> M addr) : Prop :=
  forall c v skip N, post N everything (rec c v skip) (fun a => N <= a).

(** The members [applyJson] leaves alone on the instance it is called on:
    the read-only ones and those the converted input does not name. *)
Definition untouched (c : ClassId) (this : addr) (es : Props)
  : addr -> string -> Prop :=
  fun b k => b <> this \/ has_key k (readOnly (classes c)) = true
             \/ ~ In k (Obj.keys es).

(** A field passes the filters of [toJson] that do not depend on the
    snapshot. *)
Definition offered (C : ClassDef) (options : Options) (key : string) : Prop :=
  Keys.startsWithUnderscore key = false
  /\ has_key key (excluded C) = false
  /\ groupHides C options key = false.

End Effects.

(** ** The classes of the test suite

    [Post], [Profile] and [User] as the tests declare them.  The two
    [createdAt] initialisers read the clock in the source; here they yield
    the fixed text [T0]. *)

Module Suite.

Definition plainClass (inits : list (string * Init)) : ClassDef :=
  {| ancestors := []; fieldInits := inits; types := []; excluded := [];
     transforms := [];
     readOnly := []; exposed := []; defaults := [];
     beforeApplyJson := None; afterApplyJson := None |}.

Definition Post : ClassDef :=
  plainClass [("title", InitValue (VStr EmptyString));
              ("createdAt", InitValue (VStr "T0"))].

Definition Profile : ClassDef :=
  plainClass [("bio", InitValue (VStr EmptyString));
              ("website", InitValue (VStr EmptyString))].

Definition User : ClassDef :=
  {| ancestors := [];
     fieldInits := [("id", InitValue (VNum 0));
                    ("firstName", InitValue (VStr EmptyString));
                    ("lastName", InitValue (VStr EmptyString));
                    ("email", InitValue (VStr EmptyString));
                    ("password", InitValue (VStr EmptyString));
                    ("isAdmin", InitValue (VBool false));
                    ("createdAt", InitValue (VStr "T0"));
                    ("profile", InitNew "Profile");
                    ("posts", InitValue (VArr []))];
     types := [("profile", "Profile"); ("posts", "Post")];
     excluded := ["password"];
     transforms := [];
     readOnly := ["createdAt"];
     exposed := [("isAdmin", ["admin"])];
     defaults := [];
     beforeApplyJson := None;
     afterApplyJson := None |}.

Definition classes (c : ClassId) : ClassDef :=
  if String.eqb c "User" then User
  else if String.eqb c "Post" then Post
  else if String.eqb c "Profile" then Profile
  else plainClass [].

(** The store before anything is created. *)
Definition empty : State := {| heap := []; calls := [] |}.

(** [x.posts[0].title]. *)
Definition firstPostTitle (h : Heap) (x : addr) : Value :=
  match Store.getField h x "posts" with
  | VArr (post :: _) => Store.member h post "title"
  | _ => VUndefined
  end.

(** The input of the tests' [beforeEach] (the second title without its
    accent). *)
Definition input : Value :=
  VObj [("id", VNum 0);
        ("first_name", VStr "Pavel");
        ("last_name", VStr "del Pozo");
        ("email", VStr "pavel@dev.com");
        ("password", VStr "secret");
        ("is_admin", VBool true);
        ("created_at", VStr "2024-01-01");
        ("profile", VObj [("bio", VStr "Frontend Dev");
                          ("website", VStr "https://pavel.dev")]);
        ("posts", VArr [VObj [("title", VStr "Hola");
                              ("created_at", VStr "2023-01-01")];
                        VObj [("title", VStr "Adios");
                              ("created_at", VStr "2023-02-01")]])].

(** The state a call that returned leaves, and the object it returned. *)
Definition stateOf {A} (r : Res (A * State)) : State :=
  match r with
  | Ok (_, s) => s
  | _ => empty
  end.

Definition objectOf (r : Res Value) : Props :=
  match r with
  | Ok (VObj ps) => ps
  | _ => []
  end.

(** [user = User.fromJson(input)]: the first object created is the user. *)
Definition user : addr := 0.
Definition hydrated : State := stateOf (fromJson classes 6 "User" input false empty).

End Suite.

(** A class with a field that is both read-only and transformed, next to a
    field that is only transformed. *)
Module Sample.

Definition shout (v : Value) : Value :=
  match v with
  | VStr s => VStr (s ++ "!")
  | _ => v
  end.

Definition Entry : ClassDef :=
  {| ancestors := [];
     fieldInits := [("createdAt", InitValue (VStr "T0"));
                    ("note", InitValue (VStr EmptyString))];
     types := [];
     excluded := [];
     transforms := [("createdAt", shout); ("note", shout)];
     readOnly := ["createdAt"];
     exposed := [];
     defaults := [];
     beforeApplyJson := None;
     afterApplyJson := None |}.

Definition classes (c : ClassId) : ClassDef :=
  if String.eqb c "Entry" then Entry else Suite.plainClass [].

Definition input : Value :=
  VObj [("created_at", VStr "2024-01-01"); ("note", VStr "hola")].

End Sample.

(** A model instance occurs somewhere in the value. *)
Fixpoint holdsModel (v : Value) : bool :=
  match v with
  | VRef _ => true
  | VArr items => existsb holdsModel items
  | VObj ps => existsb (fun kv => holdsModel (snd kv)) ps
  | _ => false
  end.

(** ** Shapes of keys and of plain data *)

(** No character of the key is an upper-case letter. *)
Fixpoint noUpperCase (s : string) : bool :=
  match s with
  | EmptyString => true
  | String c rest => negb (Keys.is_upper c) && noUpperCase rest
  end.

(** No string occurs twice in the list. *)
Fixpoint distinct (ks : list string) : bool :=
  match ks with
  | [] => true
  | k :: rest => negb (has_key k rest) && distinct rest
  end.

(** Every object of the value that the key conversion enters, that is one
    without own property [constructor], has distinct keys that all satisfy
    [shape]. *)
Fixpoint keyed (shape : string -> bool) (v : Value) : bool :=
  match v with
  | VArr items => forallb (keyed shape) items
  | VObj ps =>
      negb (Proto.constructorIsObject ps)
      || (distinct (map fst ps)
          && forallb shape (map fst ps)
          && forallb (fun kv => keyed shape (snd kv)) ps)
  | _ => true
  end.

(** Plain data in internal form: no key has an underscore followed by a
    lower-case letter. *)
Definition camelKeyed : Value -> bool := keyed Keys.settled.

(** Plain data in external form: no key has an upper-case letter. *)
Definition snakeKeyed : Value -> bool := keyed noUpperCase.

(** The traversal that [toCamelCase] and [toSnakeCase] share, for a key
    conversion [conv]. *)
Fixpoint rekey (conv : string -> string) (obj : Value) : Value :=
  match obj with
  | VRef a => VRef a
  | VArr items => VArr (map (rekey conv) items)
  | VObj props =>
      if Proto.constructorIsObject props then
        VObj (Obj.fromEntries
                (map (fun kv => (conv (fst kv), rekey conv (snd kv))) props))
      else obj
  | _ => obj
  end.

(** [transforms[key] ? transforms[key](val) : val]. *)
Definition transformed (C : ClassDef) (key : string) (val : Value) : Value :=
  match assoc key (transforms C) with
  | Some f => f val
  | None => val
  end.

(** ** What an import leaves in a typed field *)

Section Typed.

Variable classes : ClassId -> ClassDef.

(** [w] is what [v instanceof ClassType ? v : ClassType.fromJson(v)] gave
    for [x] in an import that led from state [s] to state [s']: [x] itself,
    an instance of the class or of a class that extends it; or, [x] not
    being one, the instance that a call [ClassType.fromJson(x)] made during
    the import returned, which did not exist in [s], is of class
    [ClassType], and has in [s'] the members it had when that call
    returned. *)
Definition imported (fuel : nat) (ClassType : ClassId) (s s' : State)
  (x w : Value) : Prop :=
  (w = x /\ instanceOf classes (heap s') x ClassType = true)
  \/ (instanceOf classes (heap s) x ClassType = false
      /\ exists a t t',
           w = VRef a
           /\ fromJson classes fuel ClassType x false t = Ok (a, t')
           /\ length (heap s) <= a
           /\ Store.classOf (heap s') a = Some ClassType
           /\ forall k, Obj.get k (Store.ownProps (heap s') a)
                        = Obj.get k (Store.ownProps (heap t') a)).

(** What [applyJson] leaves in a field typed [ClassType] for the
    transformed value [value] of the input: the model imported for it, and
    for an array the array of the models imported for its elements, one by
    one. *)
Definition typedResult (fuel : nat) (ClassType : ClassId) (s s' : State)
  (value w : Value) : Prop :=
  match value with
  | VArr items =>
      exists models,
        w = VArr models /\ Forall2 (imported fuel ClassType s s') items models
  | _ => imported fuel ClassType s s' value w
  end.

End Typed.

(** ** The decorators

    Each decorator updates the metadata of the class it is applied in; the
    class is the flattened view of the prototype the source registers
    against. *)

Module Decorator.

(** [map[propertyKey] = x], for a property key other than [__proto__],
    which that assignment does not add to the map. *)
Fixpoint put {A : Type} (k : string) (x : A) (m : list (string * A))
  : list (string * A) :=
  match m with
  | [] => [(k, x)]
  | (k', y) :: rest =>
      if String.eqb k k' then (k, x) :: rest else (k', y) :: put k x rest
  end.

(** [set.add(propertyKey)]. *)
Definition add (k : string) (s : list string) : list string :=
  if has_key k s then s else s ++ [k].

(** [@Type(type)]. *)
Definition Type_ (type : ClassId) (propertyKey : string) (C : ClassDef) : ClassDef :=
  {| ancestors := ancestors C;
     fieldInits := fieldInits C;
     types := put propertyKey type (types C);
     excluded := excluded C;
     transforms := transforms C;
     readOnly := readOnly C;
     exposed := exposed C;
     defaults := defaults C;
     beforeApplyJson := beforeApplyJson C;
     afterApplyJson := afterApplyJson C |}.

(** [@Exclude()]. *)
Definition Exclude (propertyKey : string) (C : ClassDef) : ClassDef :=
  {| ancestors := ancestors C;
     fieldInits := fieldInits C;
     types := types C;
     excluded := add propertyKey (excluded C);
     transforms := transforms C;
     readOnly := readOnly C;
     exposed := exposed C;
     defaults := defaults C;
     beforeApplyJson := beforeApplyJson C;
     afterApplyJson := afterApplyJson C |}.

(** [@Transform(transformFn)]. *)
Definition Transform (transformFn : Value -> Value) (propertyKey : string)
  (C : ClassDef) : ClassDef :=
  {| ancestors := ancestors C;
     fieldInits := fieldInits C;
     types := types C;
     excluded := excluded C;
     transforms := put propertyKey transformFn (transforms C);
     readOnly := readOnly C;
     exposed := exposed C;
     defaults := defaults C;
     beforeApplyJson := beforeApplyJson C;
     afterApplyJson := afterApplyJson C |}.

(** [@Readonly()]. *)
Definition Readonly (propertyKey : string) (C : ClassDef) : ClassDef :=
  {| ancestors := ancestors C;
     fieldInits := fieldInits C;
     types := types C;
     excluded := excluded C;
     transforms := transforms C;
     readOnly := add propertyKey (readOnly C);
     exposed := exposed C;
     defaults := defaults C;
     beforeApplyJson := beforeApplyJson C;
     afterApplyJson := afterApplyJson C |}.

(** [@Expose(options)]: [options.groups || []]. *)
Definition Expose (groups : option (list string)) (propertyKey : string)
  (C : ClassDef) : ClassDef :=
  {| ancestors := ancestors C;
     fieldInits := fieldInits C;
     types := types C;
     excluded := excluded C;
     transforms := transforms C;
     readOnly := readOnly C;
     exposed := put propertyKey
                  (match groups with Some g => g | None => [] end) (exposed C);
     defaults := defaults C;
     beforeApplyJson := beforeApplyJson C;
     afterApplyJson := afterApplyJson C |}.

(** [@Default(valueFn)]. *)
Definition Default (valueFn : Init) (propertyKey : string) (C : ClassDef) : ClassDef :=
  {| ancestors := ancestors C;
     fieldInits := fieldInits C;
     types := types C;
     excluded := excluded C;
     transforms := transforms C;
     readOnly := readOnly C;
     exposed := exposed C;
     defaults := put propertyKey valueFn (defaults C);
     beforeApplyJson := beforeApplyJson C;
     afterApplyJson := afterApplyJson C |}.

End Decorator.

(** ** [toFormData] *)

Module Form.

Local Open Scope js_scope.

(** [String(v)], the text [FormData.append] stores for a value.  An array
    is the texts of its elements joined by commas, [null] and [undefined]
    being written as nothing; an object that inherits [toString] from
    [Object.prototype] is [[object Object]], and one with an own property
    [toString], which is data, has no primitive value: a [TypeError]. *)
Fixpoint toText (h : Heap) (v : Value) : Res string :=
  match v with
  | VUndefined => Ok "undefined"
  | VNull => Ok "null"
  | VBool b | VBoxed (PBool b) => Ok (if b then "true" else "false")
  | VNum n | VBoxed (PNum n) => Ok (Number.toString n)
  | VStr s | VBoxed (PStr s) => Ok s
  | VArr items =>
      let? texts :=
        mapRes (fun x => match x with
                         | VUndefined | VNull => Ok EmptyString
                         | _ => toText h x
                         end) items in
      Ok (String.concat "," texts)
  | VObj ps =>
      if Obj.has "toString" ps then TypeError else Ok "[object Object]"
  | VRef a =>
      if Obj.has "toString" (Store.ownProps h a) then TypeError
      else Ok "[object Object]"
  end.

(** A [FormData]: its entries in the order they were appended. *)
Definition FormData := list (string * string).

(** [form.get(name)]: the first value appended under the name. *)
Fixpoint get (name : string) (form : FormData) : option string :=
  match form with
  | [] => None
  | (k, text) :: rest => if String.eqb name k then Some text else get name rest
  end.

(** The entries one member of the export contributes: one per element,
    under [key[i]], for an array; one under [key] otherwise. *)
Definition append (h : Heap) (key : string) (val : Value) : Res FormData :=
  match val with
  | VArr items =>
      mapRes (fun iv => let? text := toText h (snd iv) in
                        Ok ((key ++ "[" ++ fst iv ++ "]")%string, text))
             (indexed 0 items)
  | _ => let? text := toText h val in Ok [(key, text)]
  end.

(** The last character of a string. *)
Fixpoint lastChar (s : string) : option ascii :=
  match s with
  | EmptyString => None
  | String c EmptyString => Some c
  | String _ rest => lastChar rest
  end.

End Form.

Section FormData.

Variable classes : ClassId -> ClassDef.

Local Open Scope js_scope.

(** [toFormData()]. *)
Definition toFormData (fuel : nat) (h : Heap) (this : addr) : Res Form.FormData :=
  let? json := toJson classes fuel h this noOptions in
  foldRes (fun kv form => let? added := Form.append h (fst kv) (snd kv) in
                          Ok (form ++ added))
          (entries h json) [].

End FormData.

(** ** Decorated classes

    The [Post] of the test suite with one more decorator on its [title],
    one class per decorator, an [Article] with a typed field, and a [Post]
    that excludes [constructor]. *)

Module Cases.

Definition Locked : ClassDef := Decorator.Readonly "title" Suite.Post.
Definition Hidden : ClassDef := Decorator.Exclude "title" Suite.Post.
Definition Grouped : ClassDef := Decorator.Expose None "title" Suite.Post.
Definition Loud : ClassDef := Decorator.Transform Sample.shout "title" Suite.Post.
Definition Draft : ClassDef :=
  Decorator.Default (InitValue (VStr "draft")) "title" Suite.Post.
Definition Article : ClassDef :=
  Decorator.Type_ "Post" "latest"
    (Suite.plainClass [("latest", InitValue VNull)]).

(** A [Post] whose metadata excludes the name [constructor]. *)
Definition Detached : ClassDef := Decorator.Exclude "constructor" Suite.Post.

Definition classes (c : ClassId) : ClassDef :=
  if String.eqb c "Locked" then Locked
  else if String.eqb c "Hidden" then Hidden
  else if String.eqb c "Grouped" then Grouped
  else if String.eqb c "Loud" then Loud
  else if String.eqb c "Draft" then Draft
  else if String.eqb c "Article" then Article
  else if String.eqb c "Detached" then Detached
  else Suite.classes c.

(** [C.fromJson({title: 'hola'})] in the empty store: the instance is the
    first object created. *)
Definition made (c : ClassId) : State :=
  Suite.stateOf
    (fromJson classes 6 c (VObj [("title", VStr "hola")]) false Suite.empty).

(** [Entry.fromJson(input)] for the class with transforms. *)
Definition entry : State :=
  Suite.stateOf (fromJson Sample.classes 6 "Entry" Sample.input false Suite.empty).

(** The user of the test suite after [user.firstName = 'Changed']. *)
Definition renamed : State :=
  Suite.stateOf
    (Store.setField Suite.user "firstName" (VStr "Changed") Suite.hydrated).

End Cases.

(** ** Facts on key conversion *)

Module KeysFacts.
Import Keys.

Lemma upper_of_lower c : is_lower c = true -> is_upper (toUpperCase c) = true.
Proof.
  destruct c as [[] [] [] [] [] [] [] []]; vm_compute; congruence.
Qed.

Lemma upper_not_lower c : is_upper c = true -> is_lower c = false.
Proof.
  destruct c as [[] [] [] [] [] [] [] []]; vm_compute; congruence.
Qed.

Lemma upper_not_underscore c : is_upper c = true -> is_underscore c = false.
Proof.
  destruct c as [[] [] [] [] [] [] [] []]; vm_compute; congruence.
Qed.

Lemma lower_of_upper_is_lower c :
  is_upper c = true -> is_lower (toLowerCase c) = true.
Proof.
  destruct c as [[] [] [] [] [] [] [] []]; vm_compute; congruence.
Qed.

Lemma upper_of_lower_of_upper c :
  is_upper c = true -> toUpperCase (toLowerCase c) = c.
Proof.
  destruct c as [[] [] [] [] [] [] [] []]; vm_compute; congruence.
Qed.

(** Induction on strings two characters at a time, as [toCamelCaseKey]
    recurses. *)
Lemma string_pair_ind (P : string -> Prop) :
  P EmptyString ->
  (forall c, P (String c EmptyString)) ->
  (forall c d s, P s -> P (String d s) -> P (String c (String d s))) ->
  forall s, P s.
Proof.
  intros H0 H1 H2.
  assert (forall s, P s /\ forall c, P (String c s)) as H.
  { induction s as [|d s [IH1 IH2]]; split; auto. }
  intros s. apply H.
Qed.

Lemma settled_cons c d s :
  settled (String c (String d s))
  = negb (is_underscore c && is_lower d) && settled (String d s).
Proof. reflexivity. Qed.

Lemma camel_cons c d s :
  toCamelCaseKey (String c (String d s))
  = if is_underscore c && is_lower d
    then String (toUpperCase d) (toCamelCaseKey s)
    else String c (toCamelCaseKey (String d s)).
Proof. reflexivity. Qed.

Lemma settled_tail c s : settled (String c s) = true -> settled s = true.
Proof.
  destruct s as [|d s]; [reflexivity|].
  rewrite settled_cons. intros H. apply andb_true_iff in H. tauto.
Qed.

(** The head of a converted key is a lower-case letter only if the source
    key started with it. *)
Lemma camel_head_lower c s d t :
  toCamelCaseKey (String c s) = String d t ->
  is_lower d = true -> c = d.
Proof.
  destruct s as [|e s]; [intros [= -> _]; reflexivity | rewrite camel_cons].
  - destruct (is_underscore c && is_lower e) eqn:E.
    + intros [= <- _] Hl. apply andb_true_iff in E as [_ E].
      apply upper_of_lower, upper_not_lower in E. congruence.
    + intros [= -> _]; reflexivity.
Qed.

Lemma camel_settled : forall k, settled (toCamelCaseKey k) = true.
Proof.
  induction k as [| c | c d s IHs IHds] using string_pair_ind;
    [reflexivity | reflexivity |].
  rewrite camel_cons.
  destruct (is_underscore c && is_lower d) eqn:E.
  - apply andb_true_iff in E as [_ Hd].
    destruct (toCamelCaseKey s) as [|e t] eqn:Es; [reflexivity|].
    rewrite settled_cons, (upper_not_underscore _ (upper_of_lower _ Hd)).
    exact IHs.
  - destruct (toCamelCaseKey (String d s)) as [|e t] eqn:Es; [reflexivity|].
    rewrite settled_cons, IHds, andb_true_r.
    apply negb_true_iff, andb_false_iff.
    destruct (is_lower e) eqn:He; [left | now right].
    pose proof (camel_head_lower _ _ _ _ Es He) as ->.
    apply andb_false_iff in E as [E | E]; congruence.
Qed.

Lemma camel_snake_settled :
  forall c, settled c = true -> toCamelCaseKey (toSnakeCaseKey c) = c.
Proof.
  induction c as [|c s IH]; [reflexivity|].
  intros Hs. pose proof (settled_tail _ _ Hs) as Ht. specialize (IH Ht).
  cbn [toSnakeCaseKey]. destruct (is_upper c) eqn:Hu.
  - rewrite camel_cons. replace (is_underscore "_"%char) with true by reflexivity.
    rewrite (lower_of_upper_is_lower _ Hu), (upper_of_lower_of_upper _ Hu), IH.
    reflexivity.
  - destruct s as [|d s]; [reflexivity|].
    rewrite settled_cons in Hs.
    apply andb_true_iff in Hs as [Hs _]. apply negb_true_iff in Hs.
    cbn [toSnakeCaseKey] in *.
    destruct (is_upper d) eqn:Hd.
    + rewrite camel_cons.
      replace (is_lower "_"%char) with false by reflexivity.
      rewrite andb_false_r, IH. reflexivity.
    + rewrite camel_cons, Hs, IH. reflexivity.
Qed.

End KeysFacts.

(** C7: converting an external key to internal form, back to external form
    and to internal form again gives the internal form of the first
    conversion; it holds for every key, whatever convention it follows. *)
Theorem toCamelCaseKey_roundtrip_stable :
  forall k : string,
    Keys.toCamelCaseKey (Keys.toSnakeCaseKey (Keys.toCamelCaseKey k))
    = Keys.toCamelCaseKey k.
Proof.
  intros k. apply KeysFacts.camel_snake_settled, KeysFacts.camel_settled.
Qed.

(** ** The engine on the test suite's classes *)

(** C1: [toJson] exports a model held directly by a field, but a model that
    is an element of an array-valued field is handed to [toSnakeCase], which
    returns it as it is: the export of a [User] with one post has the plain
    export of the profile and, in [posts], the [Post] instance itself. *)
Theorem toJson_array_keeps_live_model :
  exists s,
    fromJson Suite.classes 6 "User"
      (VObj [("posts", VArr [VObj [("title", VStr "Hola")]])]) true Suite.empty
    = Ok (0, s)
    /\ Store.getField (heap s) 0 "posts" = VArr [VRef 2]
    /\ Store.classOf (heap s) 2 = Some "Post"
    /\ toJson Suite.classes 6 (heap s) 0 noOptions
       = Ok (VObj [("id", VNum 0);
                   ("first_name", VStr EmptyString);
                   ("last_name", VStr EmptyString);
                   ("email", VStr EmptyString);
                   ("is_admin", VBool false);
                   ("created_at", VStr "T0");
                   ("profile", VObj [("bio", VStr EmptyString);
                                     ("website", VStr EmptyString)]);
                   ("posts", VArr [VRef 2])])
    /\ holdsModel (VArr [VRef 2]) = true.
Proof.
  eexists.
  split; [vm_compute; reflexivity|].
  split; [vm_compute; reflexivity|].
  split; [vm_compute; reflexivity|].
  split; [vm_compute; reflexivity | reflexivity].
Qed.

(** C2: the snapshot taken by [fromJson] shares the models of an
    array-valued field with the instance: assigning the title of the
    instance's first post changes the title of the snapshot's first post. *)
Theorem snapshot_shares_array_models :
  exists s s',
    fromJson Suite.classes 6 "User"
      (VObj [("posts", VArr [VObj [("title", VStr "Hola")]])]) false Suite.empty
    = Ok (0, s)
    /\ Store.getField (heap s) 0 "_originalState" = VRef 4
    /\ Store.getField (heap s) 0 "posts" = VArr [VRef 2]
    /\ Store.getField (heap s) 4 "posts" = VArr [VRef 2]
    /\ Suite.firstPostTitle (heap s) 4 = VStr "Hola"
    /\ Store.setField 2 "title" (VStr "Changed") s = Ok (tt, s')
    /\ Suite.firstPostTitle (heap s') 0 = VStr "Changed"
    /\ Suite.firstPostTitle (heap s') 4 = VStr "Changed".
Proof.
  eexists _, _.
  split; [vm_compute; reflexivity|].
  split; [vm_compute; reflexivity|].
  split; [vm_compute; reflexivity|].
  split; [vm_compute; reflexivity|].
  split; [vm_compute; reflexivity|].
  split; [vm_compute; reflexivity|].
  split; [vm_compute; reflexivity | vm_compute; reflexivity].
Qed.

(** C4: right after [fromJson], [getChangesSince] is not empty: [diff] walks
    every own property, and the instance owns [_originalState] while its
    snapshot does not. *)
Theorem getChangesSince_after_construction :
  exists s,
    fromJson Suite.classes 6 "Profile" (VObj [("bio", VStr "x")]) false Suite.empty
    = Ok (0, s)
    /\ Store.getField (heap s) 0 "_originalState" = VRef 1
    /\ getChangesSince 6 (heap s) 0 = Ok (VObj [("_originalState", VRef 1)]).
Proof.
  eexists.
  split; [vm_compute; reflexivity|].
  split; [vm_compute; reflexivity | vm_compute; reflexivity].
Qed.

(** C8: a read-only field is not imported by the [fromJson] that [clone]
    runs, so the clone of a [User] whose [createdAt] was assigned holds the
    initialiser's value instead, and [isEqual] answers false. *)
Theorem isEqual_clone_readonly :
  exists s s1 s2,
    fromJson Suite.classes 6 "User" (VObj []) false Suite.empty = Ok (0, s)
    /\ Store.setField 0 "createdAt" (VStr "2024-01-01") s = Ok (tt, s1)
    /\ clone Suite.classes 6 0 s1 = Ok (6, s2)
    /\ Store.getField (heap s2) 0 "createdAt" = VStr "2024-01-01"
    /\ Store.getField (heap s2) 6 "createdAt" = VStr "T0"
    /\ isEqual Suite.classes 6 (heap s2) 0 6 = Ok false.
Proof.
  eexists _, _, _.
  split; [vm_compute; reflexivity|].
  split; [vm_compute; reflexivity|].
  split; [vm_compute; reflexivity|].
  split; [vm_compute; reflexivity|].
  split; [vm_compute; reflexivity | vm_compute; reflexivity].
Qed.

(** C3, as stated, fails: the import that [fromJson] performs skips a
    read-only field like any other import; [createdAt] keeps the value of
    its initialiser. *)
Lemma fromJson_does_not_assign_readonly :
  exists s,
    fromJson Suite.classes 6 "User" (VObj [("created_at", VStr "2024-01-01")])
      false Suite.empty = Ok (0, s)
    /\ has_key "createdAt" (readOnly (Suite.classes "User")) = true
    /\ Store.getField (heap s) 0 "createdAt" = VStr "T0"
    /\ Store.getField (heap s) 0 "createdAt" <> VStr "2024-01-01".
Proof.
  eexists.
  split; [vm_compute; reflexivity|].
  split; [vm_compute; reflexivity|].
  split; [vm_compute; reflexivity|].
  vm_compute. discriminate.
Qed.


(** C6, as stated, fails: with no group requested the group filter is not
    applied, and a field exposed to the group [admin] only is exported. *)
Lemma toJson_without_group_exports_exposed_field :
  exists s plain,
    fromJson Suite.classes 6 "User" (VObj [("is_admin", VBool true)])
      false Suite.empty = Ok (0, s)
    /\ assoc "isAdmin" (exposed (Suite.classes "User")) = Some ["admin"]
    /\ toJson Suite.classes 6 (heap s) 0 noOptions = Ok (VObj plain)
    /\ Obj.get "is_admin" plain = Some (VBool true).
Proof.
  eexists _, _.
  split; [vm_compute; reflexivity|].
  split; [vm_compute; reflexivity|].
  split; [vm_compute; reflexivity | vm_compute; reflexivity].
Qed.

(** ** Facts on objects and the store *)

Module ObjFacts.

Lemma get_set_eq k v ps : Obj.get k (Obj.set k v ps) = Some v.
Proof.
  induction ps as [|[k' v'] ps IH]; cbn.
  - now rewrite String.eqb_refl.
  - destruct (String.eqb k k') eqn:E; cbn.
    + now rewrite String.eqb_refl.
    + now rewrite E.
Qed.

Lemma get_set_ne k k' v ps :
  k' <> k -> Obj.get k' (Obj.set k v ps) = Obj.get k' ps.
Proof.
  intros Hne. induction ps as [|[k2 v2] ps IH]; cbn.
  - apply String.eqb_neq in Hne. now rewrite Hne.
  - destruct (String.eqb k k2) eqn:E; cbn.
    + apply String.eqb_eq in E. subst k2.
      apply String.eqb_neq in Hne. now rewrite Hne.
    + now rewrite IH.
Qed.

Lemma has_set_eq k v ps : Obj.has k (Obj.set k v ps) = true.
Proof. unfold Obj.has. now rewrite get_set_eq. Qed.

Lemma has_set_mono k k' v ps :
  Obj.has k' ps = true -> Obj.has k' (Obj.set k v ps) = true.
Proof.
  destruct (String.eqb_spec k' k) as [->|Hne].
  - intros _. apply has_set_eq.
  - unfold Obj.has. now rewrite get_set_ne.
Qed.

Lemma has_set_inv k k' v ps :
  Obj.has k' (Obj.set k v ps) = true -> k' = k \/ Obj.has k' ps = true.
Proof.
  destruct (String.eqb_spec k' k) as [->|Hne]; [now left|].
  unfold Obj.has. rewrite get_set_ne by assumption. now right.
Qed.

Lemma get_in_keys k ps v : Obj.get k ps = Some v -> In k (Obj.keys ps).
Proof.
  induction ps as [|[k' v'] ps IH]; cbn; [discriminate|].
  destruct (String.eqb_spec k k') as [->|Hne]; auto.
Qed.

Lemma get_none_keys k ps : Obj.get k ps = None <-> ~ In k (Obj.keys ps).
Proof.
  induction ps as [|[k' v'] ps IH]; cbn; [tauto|].
  destruct (String.eqb_spec k k') as [->|Hne].
  - split; [discriminate | intros H; exfalso; apply H; now left].
  - rewrite IH. split; [intros H [E|E]; [congruence | tauto] | tauto].
Qed.

End ObjFacts.

Module StoreFacts.
Import ObjFacts.

Lemma writeField_length a k v h : length (Store.writeField a k v h) = length h.
Proof.
  unfold Store.writeField. destruct (h !! a); [apply length_insert | reflexivity].
Qed.

Lemma writeField_other a b k v h :
  b <> a -> Store.writeField a k v h !! b = h !! b.
Proof.
  intros Hne. unfold Store.writeField. destruct (h !! a) eqn:E; [|reflexivity].
  apply list_lookup_insert_ne. congruence.
Qed.

Lemma writeField_classOf a b k v h :
  Store.classOf (Store.writeField a k v h) b = Store.classOf h b.
Proof.
  unfold Store.classOf. destruct (Nat.eq_dec b a) as [->|Hne].
  - unfold Store.writeField. destruct (h !! a) eqn:E; [|now rewrite E].
    rewrite list_lookup_insert_eq by (eapply lookup_lt_Some; eassumption).
    reflexivity.
  - now rewrite writeField_other.
Qed.

Lemma writeField_ownProps_other a b k v h :
  b <> a -> Store.ownProps (Store.writeField a k v h) b = Store.ownProps h b.
Proof. intros Hne. unfold Store.ownProps. now rewrite writeField_other. Qed.

Lemma writeField_ownProps a k v h :
  a < length h ->
  Store.ownProps (Store.writeField a k v h) a = Obj.set k v (Store.ownProps h a).
Proof.
  intros Hlt. unfold Store.ownProps, Store.writeField.
  destruct (lookup_lt_is_Some_2 h a Hlt) as [i Hi]. rewrite Hi.
  now rewrite list_lookup_insert_eq.
Qed.

Lemma classOf_valid h a c : Store.classOf h a = Some c -> a < length h.
Proof.
  unfold Store.classOf. destruct (h !! a) eqn:E; [|discriminate].
  intros _. eapply lookup_lt_Some; eassumption.
Qed.

Lemma classOf_app h new a :
  a < length h -> Store.classOf (h ++ new) a = Store.classOf h a.
Proof. intros Hlt. unfold Store.classOf. now rewrite lookup_app_l. Qed.

Lemma ownProps_app h new a :
  a < length h -> Store.ownProps (h ++ new) a = Store.ownProps h a.
Proof. intros Hlt. unfold Store.ownProps. now rewrite lookup_app_l. Qed.

End StoreFacts.

(** ** Frame rules *)

Section Frame.

Variable classes : ClassId -> ClassDef.

Local Abbreviation post := (post classes).
Local Abbreviation evolves := (evolves classes).

Lemma kept_refl N keep h : kept N keep h h.
Proof. split; [lia | split; [auto | intros b _; split; auto]]. Qed.

Lemma kept_trans N keep h1 h2 h3 :
  kept N keep h1 h2 -> kept N keep h2 h3 -> kept N keep h1 h3.
Proof.
  intros (L1 & C1 & H1) (L2 & C2 & H2). split; [lia|]. split; [auto|].
  intros b Hb. destruct (H1 b Hb) as (M1 & K1).
  destruct (H2 b Hb) as (M2 & K2).
  split; [auto|].
  intros k Hk. rewrite K2, K1; auto.
Qed.

Lemma kept_weaken N N' (keep keep' : addr -> string -> Prop) h h' :
  N' <= N -> (forall b k, b < N' -> keep' b k -> keep b k) ->
  kept N keep h h' -> kept N' keep' h h'.
Proof.
  intros HN Hk (L & C & H). split; [assumption|]. split; [assumption|].
  intros b Hb. destruct (H b ltac:(lia)) as (Mo & K).
  split; auto.
Qed.

Lemma evolves_refl N keep s : evolves N keep s s.
Proof.
  split; [apply kept_refl|]. exists []. rewrite app_nil_r. now split.
Qed.

Lemma evolves_trans N keep s1 s2 s3 :
  evolves N keep s1 s2 -> evolves N keep s2 s3 -> evolves N keep s1 s3.
Proof.
  intros [K1 (n1 & E1 & F1)] [K2 (n2 & E2 & F2)].
  split; [eapply kept_trans; eassumption|].
  exists (n1 ++ n2). split.
  - rewrite E2, E1. now rewrite app_assoc.
  - apply Forall_app. now split.
Qed.

Lemma evolves_weaken N N' (keep keep' : addr -> string -> Prop) s s' :
  N' <= N -> (forall b k, b < N' -> keep' b k -> keep b k) ->
  evolves N keep s s' -> evolves N' keep' s s'.
Proof.
  intros HN Hk [K C]. split; [eapply kept_weaken; eassumption | assumption].
Qed.

Lemma evolves_length N keep s s' :
  evolves N keep s s' -> length (heap s) <= length (heap s').
Proof. intros [[L _] _]. exact L. Qed.

Lemma evolves_classOf N keep s s' b c :
  evolves N keep s s' ->
  Store.classOf (heap s) b = Some c -> Store.classOf (heap s') b = Some c.
Proof. intros [(_ & C & _) _]. apply C. Qed.

Lemma evolves_get N (keep : addr -> string -> Prop) s s' b k :
  evolves N keep s s' -> b < N -> keep b k ->
  Obj.get k (Store.ownProps (heap s') b) = Obj.get k (Store.ownProps (heap s) b).
Proof. intros [(_ & _ & H) _] Hb Hk. now apply (H b Hb). Qed.

Lemma post_ret {A} N keep (x : A) (Q : A -> Prop) : Q x -> post N keep (ret x) Q.
Proof.
  intros HQ s y s' _ [= <- <-]. split; [apply evolves_refl | assumption].
Qed.

Lemma post_bind {A B} N keep (m : M A) (f : A -> M B) (Q : A -> Prop)
  (R : B -> Prop) :
  post N keep m Q -> (forall x, Q x -> post N keep (f x) R) ->
  post N keep (bind m f) R.
Proof.
  intros Hm Hf s y s' HN Hrun. unfold bind in Hrun.
  destruct (m s) as [[x s1]| | |] eqn:E; try discriminate.
  destruct (Hm _ _ _ HN E) as [E1 HQ].
  pose proof (evolves_length _ _ _ _ E1) as L1.
  destruct (Hf x HQ s1 y s' ltac:(lia) Hrun) as [E2 HR].
  split; [eapply evolves_trans; eassumption | assumption].
Qed.

Lemma post_consequence {A} N keep (m : M A) (Q R : A -> Prop) :
  post N keep m Q -> (forall x, Q x -> R x) -> post N keep m R.
Proof.
  intros Hm HQR s x s' HN Hrun. destruct (Hm _ _ _ HN Hrun). auto.
Qed.

Lemma post_forEach {A} N keep (xs : list A) (body : A -> M unit) :
  (forall x, In x xs -> post N keep (body x) (fun _ => True)) ->
  post N keep (forEach xs body) (fun _ => True).
Proof.
  induction xs as [|x xs IH]; intros Hbody; cbn [forEach].
  - now apply post_ret.
  - eapply post_bind.
    + apply Hbody. now left.
    + intros _ _. apply IH. intros y Hy. apply Hbody. now right.
Qed.

Lemma post_mapM {A B} N keep (f : A -> M B) (xs : list A) :
  (forall x, In x xs -> post N keep (f x) (fun _ => True)) ->
  post N keep (mapM f xs) (fun _ => True).
Proof.
  induction xs as [|x xs IH]; intros Hf; cbn [mapM].
  - now apply post_ret.
  - eapply post_bind; [apply Hf; now left|].
    intros y _. eapply post_bind.
    + apply IH. intros z Hz. apply Hf. now right.
    + intros ys _. now apply post_ret.
Qed.

Lemma post_reading {A} N keep (f : Heap -> Res A) :
  post N keep (reading f) (fun _ => True).
Proof.
  intros s x s' _ Hrun. unfold reading, rbind in Hrun.
  destruct (f (heap s)); try discriminate.
  injection Hrun as <- <-. split; [apply evolves_refl | exact I].
Qed.

End Frame.

Section EngineFacts.

Variable classes : ClassId -> ClassDef.

Local Abbreviation post := (post classes).
Local Abbreviation evolves := (evolves classes).

Import ObjFacts StoreFacts.

Lemma post_everything {A} N keep (m : M A) (Q : A -> Prop) :
  post N everything m Q -> post N keep m Q.
Proof.
  intros Hm s x s' HN Hrun. destruct (Hm _ _ _ HN Hrun) as [E HQ].
  split; [|assumption].
  eapply evolves_weaken; [| |exact E]; [lia | intros; exact I].
Qed.

Lemma alloc_post N c : post N everything (Store.alloc c) (fun a => N <= a).
Proof.
  intros s a s' HN [= <- <-]. split; [|assumption].
  split; cbn [heap calls].
  - split; [rewrite length_app; lia|]. split.
    + intros b d Hb. rewrite classOf_app; [assumption|].
      eapply classOf_valid; eassumption.
    + intros b Hb. rewrite ownProps_app by lia. auto.
  - exists []. rewrite app_nil_r. now split.
Qed.

Lemma setField_post N (keep : addr -> string -> Prop) a k v :
  (N <= a \/ forall k', keep a k' -> k' <> k) ->
  post N keep (Store.setField a k v) (fun _ => True).
Proof.
  intros Hcond s x s' HN [= <- <-]. split; [|exact I].
  split; cbn [heap calls].
  - split; [rewrite writeField_length; lia|].
    split; [intros b d; now rewrite writeField_classOf|].
    intros b Hb.
    destruct (Nat.eq_dec b a) as [->|Hne].
    + rewrite writeField_ownProps by lia. split.
      * intros k'. apply has_set_mono.
      * intros k' Hk. destruct Hcond as [Hge|Hcond]; [lia|].
        apply get_set_ne. now apply Hcond.
    + rewrite writeField_ownProps_other by assumption. auto.
  - exists []. rewrite app_nil_r. now split.
Qed.

Lemma logCall_post N keep c :
  allowed classes c -> post N keep (Store.logCall c) (fun _ => True).
Proof.
  intros Hc s x s' HN [= <- <-]. split; [|exact I].
  split; cbn [heap calls]; [apply kept_refl|].
  exists [c]. split; [reflexivity | now constructor].
Qed.

Lemma runHook_post N keep hook a :
  N <= a -> post N keep (runHook hook a) (fun _ => True).
Proof.
  intros Hge. destruct hook as [f|]; cbn [runHook]; [|now apply post_ret].
  intros s x s' HN [= <- <-]. split; [|exact I].
  split; cbn [heap calls]; [|exists []; rewrite app_nil_r; now split].
  destruct (heap s !! a) as [i|] eqn:Ei; [|apply kept_refl].
  split; [rewrite length_insert; lia|]. split.
  - intros b d. unfold Store.classOf.
    destruct (Nat.eq_dec b a) as [->|Hne].
    + rewrite list_lookup_insert_eq by (eapply lookup_lt_Some; eassumption).
      now rewrite Ei.
    + now rewrite list_lookup_insert_ne by congruence.
  - intros b Hb. unfold Store.ownProps.
    rewrite list_lookup_insert_ne by lia. auto.
Qed.

Lemma classOfThis_post N keep a :
  post N keep (classOfThis a) (fun _ => True).
Proof.
  intros s c s' HN Hrun. unfold classOfThis in Hrun.
  destruct (Store.classOf (heap s) a); [|discriminate].
  injection Hrun as <- <-. split; [apply evolves_refl | exact I].
Qed.

Lemma constructorOf_post N keep a :
  post N keep (constructorOf a) (fun _ => True).
Proof.
  intros s c s' HN Hrun. unfold constructorOf in Hrun.
  destruct (Obj.has "constructor" (Store.ownProps (heap s) a)); [discriminate|].
  exact (classOfThis_post N keep a s c s' HN Hrun).
Qed.

Lemma evalInit_post N keep (mk : ClassId -> M addr) i :
  (forall c, post N keep (mk c) (fun _ => True)) ->
  post N keep (evalInit mk i) (fun _ => True).
Proof.
  intros Hmk. destruct i as [v|c]; cbn [evalInit].
  - now apply post_ret.
  - eapply post_bind; [apply Hmk|]. intros a _. now apply post_ret.
Qed.

Lemma initFields_post N keep (mk : ClassId -> M addr) this inits :
  N <= this ->
  (forall c, post N keep (mk c) (fun _ => True)) ->
  post N keep
    (forEach inits
       (fun ki => bind (evalInit mk (snd ki))
                       (fun v => Store.setField this (fst ki) v)))
    (fun _ => True).
Proof.
  intros Hge Hmk. apply post_forEach. intros [k i] _.
  eapply post_bind; [now apply evalInit_post|].
  intros v _. apply setField_post. now left.
Qed.

Lemma construct_post fuel :
  forall c N, post N everything (construct classes fuel c) (fun a => N <= a).
Proof.
  induction fuel as [|fuel IH]; intros c N.
  - intros s a s' _ [=].
  - cbn [construct]. eapply post_bind; [apply alloc_post|].
    intros this Hthis. eapply post_bind.
    + apply initFields_post; [assumption|].
      intros d. eapply post_consequence; [apply IH | auto].
    + intros _ _. now apply post_ret.
Qed.

Lemma applyDefaults_post fuel N this :
  N <= this -> post N everything (applyDefaults classes fuel this) (fun _ => True).
Proof.
  intros Hge. unfold applyDefaults.
  eapply post_bind; [apply classOfThis_post|].
  intros c _. apply initFields_post; [assumption|].
  intros d. eapply post_consequence; [apply construct_post | auto].
Qed.

Lemma coerce_post rec N keep ClassType v :
  allocates classes rec ->
  post N keep (coerce classes rec ClassType v) (fun _ => True).
Proof.
  intros Hrec s x s' HN Hrun. unfold coerce in Hrun.
  destruct (instanceOf classes (heap s) v ClassType).
  - injection Hrun as <- <-. split; [apply evolves_refl | exact I].
  - revert s x s' HN Hrun. apply post_everything.
    eapply post_bind; [apply Hrec|]. intros a _. now apply post_ret.
Qed.

Lemma applyEntry_post rec N (keep : addr -> string -> Prop) c this entry :
  allocates classes rec ->
  (N <= this \/ has_key (fst entry) (readOnly (classes c)) = true
   \/ forall k', keep this k' -> k' <> fst entry) ->
  post N keep (applyEntry classes rec c this entry) (fun _ => True).
Proof.
  intros Hrec Hcond. unfold applyEntry.
  destruct (has_key (fst entry) (readOnly (classes c))) eqn:Hro;
    [now apply post_ret|].
  assert (N <= this \/ forall k', keep this k' -> k' <> fst entry) as Hset
    by (destruct Hcond as [?|[?|?]]; [now left | discriminate | now right]).
  destruct (Proto.inherited (fst entry)).
  { destruct (assoc (fst entry) (transforms (classes c)));
      [intros ? ? ? _ H; discriminate H|].
    destruct (assoc (fst entry) (types (classes c)));
      [intros ? ? ? _ H; discriminate H|].
    unfold inheritedEntry.
    destruct (String.eqb (fst entry) "constructor");
      [|intros ? ? ? _ H; discriminate H].
    destruct (snd entry); try now apply setField_post.
    destruct (forallb Proto.isObject items);
      [now apply setField_post | intros ? ? ? _ H; discriminate H]. }
  eapply post_bind with (Q := fun _ => True).
  - destruct (assoc (fst entry) (transforms (classes c))) as [f|].
    + eapply post_bind; [apply logCall_post; exact Hro|].
      intros _ _. now apply post_ret.
    + now apply post_ret.
  - intros value _.
    destruct (assoc (fst entry) (types (classes c))) as [ClassType|];
      [|now apply setField_post].
    destruct value;
      try (eapply post_bind; [now apply coerce_post|];
           intros model _; now apply setField_post).
    eapply post_bind.
    + apply post_mapM. intros v _. now apply coerce_post.
    + intros models _. now apply setField_post.
Qed.

Lemma applyJsonWith_fresh rec N keep this json :
  allocates classes rec -> N <= this ->
  post N keep (applyJsonWith classes rec this json) (fun _ => True).
Proof.
  intros Hrec Hge. unfold applyJsonWith.
  destruct (negb (truthy json)); [now apply post_ret|].
  eapply post_bind; [apply constructorOf_post|]. intros c _.
  eapply post_bind; [apply post_reading|]. intros es _.
  apply post_forEach. intros e _. apply applyEntry_post; auto.
Qed.

Lemma applyEntries_frame rec this es s s' c :
  allocates classes rec ->
  forEach es (applyEntry classes rec c this) s = Ok (tt, s') ->
  evolves (length (heap s)) (untouched classes c this es) s s'.
Proof.
  intros Hrec Hrun.
  assert (post (length (heap s)) (untouched classes c this es)
            (forEach es (applyEntry classes rec c this)) (fun _ => True)) as Hloop.
  { apply post_forEach. intros e He. apply applyEntry_post; [assumption|].
    right. destruct (has_key (fst e) (readOnly (classes c))) eqn:Hro;
      [now left | right].
    intros k' [Hk|[Hk|Hk]] ->; [congruence | congruence |].
    apply Hk. unfold Obj.keys. now apply in_map. }
  exact (proj1 (Hloop s tt s' (Nat.le_refl _) Hrun)).
Qed.

(** [applyJson] on a truthy input is the loop over the entries of the
    converted input. *)
Lemma applyJsonWith_run rec this json s r :
  applyJsonWith classes rec this json s = Ok r ->
  truthy json = true ->
  exists c, Store.classOf (heap s) this = Some c /\
    forEach (entries (heap s) (toCamelCase json)) (applyEntry classes rec c this) s
    = Ok r.
Proof.
  intros Hrun Ht. unfold applyJsonWith in Hrun. rewrite Ht in Hrun.
  cbn [negb] in Hrun. unfold bind at 1 in Hrun.
  unfold constructorOf, classOfThis in Hrun.
  destruct (Obj.has "constructor" (Store.ownProps (heap s) this));
    [discriminate|].
  destruct (Store.classOf (heap s) this) as [c|]; [|discriminate].
  exists c. split; [reflexivity|]. exact Hrun.
Qed.

(** An import of a truthy input only returns on an instance without own
    property [constructor]. *)
Lemma applyJsonWith_static rec this json s r :
  applyJsonWith classes rec this json s = Ok r ->
  truthy json = true ->
  Obj.has "constructor" (Store.ownProps (heap s) this) = false.
Proof.
  intros Hrun Ht. unfold applyJsonWith in Hrun. rewrite Ht in Hrun.
  cbn [negb] in Hrun. unfold bind at 1 in Hrun. unfold constructorOf in Hrun.
  now destruct (Obj.has "constructor" (Store.ownProps (heap s) this)).
Qed.

Lemma applyJsonWith_frame rec this json s s' c :
  allocates classes rec ->
  Store.classOf (heap s) this = Some c ->
  applyJsonWith classes rec this json s = Ok (tt, s') ->
  evolves (length (heap s))
    (untouched classes c this (entries (heap s) (toCamelCase json))) s s'.
Proof.
  intros Hrec Hc Hrun. destruct (truthy json) eqn:Ht.
  - destruct (applyJsonWith_run _ _ _ _ _ Hrun Ht) as (c' & Hc' & Hloop).
    assert (c' = c) as -> by congruence.
    now apply (applyEntries_frame rec).
  - unfold applyJsonWith in Hrun. rewrite Ht in Hrun.
    injection Hrun as <-. apply evolves_refl.
Qed.

Lemma cloneWith_post fuel rec N this :
  allocates classes rec ->
  post N everything (cloneWith classes fuel rec this) (fun a => N <= a).
Proof.
  intros Hrec. unfold cloneWith.
  eapply post_bind; [apply post_reading|]. intros plain _.
  eapply post_bind; [apply constructorOf_post|]. intros c _.
  apply Hrec.
Qed.

Lemma fromJson_allocates fuel : allocates classes (fromJson classes fuel).
Proof.
  induction fuel as [|fuel IH]; intros c json skip N.
  - intros s a s' _ [=].
  - cbn [fromJson]. eapply post_bind; [apply construct_post|].
    intros instance Hge.
    eapply post_bind; [now apply applyDefaults_post|]. intros _ _.
    eapply post_bind; [now apply runHook_post|]. intros _ _.
    eapply post_bind; [now apply applyJsonWith_fresh|]. intros _ _.
    eapply post_bind; [now apply runHook_post|]. intros _ _.
    destruct skip; [now apply post_ret|].
    eapply post_bind; [now apply cloneWith_post|]. intros snapshot _.
    eapply post_bind; [apply setField_post; now left|]. intros _ _.
    now apply post_ret.
Qed.

End EngineFacts.

(** ** Imports *)

Section ImportFacts.

Variable classes : ClassId -> ClassDef.

Local Abbreviation post := (post classes).
Local Abbreviation evolves := (evolves classes).

Import ObjFacts StoreFacts.

Lemma bind_Ok {A B} (m : M A) (f : A -> M B) s y s' :
  bind m f s = Ok (y, s') ->
  exists x s1, m s = Ok (x, s1) /\ f x s1 = Ok (y, s').
Proof.
  unfold bind. destruct (m s) as [[x s1]| | |]; try discriminate.
  intros H. now exists x, s1.
Qed.

Lemma constructorOf_Ok this s c s' :
  constructorOf this s = Ok (c, s') ->
  Store.classOf (heap s) this = Some c
  /\ s' = s
  /\ Obj.has "constructor" (Store.ownProps (heap s) this) = false.
Proof.
  unfold constructorOf, classOfThis.
  destruct (Obj.has "constructor" (Store.ownProps (heap s) this)); [discriminate|].
  destruct (Store.classOf (heap s) this); [|discriminate].
  intros [= <- <-]. now repeat split.
Qed.

Lemma construct_result fuel c s a s' :
  construct classes fuel c s = Ok (a, s') ->
  a = length (heap s) /\ Store.classOf (heap s') a = Some c.
Proof.
  destruct fuel as [|fuel]; [discriminate|]. cbn [construct]. intros H.
  apply bind_Ok in H as (this & s1 & Ha & H). injection Ha as <- <-.
  apply bind_Ok in H as ([] & s2 & Hloop & Hret). injection Hret as <- <-.
  split; [reflexivity|].
  assert (post 0 everything
            (forEach (fieldInits (classes c))
               (fun ki => bind (evalInit (construct classes fuel) (snd ki))
                            (fun v => Store.setField (length (heap s)) (fst ki) v)))
            (fun _ => True)) as Hpost.
  { apply initFields_post; [lia|].
    intros d. eapply post_consequence; [apply construct_post | auto]. }
  destruct (Hpost _ _ _ ltac:(lia) Hloop) as [E _].
  eapply evolves_classOf; [exact E|]. cbn [heap].
  unfold Store.classOf. now rewrite list_lookup_middle.
Qed.

Lemma instantiate_result fuel c s instance s0 :
  instantiate classes fuel c s = Ok (instance, s0) ->
  Store.classOf (heap s0) instance = Some c.
Proof.
  unfold instantiate. intros H.
  apply bind_Ok in H as (i & s1 & Hnew & H).
  destruct (construct_result _ _ _ _ _ Hnew) as [-> Hc].
  apply bind_Ok in H as ([] & s2 & Hdef & H).
  apply bind_Ok in H as ([] & s3 & Hhook & Hret). injection Hret as <- <-.
  destruct (applyDefaults_post classes fuel 0 _ ltac:(lia) _ _ _ ltac:(lia) Hdef)
    as [E1 _].
  destruct (runHook_post classes 0 everything _ _ ltac:(lia) _ _ _ ltac:(lia) Hhook)
    as [E2 _].
  eapply evolves_classOf; [exact E2|]. eapply evolves_classOf; eassumption.
Qed.

(** [fromJson] is [instantiate], then the import, the second hook and the
    snapshot. *)
Lemma fromJson_run fuel c json skip s instance s' :
  fromJson classes (S fuel) c json skip s = Ok (instance, s') ->
  exists s0 s1,
    instantiate classes fuel c s = Ok (instance, s0)
    /\ applyJson classes fuel instance json s0 = Ok (tt, s1)
    /\ bind (runHook (afterApplyJson (classes c)) instance)
         (fun _ =>
            if skip then ret instance
            else bind (clone classes fuel instance)
                   (fun snapshot =>
                      bind (Store.setField instance "_originalState" (VRef snapshot))
                        (fun _ => ret instance))) s1
       = Ok (instance, s').
Proof.
  cbn [fromJson]. intros H.
  apply bind_Ok in H as (i & s1 & Hnew & H).
  apply bind_Ok in H as ([] & s2 & Hdef & H).
  apply bind_Ok in H as ([] & s3 & Hhook & H).
  apply bind_Ok in H as ([] & s4 & Happly & H).
  assert (i = instance) as ->.
  { apply bind_Ok in H as ([] & s5 & _ & H). destruct skip.
    - now injection H.
    - apply bind_Ok in H as (sn & s6 & _ & H).
      apply bind_Ok in H as ([] & s7 & _ & H). now injection H. }
  exists s3, s4. split; [|split; assumption].
  unfold instantiate, bind. rewrite Hnew, Hdef, Hhook. reflexivity.
Qed.

Lemma applyJson_keeps_readonly fuel this json s s' c k :
  Store.classOf (heap s) this = Some c ->
  has_key k (readOnly (classes c)) = true ->
  applyJson classes fuel this json s = Ok (tt, s') ->
  Obj.get k (Store.ownProps (heap s') this)
  = Obj.get k (Store.ownProps (heap s) this).
Proof.
  intros Hc Hro Hrun.
  eapply evolves_get.
  - eapply applyJsonWith_frame; [apply fromJson_allocates | exact Hc | exact Hrun].
  - eapply classOf_valid; eassumption.
  - right. now left.
Qed.

Lemma snapshot_step_keeps fuel c instance (skip : bool) s1 s' k :
  afterApplyJson (classes c) = None ->
  k <> "_originalState" ->
  instance < length (heap s1) ->
  bind (runHook (afterApplyJson (classes c)) instance)
    (fun _ =>
       if skip then ret instance
       else bind (clone classes fuel instance)
              (fun snapshot =>
                 bind (Store.setField instance "_originalState" (VRef snapshot))
                   (fun _ => ret instance))) s1
  = Ok (instance, s') ->
  Obj.get k (Store.ownProps (heap s') instance)
  = Obj.get k (Store.ownProps (heap s1) instance).
Proof.
  intros Hhook Hk Hvalid Hrun. rewrite Hhook in Hrun. cbn [runHook] in Hrun.
  apply bind_Ok in Hrun as ([] & s2 & Hret & Hrun). injection Hret as <-.
  destruct skip; [now injection Hrun as <-|].
  apply bind_Ok in Hrun as (snapshot & s3 & Hclone & Hrun).
  apply bind_Ok in Hrun as ([] & s4 & Hset & Hret). injection Hret as <-.
  destruct (cloneWith_post classes fuel _ (length (heap s1)) instance
              (fromJson_allocates classes fuel) _ _ _ (Nat.le_refl _) Hclone)
    as [E1 _].
  pose proof (evolves_length _ _ _ _ _ E1) as L1.
  injection Hset as <-. cbn [heap].
  rewrite writeField_ownProps by lia.
  rewrite get_set_ne by assumption.
  eapply evolves_get; [exact E1 | assumption | exact I].
Qed.

End ImportFacts.

(** C3 (amended): a read-only field is left alone by every [applyJson],
    the one [fromJson] runs included: after [fromJson] the field holds what
    the constructor, the default providers and the first hook gave it,
    whatever the input says. *)
Theorem readonly_field_never_imported :
  forall (classes : ClassId -> ClassDef) (c : ClassId) (k : string),
    has_key k (readOnly (classes c)) = true ->
    (forall fuel this json s s',
        Store.classOf (heap s) this = Some c ->
        applyJson classes fuel this json s = Ok (tt, s') ->
        Obj.get k (Store.ownProps (heap s') this)
        = Obj.get k (Store.ownProps (heap s) this))
    /\ (forall fuel json skip s instance s',
           afterApplyJson (classes c) = None ->
           k <> "_originalState" ->
           fromJson classes (S fuel) c json skip s = Ok (instance, s') ->
           exists s0,
             instantiate classes fuel c s = Ok (instance, s0)
             /\ Obj.get k (Store.ownProps (heap s') instance)
                = Obj.get k (Store.ownProps (heap s0) instance)).
Proof.
  intros classes c k Hro. split.
  - intros fuel this json s s' Hc Hrun.
    eapply applyJson_keeps_readonly; eassumption.
  - intros fuel json skip s instance s' Hhook Hk Hrun.
    destruct (fromJson_run _ _ _ _ _ _ _ _ Hrun) as (s0 & s1 & Hi & Ha & Ht).
    exists s0. split; [assumption|].
    pose proof (instantiate_result _ _ _ _ _ _ Hi) as Hc.
    pose proof (StoreFacts.classOf_valid _ _ _ Hc) as Hvalid.
    assert (length (heap s0) <= length (heap s1)) as L.
    { eapply evolves_length, applyJsonWith_frame;
        [apply fromJson_allocates | exact Hc | exact Ha]. }
    rewrite (snapshot_step_keeps classes fuel c instance skip s1 s' k);
      [|assumption|assumption|lia|assumption].
    eapply applyJson_keeps_readonly; eassumption.
Qed.

Module EntriesFacts.
Import ObjFacts.

Lemma keys_set k v ps :
  Obj.keys (Obj.set k v ps)
  = if Obj.has k ps then Obj.keys ps else Obj.keys ps ++ [k].
Proof.
  unfold Obj.has, Obj.keys.
  induction ps as [|[k' v'] ps IH]; cbn; [reflexivity|].
  destruct (String.eqb k k') eqn:E; cbn.
  - apply String.eqb_eq in E. now subst.
  - rewrite IH. now destruct (Obj.get k ps).
Qed.

Lemma set_NoDup k v ps :
  NoDup (Obj.keys ps) -> NoDup (Obj.keys (Obj.set k v ps)).
Proof.
  intros Hnd. rewrite keys_set. unfold Obj.has.
  destruct (Obj.get k ps) eqn:E; [assumption|].
  apply NoDup_app. split; [assumption|]. split.
  - intros x Hx. rewrite list_elem_of_In in Hx.
    intros Hx'. apply list_elem_of_singleton in Hx'. subst x.
    now apply get_none_keys in E.
  - apply NoDup_singleton.
Qed.

Lemma fold_set_NoDup (es : list (string * Value)) :
  forall acc, NoDup (Obj.keys acc) ->
    NoDup (Obj.keys (fold_left (fun acc e => Obj.set (fst e) (snd e) acc) es acc)).
Proof.
  induction es as [|e es IH]; intros acc Hacc; cbn; [assumption|].
  apply IH. now apply set_NoDup.
Qed.

(** An object built by [Object.fromEntries] has no key twice. *)
Lemma fromEntries_NoDup es : NoDup (Obj.keys (Obj.fromEntries es)).
Proof. apply fold_set_NoDup. constructor. Qed.

End EntriesFacts.

Section AssignFacts.

Variable classes : ClassId -> ClassDef.

Local Abbreviation post := (post classes).
Local Abbreviation evolves := (evolves classes).

Import ObjFacts StoreFacts EntriesFacts.





(** The entries of a converted plain object: those of the input when it has
    an own property [constructor], the converted and merged ones
    otherwise; no key twice in either case. *)
Lemma camel_entries h input :
  entries h (toCamelCase (VObj input))
  = if Proto.constructorIsObject input
    then Obj.fromEntries
           (map (fun kv => (Keys.toCamelCaseKey (fst kv), toCamelCase (snd kv)))
                input)
    else input.
Proof.
  cbn [toCamelCase]. now destruct (Proto.constructorIsObject input).
Qed.

Lemma camel_entries_NoDup h input :
  NoDup (Obj.keys input) ->
  NoDup (Obj.keys (entries h (toCamelCase (VObj input)))).
Proof.
  intros Hnd. rewrite camel_entries.
  destruct (Proto.constructorIsObject input);
    [apply fromEntries_NoDup | exact Hnd].
Qed.

End AssignFacts.


(** ** Transform invocations *)

Section CallFacts.

Variable classes : ClassId -> ClassDef.

Local Abbreviation post := (post classes).
Local Abbreviation evolves := (evolves classes).

Lemma reset_post fuel this :
  post 0 everything (reset classes fuel this) (fun _ => True).
Proof.
  unfold reset. eapply post_bind; [apply post_reading|]. intros original _.
  destruct (truthy original); [|now apply post_ret].
  destruct original;
    try (intros ? ? ? _ H; unfold throw in H; discriminate H).
  eapply post_bind; [apply post_reading|]. intros plain _.
  apply applyJsonWith_fresh; [apply fromJson_allocates | lia].
Qed.

Lemma allowed_no_invocation c k new :
  has_key k (readOnly (classes c)) = true ->
  Forall (allowed classes) new -> invocations c k new = [].
Proof.
  intros Hro Hall. induction Hall as [|call new Hcall _ IH]; [reflexivity|].
  unfold invocations in *. cbn [List.filter].
  destruct (String.eqb (call_class call) c && String.eqb (call_key call) k)
    eqn:E; [|exact IH].
  apply andb_true_iff in E as [Ec Ek].
  apply String.eqb_eq in Ec, Ek. unfold allowed in Hcall.
  rewrite Ec, Ek in Hcall. congruence.
Qed.

Lemma evolves_invocations N keep c k s s' :
  has_key k (readOnly (classes c)) = true ->
  evolves N keep s s' ->
  invocations c k (calls s') = invocations c k (calls s).
Proof.
  intros Hro [_ (new & -> & Hall)]. unfold invocations.
  rewrite List.filter_app.
  fold (invocations c k new). rewrite (allowed_no_invocation c k new Hro Hall).
  apply app_nil_r.
Qed.

End CallFacts.

(** C10: [applyJson] tests the read-only set before it looks up the
    transform, so no import calls the transform of a field that is both
    read-only and transformed: [fromJson], [applyJson] (and so [merge]),
    [clone] and [reset] leave the invocations of that transform as they
    were. *)
Theorem readonly_transform_never_invoked :
  forall (classes : ClassId -> ClassDef) (c : ClassId) (k : string),
    has_key k (readOnly (classes c)) = true ->
    (forall fuel d json skip s instance s',
        fromJson classes fuel d json skip s = Ok (instance, s') ->
        invocations c k (calls s') = invocations c k (calls s))
    /\ (forall fuel this json s s',
           applyJson classes fuel this json s = Ok (tt, s') ->
           invocations c k (calls s') = invocations c k (calls s))
    /\ (forall fuel this s copy s',
           clone classes fuel this s = Ok (copy, s') ->
           invocations c k (calls s') = invocations c k (calls s))
    /\ (forall fuel this s s',
           reset classes fuel this s = Ok (tt, s') ->
           invocations c k (calls s') = invocations c k (calls s)).
Proof.
  intros classes c k Hro. repeat split.
  - intros fuel d json skip s instance s' Hrun.
    eapply evolves_invocations; [exact Hro|].
    exact (proj1 (fromJson_allocates classes fuel d json skip 0 s instance s'
                    (Nat.le_0_l _) Hrun)).
  - intros fuel this json s s' Hrun.
    eapply evolves_invocations; [exact Hro|].
    exact (proj1 (applyJsonWith_fresh classes _ 0 everything this json
                    (fromJson_allocates classes fuel) (Nat.le_0_l _)
                    s tt s' (Nat.le_0_l _) Hrun)).
  - intros fuel this s copy s' Hrun.
    eapply evolves_invocations; [exact Hro|].
    exact (proj1 (cloneWith_post classes fuel _ 0 this
                    (fromJson_allocates classes fuel) s copy s'
                    (Nat.le_0_l _) Hrun)).
  - intros fuel this s s' Hrun.
    eapply evolves_invocations; [exact Hro|].
    exact (proj1 (reset_post classes fuel this s tt s' (Nat.le_0_l _) Hrun)).
Qed.

(** ** The loops of [toJson] and [diff] *)

Section ExportFacts.

Variable classes : ClassId -> ClassDef.

Import ObjFacts.

Lemma rbind_Ok {A B} (r : Res A) (f : A -> Res B) y :
  rbind r f = Ok y -> exists x, r = Ok x /\ f x = Ok y.
Proof. destruct r as [x| | |]; try discriminate. intros H. now exists x. Qed.

Lemma exportKey_cases nested C fuel h this options key plain plain' :
  exportKey nested C fuel h this options key plain = Ok plain' ->
  plain' = plain
  \/ (offered C options key
      /\ exists out, plain' = Obj.set (Keys.toSnakeCaseKey key) out plain).
Proof.
  unfold exportKey, offered.
  destruct (Keys.startsWithUnderscore key); [intros [= <-]; now left|].
  destruct (has_key key (excluded C)); [intros [= <-]; now left|].
  destruct (groupThrows C options key); [discriminate|].
  destruct (groupHides C options key); [intros [= <-]; now left|].
  intros H. apply rbind_Ok in H as (same & _ & H).
  destruct same; [injection H as <-; now left|].
  destruct (Obj.has "constructor" (Store.ownProps h this)); [discriminate|].
  apply rbind_Ok in H as (out & _ & H). injection H as <-.
  right. split; [auto | now exists out].
Qed.

(** A step that returns a longer export ran on an instance without own
    property [constructor]. *)
Lemma exportKey_static nested C fuel h this options key plain plain' :
  exportKey nested C fuel h this options key plain = Ok plain' ->
  plain' = plain \/ Obj.has "constructor" (Store.ownProps h this) = false.
Proof.
  unfold exportKey.
  destruct (Keys.startsWithUnderscore key); [intros [= <-]; now left|].
  destruct (has_key key (excluded C)); [intros [= <-]; now left|].
  destruct (groupThrows C options key); [discriminate|].
  destruct (groupHides C options key); [intros [= <-]; now left|].
  intros H. apply rbind_Ok in H as (same & _ & H).
  destruct same; [injection H as <-; now left|].
  destruct (Obj.has "constructor" (Store.ownProps h this));
    [discriminate | now right].
Qed.

Lemma exportKey_emits nested C fuel h this options key plain plain' :
  offered C options key ->
  unchanged fuel h this options key = Ok false ->
  exportKey nested C fuel h this options key plain = Ok plain' ->
  exists out, plain' = Obj.set (Keys.toSnakeCaseKey key) out plain.
Proof.
  intros (Hu & He & Hg) Hsame. unfold exportKey.
  rewrite Hu, He. destruct (groupThrows C options key); [discriminate|].
  rewrite Hg, Hsame. cbn [rbind].
  destruct (Obj.has "constructor" (Store.ownProps h this)); [discriminate|].
  intros H. apply rbind_Ok in H as (out & _ & H). injection H as <-.
  now exists out.
Qed.

Lemma export_mono nested C fuel h this options k xs :
  forall acc out,
    foldRes (exportKey nested C fuel h this options) xs acc = Ok out ->
    Obj.has k acc = true -> Obj.has k out = true.
Proof.
  induction xs as [|x xs IH]; intros acc out Hrun Hacc; cbn [foldRes] in Hrun.
  - now injection Hrun as <-.
  - apply rbind_Ok in Hrun as (acc1 & Hstep & Hrest).
    apply (IH _ _ Hrest).
    destruct (exportKey_cases _ _ _ _ _ _ _ _ _ Hstep) as [->|(_ & o & ->)];
      [assumption | now apply has_set_mono].
Qed.

Lemma export_present nested C fuel h this options key xs :
  offered C options key ->
  unchanged fuel h this options key = Ok false ->
  In key xs ->
  forall acc out,
    foldRes (exportKey nested C fuel h this options) xs acc = Ok out ->
    Obj.has (Keys.toSnakeCaseKey key) out = true.
Proof.
  intros Hoff Hsame. induction xs as [|x xs IH]; [intros []|].
  intros Hin acc out Hrun. cbn [foldRes] in Hrun.
  apply rbind_Ok in Hrun as (acc1 & Hstep & Hrest).
  destruct Hin as [->|Hin]; [|now apply (IH Hin acc1)].
  destruct (exportKey_emits _ _ _ _ _ _ _ _ _ Hoff Hsame Hstep) as (o & ->).
  eapply export_mono; [exact Hrest | apply has_set_eq].
Qed.

Lemma export_origin nested C fuel h this options k xs :
  forall acc out,
    foldRes (exportKey nested C fuel h this options) xs acc = Ok out ->
    Obj.has k out = true ->
    Obj.has k acc = true
    \/ exists key, In key xs /\ offered C options key
                   /\ Keys.toSnakeCaseKey key = k.
Proof.
  induction xs as [|x xs IH]; intros acc out Hrun Hout; cbn [foldRes] in Hrun.
  - injection Hrun as <-. now left.
  - apply rbind_Ok in Hrun as (acc1 & Hstep & Hrest).
    destruct (IH _ _ Hrest Hout) as [Hacc1|(key & Hin & Hoff & Hk)].
    + destruct (exportKey_cases _ _ _ _ _ _ _ _ _ Hstep) as [->|(Hoff & o & ->)];
        [now left|].
      apply has_set_inv in Hacc1 as [->|Hacc]; [right | now left].
      exists x. split; [now left | now split].
    + right. exists key. split; [now right | now split].
Qed.

(** An export that is not empty comes from an instance without own
    property [constructor]. *)
Lemma export_static nested C fuel h this options xs :
  forall acc out,
    foldRes (exportKey nested C fuel h this options) xs acc = Ok out ->
    out = acc \/ Obj.has "constructor" (Store.ownProps h this) = false.
Proof.
  induction xs as [|x xs IH]; intros acc out Hrun; cbn [foldRes] in Hrun.
  - injection Hrun as <-. now left.
  - apply rbind_Ok in Hrun as (acc1 & Hstep & Hrest).
    destruct (IH _ _ Hrest) as [->|Hno]; [|now right].
    exact (exportKey_static _ _ _ _ _ _ _ _ _ Hstep).
Qed.

Lemma toJson_run fuel h this options c plain :
  Store.classOf h this = Some c ->
  toJson classes (S fuel) h this options = Ok (VObj plain) ->
  foldRes (exportKey (fun a => toJson classes fuel h a options) (classes c)
             fuel h this options)
    (Obj.keys (Store.ownProps h this)) [] = Ok plain.
Proof.
  intros Hc. cbn [toJson]. rewrite Hc. intros H.
  apply rbind_Ok in H as (p & Hloop & [= <-]). exact Hloop.
Qed.

End ExportFacts.

(** ** [JSON.stringify], [diff] and [toJson] come to an end *)

Module FuelFacts.
Import Fuel.

Lemma list_max_cons n ns : list_max (n :: ns) = Nat.max n (list_max ns).
Proof. reflexivity. Qed.

Lemma list_max_In (f : Value -> nat) x xs :
  In x xs -> f x <= list_max (map f xs).
Proof.
  intros Hin. induction xs as [|y ys IH]; [destruct Hin|].
  cbn [map]. rewrite list_max_cons. destruct Hin as [->|Hin]; [lia|].
  specialize (IH Hin). lia.
Qed.

Lemma propsDepth_In k v ps : In (k, v) ps -> depth v <= propsDepth ps.
Proof.
  intros Hin. unfold propsDepth.
  induction ps as [|[k' v'] ps IH]; [destruct Hin|].
  cbn [map snd]. rewrite list_max_cons.
  destruct Hin as [[= -> ->]|Hin]; [lia|].
  specialize (IH Hin). lia.
Qed.

Lemma heapDepth_lookup h a i : h !! a = Some i -> propsDepth (props i) <= heapDepth h.
Proof.
  unfold heapDepth. revert a. induction h as [|j h IH]; intros a Ha; [discriminate|].
  cbn [map]. rewrite list_max_cons. destruct a as [|a]; cbn in Ha.
  - injection Ha as ->. lia.
  - specialize (IH a Ha). lia.
Qed.

Lemma filter_shrinks (p q : nat -> bool) a xs :
  (forall x, q x = true -> p x = true) ->
  In a xs -> p a = true -> q a = false ->
  length (List.filter q xs) < length (List.filter p xs).
Proof.
  intros Hqp Hin Hp Hq.
  assert (forall ys, length (List.filter q ys) <= length (List.filter p ys)) as Hle.
  { induction ys as [|y ys IH]; cbn [List.filter]; [lia|].
    destruct (q y) eqn:Eq; [rewrite (Hqp y Eq); cbn [length]; lia|].
    destruct (p y); cbn [length]; lia. }
  induction xs as [|x xs IH]; [destruct Hin|].
  cbn [List.filter]. destruct Hin as [->|Hin].
  - rewrite Hp, Hq. cbn [length]. specialize (Hle xs). lia.
  - specialize (IH Hin). destruct (q x) eqn:Eq.
    + rewrite (Hqp x Eq). cbn [length]. lia.
    + destruct (p x); cbn [length]; lia.
Qed.

Lemma pending_push h stack a :
  a < length h -> existsb (Nat.eqb a) stack = false ->
  pending h (a :: stack) < pending h stack.
Proof.
  intros Hlt Hout. unfold pending. apply filter_shrinks with (a := a).
  - intros x Hx. cbn [existsb] in Hx.
    apply negb_true_iff, orb_false_iff in Hx as [_ Hx]. now rewrite Hx.
  - apply in_seq. lia.
  - now rewrite Hout.
  - cbn [existsb]. now rewrite Nat.eqb_refl.
Qed.

Lemma members_end (ser : Value -> Res (option string)) ps :
  (forall k v, In (k, v) ps -> ser v <> OutOfFuel) ->
  Json.members ser ps <> OutOfFuel.
Proof.
  induction ps as [|[k v] ps IH]; intros Hall; cbn [Json.members]; [discriminate|].
  assert (ser v <> OutOfFuel) as Hv by (apply (Hall k); now left).
  assert (Json.members ser ps <> OutOfFuel) as Hps
    by (apply IH; intros k' v' Hin; apply (Hall k'); now right).
  destruct (ser v) as [o| | |]; cbn [rbind]; [|congruence|discriminate|discriminate].
  destruct (Json.members ser ps) as [ms| | |]; cbn [rbind];
    [|congruence|discriminate|discriminate].
  destruct o; discriminate.
Qed.

Lemma elements_end (ser : Value -> Res (option string)) items :
  (forall v, In v items -> ser v <> OutOfFuel) ->
  Json.elements ser items <> OutOfFuel.
Proof.
  unfold Json.elements.
  induction items as [|v items IH]; intros Hall; cbn [mapRes]; [discriminate|].
  assert (ser v <> OutOfFuel) as Hv by (apply Hall; now left).
  assert (mapRes
            (fun v => rbind (ser v)
                        (fun o => Ok match o with Some text => text | None => "null" end))
            items <> OutOfFuel) as Hitems
    by (apply IH; intros v' Hin; apply Hall; now right).
  destruct (ser v) as [o| | |]; cbn [rbind]; [|congruence|discriminate|discriminate].
  match goal with
  | |- rbind ?m _ <> _ => destruct m as [ys| | |]; cbn [rbind];
                          [discriminate|congruence|discriminate|discriminate]
  end.
Qed.

Lemma wrap_end (r : Res (list string)) (f : list string -> option string) :
  r <> OutOfFuel -> rbind r (fun texts => Ok (f texts)) <> OutOfFuel.
Proof. destruct r; cbn [rbind]; try discriminate; congruence. Qed.

(** With enough fuel [stringifyAt] returns a text, [undefined], or the
    [TypeError] of a circular structure. *)
Lemma stringifyAt_end h fuel :
  forall stack v, enough h stack v <= fuel ->
    Json.stringifyAt fuel h stack v <> OutOfFuel.
Proof.
  unfold enough. induction fuel as [|fuel IH]; intros stack v Hfuel.
  - destruct v; cbn [depth] in Hfuel; lia.
  - destruct v as [| | b | n | s | items | ps | a | [b | n | s]];
      cbn [Json.stringifyAt]; try discriminate.
    + apply wrap_end, elements_end. intros v Hin. apply IH.
      pose proof (list_max_In depth v items Hin). cbn [depth] in Hfuel. lia.
    + apply wrap_end, members_end. intros k v Hin. apply IH.
      pose proof (propsDepth_In k v ps Hin) as Hd. unfold propsDepth in Hd.
      cbn [depth] in Hfuel. lia.
    + destruct (existsb (Nat.eqb a) stack) eqn:Hstack; [discriminate|].
      apply wrap_end, members_end. intros k v Hin. apply IH.
      unfold Store.ownProps in Hin. destruct (h !! a) as [i|] eqn:Hi;
        [|destruct Hin].
      pose proof (propsDepth_In k v _ Hin) as Hd.
      pose proof (heapDepth_lookup h a i Hi) as Hh.
      pose proof (pending_push h stack a (lookup_lt_Some _ _ _ Hi) Hstack) as Hp.
      cbn [depth] in Hfuel. nia.
Qed.

Lemma pending_empty h : pending h [] = length h.
Proof.
  unfold pending. cbn [existsb negb].
  rewrite List.forallb_filter_id; [apply length_seq|].
  apply forallb_forall. reflexivity.
Qed.

Lemma getField_depth h a k : depth (Store.getField h a k) <= S (heapDepth h).
Proof.
  unfold Store.getField, Obj.read, Store.ownProps.
  destruct (h !! a) as [i|] eqn:Hi; [|cbn; lia].
  pose proof (heapDepth_lookup h a i Hi) as Hh.
  destruct (Obj.get k (props i)) as [v|] eqn:Hg; [|cbn; lia].
  assert (In (k, v) (props i)) as Hin.
  { clear Hi Hh. induction (props i) as [|[k' v'] ps IH]; [discriminate|].
    cbn [Obj.get] in Hg. destruct (String.eqb_spec k k') as [->|Hne].
    - injection Hg as ->. now left.
    - right. now apply IH. }
  pose proof (propsDepth_In k v _ Hin). lia.
Qed.

Lemma member_depth h other k :
  depth (Store.member h other k) <= S (heapDepth h + depth other).
Proof.
  destruct other as [| | b | n | s | items | ps | a | p]; cbn [Store.member];
    try (cbn; lia).
  - unfold Obj.read. destruct (Obj.get k ps) as [v|] eqn:Hg; [|cbn; lia].
    assert (In (k, v) ps) as Hin.
    { induction ps as [|[k' v'] ps IH]; [discriminate|].
      cbn [Obj.get] in Hg. destruct (String.eqb_spec k k') as [->|Hne].
      - injection Hg as ->. now left.
      - right. now apply IH. }
    pose proof (propsDepth_In k v _ Hin) as Hd. unfold propsDepth in Hd.
    cbn [depth]. lia.
  - pose proof (getField_depth h a k). lia.
Qed.

Lemma differs_end fuel h this other key :
  forDiff h other <= fuel -> differs fuel h this other key <> OutOfFuel.
Proof.
  unfold forDiff. intros Hfuel. unfold differs, Json.stringify.
  pose proof (getField_depth h this key) as Hmine.
  pose proof (member_depth h other key) as Htheirs.
  pose proof (stringifyAt_end h fuel [] (Store.getField h this key)) as Hm.
  pose proof (stringifyAt_end h fuel [] (Store.member h other key)) as Ht.
  unfold enough in Hm, Ht. rewrite pending_empty in Hm, Ht.
  specialize (Hm ltac:(lia)). specialize (Ht ltac:(lia)).
  destruct (Json.stringifyAt fuel h [] (Store.getField h this key));
    cbn [rbind]; [|congruence|discriminate|discriminate].
  destruct (Json.stringifyAt fuel h [] (Store.member h other key));
    cbn [rbind]; [discriminate|congruence|discriminate|discriminate].
Qed.

Lemma diff_end fuel h this other :
  forDiff h other <= fuel -> diff fuel h this other <> OutOfFuel.
Proof.
  intros Hfuel. unfold diff.
  assert (forall xs acc,
             foldRes (diffKey fuel h this other) xs acc <> OutOfFuel) as Hloop.
  { induction xs as [|x xs IH]; intros acc; cbn [foldRes]; [discriminate|].
    unfold diffKey at 1.
    pose proof (differs_end fuel h this other x Hfuel) as Hd.
    destruct (differs fuel h this other x) as [[]| | |]; cbn [rbind];
      [apply IH | apply IH | congruence | discriminate | discriminate]. }
  specialize (Hloop (Obj.keys (Store.ownProps h this)) []).
  destruct (foldRes (diffKey fuel h this other) _ []); cbn [rbind];
    [discriminate|congruence|discriminate|discriminate].
Qed.

Lemma get_In k v ps : Obj.get k ps = Some v -> In (k, v) ps.
Proof.
  induction ps as [|[k' v'] ps IH]; [discriminate|].
  cbn [Obj.get]. destruct (String.eqb_spec k k') as [->|Hne].
  - intros [= ->]. now left.
  - intros Hg. right. now apply IH.
Qed.

Lemma stringify_end fuel h v :
  depth v + length h * S (heapDepth h) <= fuel ->
  Json.stringify fuel h v <> OutOfFuel.
Proof.
  intros Hfuel. apply stringifyAt_end. unfold enough.
  now rewrite pending_empty.
Qed.

Lemma unchanged_end fuel h this options key :
  forFilter h <= fuel -> unchanged fuel h this options key <> OutOfFuel.
Proof.
  unfold forFilter. intros Hfuel. unfold unchanged.
  destruct (onlyChanged options); [|discriminate].
  destruct (truthy (Store.getField h this "_originalState")); [|discriminate].
  pose proof (getField_depth h this key) as Hmine.
  pose proof (getField_depth h this "_originalState") as Horiginal.
  pose proof (member_depth h (Store.getField h this "_originalState") key)
    as Htheirs.
  assert (depth (Store.member h (Store.getField h this "_originalState") key)
          <= S (S (heapDepth h))) as Hbound.
  { destruct (Store.getField h this "_originalState")
      as [| | b | n | s | items | ps | a | p] eqn:E; cbn [Store.member];
      try (cbn; lia).
    - unfold Obj.read. destruct (Obj.get key ps) as [v|] eqn:Hg; [|cbn; lia].
      pose proof (propsDepth_In key v ps (get_In _ _ _ Hg)) as Hd.
      unfold propsDepth in Hd. cbn [depth] in Horiginal. lia.
    - pose proof (getField_depth h a key). lia. }
  pose proof (stringify_end fuel h (Store.getField h this key) ltac:(lia)) as Hm.
  pose proof (stringify_end fuel h
                (Store.member h (Store.getField h this "_originalState") key)
                ltac:(lia)) as Ht.
  destruct (Json.stringify fuel h (Store.getField h this key));
    cbn [rbind]; [|congruence|discriminate|discriminate].
  destruct (Json.stringify fuel h
              (Store.member h (Store.getField h this "_originalState") key));
    cbn [rbind]; [discriminate|congruence|discriminate|discriminate].
Qed.

Lemma exportKey_end nested C fuel h this options key plain :
  forFilter h <= fuel ->
  (forall a, Store.getField h this key = VRef a -> nested a <> OutOfFuel) ->
  exportKey nested C fuel h this options key plain <> OutOfFuel.
Proof.
  intros Hfuel Hnested. unfold exportKey.
  destruct (Keys.startsWithUnderscore key); [discriminate|].
  destruct (has_key key (excluded C)); [discriminate|].
  destruct (groupThrows C options key); [discriminate|].
  destruct (groupHides C options key); [discriminate|].
  pose proof (unchanged_end fuel h this options key Hfuel) as Hsame.
  destruct (unchanged fuel h this options key) as [[]| | |]; cbn [rbind];
    [discriminate| |congruence|discriminate|discriminate].
  destruct (Obj.has "constructor" (Store.ownProps h this)); [discriminate|].
  destruct (Store.getField h this key) as [| | b | n | s | items | ps | a | p];
    cbn [rbind]; try discriminate.
  specialize (Hnested a eq_refl).
  destruct (nested a); cbn [rbind]; [discriminate|congruence|discriminate|discriminate].
Qed.

Lemma foldRes_end {A B} (step : A -> B -> Res B) xs :
  (forall x acc, In x xs -> step x acc <> OutOfFuel) ->
  forall acc, foldRes step xs acc <> OutOfFuel.
Proof.
  induction xs as [|x xs IH]; intros Hstep acc; cbn [foldRes]; [discriminate|].
  pose proof (Hstep x acc ltac:(now left)) as Hx.
  destruct (step x acc); cbn [rbind]; [|congruence|discriminate|discriminate].
  apply IH. intros y acc' Hy. apply Hstep. now right.
Qed.

(** With enough fuel [toJson] returns or throws, when the models held by
    fields are nested without a cycle. *)
Lemma toJson_end classes h level options fuel :
  layered h level ->
  forall this,
    S (level this) + forFilter h <= fuel ->
    toJson classes fuel h this options <> OutOfFuel.
Proof.
  intros Hlayers. induction fuel as [|fuel IH]; intros this Hfuel; [lia|].
  cbn [toJson]. destruct (Store.classOf h this) as [c|]; [|discriminate].
  assert (foldRes
            (exportKey (fun a => toJson classes fuel h a options) (classes c)
               fuel h this options)
            (Obj.keys (Store.ownProps h this)) [] <> OutOfFuel) as Hloop.
  { apply foldRes_end. intros key acc _. apply exportKey_end; [lia|].
    intros a Hfield. apply IH.
    unfold Store.getField, Obj.read, Store.ownProps in Hfield.
    destruct (h !! this) as [i|] eqn:Hi; [|discriminate].
    destruct (Obj.get key (props i)) as [v|] eqn:Hg; [|discriminate].
    subst v. pose proof (Hlayers this i key a Hi (get_In _ _ _ Hg)). lia. }
  match goal with
  | |- rbind ?loop _ <> _ =>
      destruct loop; cbn [rbind]; [discriminate|congruence|discriminate|discriminate]
  end.
Qed.

End FuelFacts.

(** C6 (amended): for an own field that is not underscore-prefixed and not
    excluded, under its external name.  [toJson] comes to an end (it returns
    or throws) when the models that fields hold are nested without a cycle.
    In the mapping it returns, for a field that the change filter does not
    drop: when a group is requested, a field registered with a non-empty
    list of groups is present if the group is in the list and absent if it
    is not (no other field having the same external name); when no group is
    requested the field is present whatever its registration; a field
    without exposure registration is present under every group and under
    none. *)
Theorem toJson_group_filter :
  forall (classes : ClassId -> ClassDef) h this c options key,
    Store.classOf h this = Some c ->
    In key (Obj.keys (Store.ownProps h this)) ->
    Keys.startsWithUnderscore key = false ->
    has_key key (excluded (classes c)) = false ->
    let external := Keys.toSnakeCaseKey key in
    (forall level fuel,
        Fuel.layered h level ->
        S (level this) + Fuel.forFilter h <= fuel ->
        toJson classes fuel h this options <> OutOfFuel)
    /\ (forall fuel plain,
           toJson classes (S fuel) h this options = Ok (VObj plain) ->
           unchanged fuel h this options key = Ok false ->
           (forall groups g,
               assoc key (exposed (classes c)) = Some groups ->
               requestedGroup options = Some g ->
               has_key g groups = true ->
               Obj.has external plain = true)
           /\ (forall groups g,
                  assoc key (exposed (classes c)) = Some groups ->
                  groups <> [] ->
                  requestedGroup options = Some g ->
                  has_key g groups = false ->
                  (forall key', In key' (Obj.keys (Store.ownProps h this)) ->
                                Keys.toSnakeCaseKey key' = external -> key' = key) ->
                  Obj.has external plain = false)
           /\ (requestedGroup options = None -> Obj.has external plain = true)
           /\ (assoc key (exposed (classes c)) = None ->
               Obj.has external plain = true)).
Proof.
  intros classes h this c options key Hc Hin Hu He external. split.
  { intros level fuel Hlayers Hfuel. now apply (FuelFacts.toJson_end _ _ level). }
  intros fuel plain Hrun Hsame.
  pose proof (toJson_run classes _ _ _ _ _ _ Hc Hrun) as Hloop.
  assert (groupHides (classes c) options key = false ->
          Obj.has external plain = true) as Hshown.
  { intros Hg. eapply export_present; [|exact Hsame|exact Hin|exact Hloop].
    now repeat split. }
  repeat split.
  - intros groups g Hgroups Hreq Hmember. apply Hshown.
    unfold groupHides. now rewrite Hreq, Hgroups, Hmember.
  - intros groups g Hgroups _ Hreq Hmember Hunique.
    destruct (Obj.has external plain) eqn:Hhas; [exfalso|reflexivity].
    destruct (export_origin _ _ _ _ _ _ _ _ _ _ Hloop Hhas)
      as [Hempty|(key' & Hin' & (_ & _ & Hg) & Hname)]; [discriminate|].
    rewrite (Hunique key' Hin' Hname) in Hg.
    unfold groupHides in Hg. rewrite Hreq, Hgroups, Hmember in Hg. discriminate.
  - intros Hreq. apply Hshown. unfold groupHides. now rewrite Hreq.
  - intros Hnone. apply Hshown. unfold groupHides. rewrite Hnone.
    now destruct (requestedGroup options).
Qed.

Module DiffFacts.
Import ObjFacts.

Lemma stringify_undefined fuel h o :
  Json.stringify fuel h VUndefined = Ok o -> o = None.
Proof. destruct fuel; cbn; congruence. Qed.

Lemma stringify_model fuel h a o :
  Json.stringify fuel h (VRef a) = Ok o -> exists text, o = Some text.
Proof.
  destruct fuel as [|fuel]; [discriminate|].
  unfold Json.stringify. cbn [Json.stringifyAt existsb].
  intros H. apply rbind_Ok in H as (texts & _ & [= <-]). eauto.
Qed.

(** A model instance and [undefined] never have the same text. *)
Lemma differs_model_undefined fuel h this other key a b :
  Store.getField h this key = VRef a ->
  Store.member h other key = VUndefined ->
  differs fuel h this other key = Ok b -> b = true.
Proof.
  intros Hmine Htheirs. unfold differs. rewrite Hmine, Htheirs.
  intros H. apply rbind_Ok in H as (mine & Hm & H).
  apply rbind_Ok in H as (theirs & Ht & [= <-]).
  apply stringify_model in Hm as (text & ->).
  apply stringify_undefined in Ht as ->. reflexivity.
Qed.

Lemma diffKey_cases fuel h this other key diffs diffs' :
  diffKey fuel h this other key diffs = Ok diffs' ->
  (differs fuel h this other key = Ok true
   /\ diffs' = Obj.set key (Store.getField h this key) diffs)
  \/ (differs fuel h this other key = Ok false /\ diffs' = diffs).
Proof.
  unfold diffKey. intros H. apply rbind_Ok in H as (d & Hd & H).
  destruct d; injection H as <-; [left | right]; now split.
Qed.

(** What the loop of [diff] records for [key], given what it held before:
    the member's value once a step found it different. *)
Lemma diff_loop fuel h this other key xs :
  forall acc out,
    foldRes (diffKey fuel h this other) xs acc = Ok out ->
    (In key xs -> exists b, differs fuel h this other key = Ok b)
    /\ Obj.get key out
       = if existsb (String.eqb key) xs
         then match differs fuel h this other key with
              | Ok true => Some (Store.getField h this key)
              | _ => Obj.get key acc
              end
         else Obj.get key acc.
Proof.
  induction xs as [|x xs IH]; intros acc out Hrun; cbn [foldRes] in Hrun.
  - injection Hrun as <-. split; [intros []|reflexivity].
  - apply rbind_Ok in Hrun as (acc1 & Hstep & Hrest).
    destruct (IH _ _ Hrest) as [IHd IHg].
    apply diffKey_cases in Hstep. split.
    + intros [->|Hin]; [|auto].
      destruct Hstep as [[Hd _]|[Hd _]]; eauto.
    + rewrite IHg. cbn [existsb].
      destruct (String.eqb_spec key x) as [->|Hne]; cbn [orb].
      * destruct Hstep as [[Hd ->]|[Hd ->]]; rewrite Hd.
        -- rewrite get_set_eq. now destruct (existsb (String.eqb x) xs).
        -- now destruct (existsb (String.eqb x) xs).
      * assert (Obj.get key acc1 = Obj.get key acc) as ->; [|reflexivity].
        destruct Hstep as [[_ ->]|[_ ->]]; [now apply get_set_ne | reflexivity].
Qed.

Lemma existsb_eqb_In key xs : In key xs -> existsb (String.eqb key) xs = true.
Proof.
  intros Hin. apply existsb_exists. exists key.
  split; [assumption | apply String.eqb_refl].
Qed.

End DiffFacts.

(** C9: [diff] comes to an end (it returns, or throws the [TypeError] that
    [JSON.stringify] raises on a circular structure), and it tests every own
    property of the receiver, whatever its name: a key is in the result
    exactly when the two texts differ, and then with the receiver's value.
    So an instance that owns [_originalState], compared with a value that
    has no such member, yields a mapping with the key [_originalState];
    [getChangesSince] is that comparison with the snapshot.  [toJson], on
    the contrary, only exports keys that do not start with an underscore. *)
Theorem diff_walks_every_own_property :
  forall h this other,
    (forall fuel, Fuel.forDiff h other <= fuel ->
                  diff fuel h this other <> OutOfFuel)
    /\ (forall fuel d,
           diff fuel h this other = Ok d ->
           exists diffs,
             d = VObj diffs
             /\ (forall key,
                    In key (Obj.keys (Store.ownProps h this)) ->
                    exists b,
                      differs fuel h this other key = Ok b
                      /\ Obj.get key diffs
                         = if b then Some (Store.getField h this key) else None)
             /\ (forall snapshot,
                    Obj.get "_originalState" (Store.ownProps h this)
                    = Some (VRef snapshot) ->
                    Store.member h other "_originalState" = VUndefined ->
                    Obj.get "_originalState" diffs = Some (VRef snapshot)))
    /\ (forall fuel snapshot,
           Store.getField h this "_originalState" = VRef snapshot ->
           getChangesSince fuel h this = diff fuel h this (VRef snapshot))
    /\ (forall classes fuel options plain k,
           toJson classes fuel h this options = Ok (VObj plain) ->
           Obj.has k plain = true ->
           exists key,
             In key (Obj.keys (Store.ownProps h this))
             /\ Keys.startsWithUnderscore key = false
             /\ Keys.toSnakeCaseKey key = k).
Proof.
  intros h this other. split; [|split; [|split]].
  - intros fuel Hfuel. now apply FuelFacts.diff_end.
  - intros fuel d Hrun. unfold diff in Hrun.
    apply rbind_Ok in Hrun as (diffs & Hloop & [= <-]).
    exists diffs. split; [reflexivity|].
    assert (forall key,
               In key (Obj.keys (Store.ownProps h this)) ->
               exists b,
                 differs fuel h this other key = Ok b
                 /\ Obj.get key diffs
                    = if b then Some (Store.getField h this key) else None)
      as Hall.
    { intros key Hin.
      destruct (DiffFacts.diff_loop fuel h this other key _ _ _ Hloop) as [Hd Hg].
      destruct (Hd Hin) as [b Hb]. exists b. split; [assumption|].
      rewrite Hg, (DiffFacts.existsb_eqb_In _ _ Hin), Hb. now destruct b. }
    split; [exact Hall|].
    intros snapshot Hown Hother.
    destruct (Hall "_originalState" (ObjFacts.get_in_keys _ _ _ Hown))
      as (b & Hb & Hg).
    assert (Store.getField h this "_originalState" = VRef snapshot) as Hfield
      by (unfold Store.getField, Obj.read; now rewrite Hown).
    rewrite (DiffFacts.differs_model_undefined _ _ _ _ _ _ _ Hfield Hother Hb) in Hg.
    now rewrite Hg, Hfield.
  - intros fuel snapshot Hfield. unfold getChangesSince. now rewrite Hfield.
  - intros classes fuel options plain k Hjson Hhas.
    destruct fuel as [|fuel]; [discriminate|].
    destruct (Store.classOf h this) as [c|] eqn:Hc;
      [|cbn [toJson] in Hjson; rewrite Hc in Hjson; discriminate].
    pose proof (toJson_run classes _ _ _ _ _ _ Hc Hjson) as Hexport.
    destruct (export_origin _ _ _ _ _ _ _ _ _ _ Hexport Hhas)
      as [Hempty|(key & Hin & (Hu & _) & Hname)]; [discriminate|].
    now exists key.
Qed.

(** ** The theorems at work on the sample classes *)

(** The test suite's read-only [createdAt]: unchanged by a later
    [applyJson], and after [fromJson] as construction left it. *)
Lemma readonly_field_never_imported_witness :
  Obj.get "createdAt"
    (Store.ownProps
       (heap (Suite.stateOf
                (applyJson Suite.classes 6 Suite.user
                   (VObj [("created_at", VStr "2025-01-01")]) Suite.hydrated)))
       Suite.user)
  = Obj.get "createdAt" (Store.ownProps (heap Suite.hydrated) Suite.user)
  /\ exists s0,
       instantiate Suite.classes 5 "User" Suite.empty = Ok (Suite.user, s0)
       /\ Obj.get "createdAt" (Store.ownProps (heap Suite.hydrated) Suite.user)
          = Obj.get "createdAt" (Store.ownProps (heap s0) Suite.user).
Proof.
  destruct (readonly_field_never_imported Suite.classes "User" "createdAt" eq_refl)
    as [Hlater Hfirst].
  split.
  - apply (Hlater 6 Suite.user (VObj [("created_at", VStr "2025-01-01")])
             Suite.hydrated);
      vm_compute; reflexivity.
  - apply (Hfirst 5 Suite.input false Suite.empty Suite.user Suite.hydrated);
      [reflexivity | discriminate | vm_compute; reflexivity].
Defined.


(** The test suite's [isAdmin], exposed to [admin], and [firstName],
    without registration, in the exports of the hydrated user. *)
Lemma toJson_group_filter_witness :
  toJson Suite.classes 64 (heap Suite.hydrated) Suite.user
    {| group := Some "admin"; onlyChanged := true |} <> OutOfFuel
  /\ Obj.has "is_admin"
       (Suite.objectOf
          (toJson Suite.classes 6 (heap Suite.hydrated) Suite.user
             {| group := Some "admin"; onlyChanged := false |})) = true
  /\ Obj.has "is_admin"
       (Suite.objectOf
          (toJson Suite.classes 6 (heap Suite.hydrated) Suite.user
             {| group := Some "user"; onlyChanged := false |})) = false
  /\ Obj.has "is_admin"
       (Suite.objectOf
          (toJson Suite.classes 6 (heap Suite.hydrated) Suite.user noOptions))
     = true
  /\ Obj.has "first_name"
       (Suite.objectOf
          (toJson Suite.classes 6 (heap Suite.hydrated) Suite.user
             {| group := Some "user"; onlyChanged := false |})) = true.
Proof.
  pose proof (fun options key =>
                toJson_group_filter Suite.classes (heap Suite.hydrated) Suite.user
                  "User" options key ltac:(vm_compute; reflexivity)) as T.
  split; [|split; [|split; [|split]]].
  - destruct (T {| group := Some "admin"; onlyChanged := true |} "isAdmin"
                ltac:(vm_compute; tauto) ltac:(vm_compute; reflexivity)
                ltac:(vm_compute; reflexivity)) as [H _].
    apply (H (fun a => 12 - a)); [|vm_compute; lia].
    intros a i k b Hi Hin.
    do 12 (destruct a as [|a];
           [vm_compute in Hi; injection Hi as <-; vm_compute in Hin;
            repeat (destruct Hin as [Hin|Hin];
                    [try discriminate Hin; injection Hin as <- <-;
                     vm_compute; lia|]);
            destruct Hin|]).
    vm_compute in Hi. discriminate Hi.
  - destruct (T {| group := Some "admin"; onlyChanged := false |} "isAdmin"
                ltac:(vm_compute; tauto) ltac:(vm_compute; reflexivity)
                ltac:(vm_compute; reflexivity)) as [_ H].
    apply (proj1 (H 5 _ ltac:(vm_compute; reflexivity)
                    ltac:(vm_compute; reflexivity)) ["admin"] "admin");
      vm_compute; reflexivity.
  - destruct (T {| group := Some "user"; onlyChanged := false |} "isAdmin"
                ltac:(vm_compute; tauto) ltac:(vm_compute; reflexivity)
                ltac:(vm_compute; reflexivity)) as [_ H].
    apply (proj1 (proj2 (H 5 _ ltac:(vm_compute; reflexivity)
                           ltac:(vm_compute; reflexivity))) ["admin"] "user");
      [vm_compute; reflexivity | discriminate | vm_compute; reflexivity
      | vm_compute; reflexivity |].
    intros key' Hin. vm_compute in Hin.
    repeat (destruct Hin as [<-|Hin]; [vm_compute; congruence|]).
    destruct Hin.
  - destruct (T noOptions "isAdmin"
                ltac:(vm_compute; tauto) ltac:(vm_compute; reflexivity)
                ltac:(vm_compute; reflexivity)) as [_ H].
    apply (proj1 (proj2 (proj2 (H 5 _ ltac:(vm_compute; reflexivity)
                                  ltac:(vm_compute; reflexivity))))).
    vm_compute; reflexivity.
  - destruct (T {| group := Some "user"; onlyChanged := false |} "firstName"
                ltac:(vm_compute; tauto) ltac:(vm_compute; reflexivity)
                ltac:(vm_compute; reflexivity)) as [_ H].
    apply (proj2 (proj2 (proj2 (H 5 _ ltac:(vm_compute; reflexivity)
                                  ltac:(vm_compute; reflexivity))))).
    vm_compute; reflexivity.
Defined.

(** The hydrated user compared with its snapshot. *)
Lemma diff_walks_every_own_property_witness :
  exists diffs snapshot,
    diff 64 (heap Suite.hydrated) Suite.user (VRef snapshot) <> OutOfFuel
    /\ diff 6 (heap Suite.hydrated) Suite.user (VRef snapshot) = Ok (VObj diffs)
    /\ Store.getField (heap Suite.hydrated) Suite.user "_originalState"
       = VRef snapshot
    /\ Obj.get "_originalState" diffs = Some (VRef snapshot)
    /\ getChangesSince 6 (heap Suite.hydrated) Suite.user = Ok (VObj diffs).
Proof.
  destruct (diff_walks_every_own_property (heap Suite.hydrated) Suite.user (VRef 8))
    as (Hend & Hdiff & Hchanges & _).
  destruct (Hdiff 6
              (VObj (Suite.objectOf
                       (diff 6 (heap Suite.hydrated) Suite.user (VRef 8))))
              ltac:(vm_compute; reflexivity))
    as (diffs & Hd & _ & Hsnapshot).
  exists diffs, 8.
  split; [apply Hend; vm_compute; lia|].
  split; [rewrite <- Hd; vm_compute; reflexivity|].
  split; [vm_compute; reflexivity|].
  split.
  - apply Hsnapshot; vm_compute; reflexivity.
  - rewrite (Hchanges 6 8 ltac:(vm_compute; reflexivity)), <- Hd.
    vm_compute; reflexivity.
Defined.

(** [Entry.fromJson]: the transform of the read-only [createdAt] is never
    called, the transform of [note] is called by the import and again by
    the import of the snapshot. *)
Lemma readonly_transform_never_invoked_witness :
  invocations "Entry" "createdAt"
    (calls (Suite.stateOf
              (fromJson Sample.classes 6 "Entry" Sample.input false Suite.empty)))
  = []
  /\ invocations "Entry" "note"
       (calls (Suite.stateOf
                 (fromJson Sample.classes 6 "Entry" Sample.input false Suite.empty)))
     = [ {| call_class := "Entry"; call_key := "note"; call_arg := VStr "hola" |};
         {| call_class := "Entry"; call_key := "note"; call_arg := VStr "hola!" |} ].
Proof.
  split; [|vm_compute; reflexivity].
  apply (proj1 (readonly_transform_never_invoked Sample.classes "Entry" "createdAt"
                  ltac:(vm_compute; reflexivity))
           6 "Entry" Sample.input false Suite.empty 0).
  vm_compute; reflexivity.
Defined.

(** ** Round trips of the key conversions *)

Module KeyRoundTrips.
Import Keys KeysFacts.

Lemma noUpperCase_cons c s :
  noUpperCase (String c s) = negb (is_upper c) && noUpperCase s.
Proof. reflexivity. Qed.

Lemma underscore_not_upper c : is_underscore c = true -> is_upper c = false.
Proof.
  destruct c as [[] [] [] [] [] [] [] []]; vm_compute; congruence.
Qed.

Lemma lower_not_upper c : is_lower c = true -> is_upper c = false.
Proof.
  destruct c as [[] [] [] [] [] [] [] []]; vm_compute; congruence.
Qed.

Lemma lower_of_upper_of_lower c :
  is_lower c = true -> toLowerCase (toUpperCase c) = c.
Proof.
  destruct c as [[] [] [] [] [] [] [] []]; vm_compute; congruence.
Qed.

Lemma snake_noUpperCase s : noUpperCase (toSnakeCaseKey s) = true.
Proof.
  induction s as [|c s IH]; [reflexivity|].
  cbn [toSnakeCaseKey]. destruct (is_upper c) eqn:Hu.
  - rewrite !noUpperCase_cons, IH.
    rewrite (lower_not_upper _ (lower_of_upper_is_lower _ Hu)). reflexivity.
  - rewrite noUpperCase_cons, Hu, IH. reflexivity.
Qed.

Lemma snake_camel_noUpperCase :
  forall k, noUpperCase k = true -> toSnakeCaseKey (toCamelCaseKey k) = k.
Proof.
  induction k as [| c | c d s IHs IHds] using string_pair_ind;
    intros Hk.
  - reflexivity.
  - cbn [noUpperCase] in Hk. apply andb_true_iff in Hk as [Hc _].
    apply negb_true_iff in Hc. cbn [toCamelCaseKey toSnakeCaseKey].
    now rewrite Hc.
  - rewrite noUpperCase_cons in Hk. apply andb_true_iff in Hk as [Hc Hds].
    apply negb_true_iff in Hc. rewrite camel_cons.
    destruct (is_underscore c && is_lower d) eqn:E.
    + apply andb_true_iff in E as [Hus Hd].
      rewrite noUpperCase_cons in Hds. apply andb_true_iff in Hds as [_ Hs].
      cbn [toSnakeCaseKey]. rewrite (upper_of_lower _ Hd).
      rewrite (lower_of_upper_of_lower _ Hd), (IHs Hs).
      unfold is_underscore in Hus. apply Ascii.eqb_eq in Hus. now subst c.
    + cbn [toSnakeCaseKey]. rewrite Hc, (IHds Hds). reflexivity.
Qed.

Lemma camel_settled_id : forall k, settled k = true -> toCamelCaseKey k = k.
Proof.
  induction k as [| c | c d s IHs IHds] using string_pair_ind;
    intros Hk; [reflexivity | reflexivity |].
  rewrite settled_cons in Hk. apply andb_true_iff in Hk as [Hpair Hds].
  apply negb_true_iff in Hpair. rewrite camel_cons, Hpair, (IHds Hds).
  reflexivity.
Qed.

Lemma snake_noUpperCase_id : forall k, noUpperCase k = true -> toSnakeCaseKey k = k.
Proof.
  induction k as [|c k IH]; intros Hk; [reflexivity|].
  rewrite noUpperCase_cons in Hk. apply andb_true_iff in Hk as [Hc Hk].
  apply negb_true_iff in Hc. cbn [toSnakeCaseKey]. now rewrite Hc, (IH Hk).
Qed.

End KeyRoundTrips.

(** X1: an external key comes back from [toCamelCaseKey] then
    [toSnakeCaseKey] exactly when it has no upper-case letter. *)
Theorem toSnakeCaseKey_inverts_toCamelCaseKey :
  forall k : string,
    Keys.toSnakeCaseKey (Keys.toCamelCaseKey k) = k <-> noUpperCase k = true.
Proof.
  intros k. split.
  - intros <-. apply KeyRoundTrips.snake_noUpperCase.
  - apply KeyRoundTrips.snake_camel_noUpperCase.
Qed.

(** X2: an internal key comes back from [toSnakeCaseKey] then
    [toCamelCaseKey] exactly when none of its underscores is followed by a
    lower-case letter. *)
Theorem toCamelCaseKey_inverts_toSnakeCaseKey :
  forall k : string,
    Keys.toCamelCaseKey (Keys.toSnakeCaseKey k) = k <-> Keys.settled k = true.
Proof.
  intros k. split.
  - intros <-. apply KeysFacts.camel_settled.
  - apply KeysFacts.camel_snake_settled.
Qed.

(** ** Key conversion of values *)

Module ValueFacts.
Import ObjFacts EntriesFacts.

(** Induction on values, with the hypothesis for every element of an array
    and every member of a plain object. *)
Lemma Value_nested_ind (P : Value -> Prop) :
  P VUndefined -> P VNull -> (forall b, P (VBool b)) -> (forall n, P (VNum n)) ->
  (forall s, P (VStr s)) ->
  (forall items, Forall P items -> P (VArr items)) ->
  (forall ps, Forall (fun kv => P (snd kv)) ps -> P (VObj ps)) ->
  (forall a, P (VRef a)) ->
  (forall p, P (VBoxed p)) ->
  forall v, P v.
Proof.
  intros Hu Hn Hb Hz Hs Ha Ho Hr Hp.
  fix IH 1. intros [| | b | n | s | items | ps | a | p].
  - exact Hu.
  - exact Hn.
  - apply Hb.
  - apply Hz.
  - apply Hs.
  - apply Ha. induction items as [|x items IHitems]; constructor;
      [apply IH | exact IHitems].
  - apply Ho. induction ps as [|[k x] ps IHps]; constructor;
      [apply IH | exact IHps].
  - apply Hr.
  - apply Hp.
Qed.

Lemma toCamelCase_rekey v : toCamelCase v = rekey Keys.toCamelCaseKey v.
Proof.
  induction v as [| | | | | items IH | ps IH | |] using Value_nested_ind;
    try reflexivity; cbn [toCamelCase rekey].
  - f_equal. apply map_ext_Forall. exact IH.
  - destruct (Proto.constructorIsObject ps); [|reflexivity].
    do 2 f_equal. apply map_ext_Forall.
    eapply Forall_impl; [exact IH|]. intros [k x] Hx. cbn in *. now rewrite Hx.
Qed.

Lemma toSnakeCase_rekey v : toSnakeCase v = rekey Keys.toSnakeCaseKey v.
Proof.
  induction v as [| | | | | items IH | ps IH | |] using Value_nested_ind;
    try reflexivity; cbn [toSnakeCase rekey].
  - f_equal. apply map_ext_Forall. exact IH.
  - destruct (Proto.constructorIsObject ps); [|reflexivity].
    do 2 f_equal. apply map_ext_Forall.
    eapply Forall_impl; [exact IH|]. intros [k x] Hx. cbn in *. now rewrite Hx.
Qed.

Lemma has_key_In k ks : has_key k ks = true <-> In k ks.
Proof.
  unfold has_key. rewrite existsb_exists. split.
  - intros (x & Hx & E). apply String.eqb_eq in E. now subst.
  - intros Hin. exists k. split; [assumption | apply String.eqb_refl].
Qed.

Lemma distinct_NoDup ks : distinct ks = true <-> NoDup ks.
Proof.
  induction ks as [|k ks IH]; cbn [distinct].
  - split; [constructor | reflexivity].
  - rewrite andb_true_iff, negb_true_iff, IH, NoDup_cons. split.
    + intros [Hk Hks]. split; [|assumption].
      rewrite list_elem_of_In, <- has_key_In. congruence.
    + intros [Hk Hks]. split; [|assumption].
      destruct (has_key k ks) eqn:E; [|reflexivity].
      exfalso. apply Hk. rewrite list_elem_of_In. now apply has_key_In.
Qed.

Lemma set_fresh k v ps :
  ~ In k (Obj.keys ps) -> Obj.set k v ps = ps ++ [(k, v)].
Proof.
  unfold Obj.keys. induction ps as [|[k' v'] ps IH]; intros Hk; [reflexivity|].
  cbn [Obj.set]. cbn [map fst In] in Hk.
  destruct (String.eqb_spec k k') as [->|Hne]; [tauto|].
  cbn [app]. rewrite IH; [reflexivity | tauto].
Qed.

Lemma fold_set_fresh (es : list (string * Value)) :
  forall acc, NoDup (Obj.keys (acc ++ es)) ->
    fold_left (fun acc e => Obj.set (fst e) (snd e) acc) es acc = acc ++ es.
Proof.
  unfold Obj.keys. induction es as [|[k v] es IH]; intros acc Hnd; cbn [fold_left].
  - now rewrite app_nil_r.
  - cbn [fst snd]. rewrite set_fresh.
    + rewrite IH; rewrite <- app_assoc; [reflexivity | exact Hnd].
    + rewrite map_app in Hnd. cbn [map fst] in Hnd.
      apply NoDup_app in Hnd as (_ & Hdisj & _).
      intros Hin. apply (Hdisj k); [now apply list_elem_of_In | left].
Qed.

(** [Object.fromEntries] gives back a list of entries with distinct keys. *)
Lemma fromEntries_distinct es :
  NoDup (Obj.keys es) -> Obj.fromEntries es = es.
Proof. intros Hnd. unfold Obj.fromEntries. now rewrite fold_set_fresh. Qed.

Lemma set_In e k v ps : In e (Obj.set k v ps) -> e = (k, v) \/ In e ps.
Proof.
  induction ps as [|[k' v'] ps IH]; cbn [Obj.set].
  - intros [<-|[]]. now left.
  - destruct (String.eqb k k').
    + intros [<-|Hin]; [now left | right; now right].
    + intros [<-|Hin]; [right; now left|].
      destruct (IH Hin); [now left | right; now right].
Qed.

Lemma fold_set_In e (es : list (string * Value)) :
  forall acc,
    In e (fold_left (fun acc e => Obj.set (fst e) (snd e) acc) es acc) ->
    In e acc \/ In e es.
Proof.
  induction es as [|[k v] es IH]; intros acc Hin; cbn [fold_left] in Hin.
  - now left.
  - destruct (IH _ Hin) as [Hacc|Hes]; [|right; now right].
    cbn [fst snd] in Hacc. destruct (set_In _ _ _ _ Hacc) as [->|Hacc'];
      [right; now left | now left].
Qed.

Lemma fromEntries_In e es : In e (Obj.fromEntries es) -> In e es.
Proof.
  intros Hin. destruct (fold_set_In e es [] Hin) as [[]|Hes]. exact Hes.
Qed.

Lemma map_fixed {A} (f : A -> A) xs :
  (forall x, In x xs -> f x = x) -> map f xs = xs.
Proof.
  induction xs as [|x xs IH]; intros Hf; [reflexivity|].
  cbn [map]. rewrite Hf by now left. rewrite IH; [reflexivity|].
  intros y Hy. apply Hf. now right.
Qed.

Section Rekey.

Variable conv : string -> string.
Variable shape : string -> bool.
Hypothesis conv_shape : forall k, shape (conv k) = true.
Hypothesis shape_fixed : forall k, shape k = true -> conv k = k.

Lemma keyed_fixed : forall v, keyed shape v = true -> rekey conv v = v.
Proof.
  induction v as [| | | | | items IH | ps IH | |] using Value_nested_ind;
    intros Hv; try reflexivity; cbn [rekey keyed] in *.
  - f_equal. apply map_fixed. intros x Hx.
    rewrite Forall_forall in IH. apply IH; [now apply list_elem_of_In|].
    rewrite forallb_forall in Hv. now apply Hv.
  - destruct (Proto.constructorIsObject ps); [|reflexivity]. cbn [negb orb] in Hv.
    apply andb_true_iff in Hv as [Hv Hvals]. apply andb_true_iff in Hv as [Hd Hk].
    f_equal. rewrite map_fixed.
    + apply fromEntries_distinct. now apply distinct_NoDup.
    + intros [k x] Hin. cbn [fst snd]. f_equal.
      * apply shape_fixed. rewrite forallb_forall in Hk. apply Hk.
        now apply (in_map fst _ (k, x)).
      * rewrite Forall_forall in IH.
        apply (IH (k, x)); [now apply list_elem_of_In|].
        rewrite forallb_forall in Hvals. now apply (Hvals (k, x)).
Qed.

Lemma rekey_keyed : forall v, keyed shape (rekey conv v) = true.
Proof.
  induction v as [| | | | | items IH | ps IH | |] using Value_nested_ind;
    try reflexivity; cbn [rekey keyed].
  - apply forallb_forall. intros y Hy. apply in_map_iff in Hy as (x & <- & Hx).
    rewrite Forall_forall in IH. apply IH. now apply list_elem_of_In.
  - destruct (Proto.constructorIsObject ps) eqn:Hps;
      [|cbn [keyed]; now rewrite Hps].
    cbn [keyed]. apply orb_true_iff. right.
    rewrite !andb_true_iff. split; [split|].
    + apply distinct_NoDup. apply fromEntries_NoDup.
    + apply forallb_forall. intros k Hk. apply in_map_iff in Hk as (e & <- & He).
      apply fromEntries_In, in_map_iff in He as ([k0 x0] & <- & _).
      apply conv_shape.
    + apply forallb_forall. intros e He.
      apply fromEntries_In, in_map_iff in He as ([k0 x0] & <- & Hin).
      rewrite Forall_forall in IH. apply (IH (k0, x0)).
      now apply list_elem_of_In.
Qed.

End Rekey.

Section RoundTrip.

Variables there back : string -> string.
Variable shape : string -> bool.
Hypothesis key_round_trip : forall k, shape k = true -> back (there k) = k.
Hypothesis back_constructor : back "constructor" = "constructor".

(** An object without own property [constructor] has none after the
    conversion of its keys. *)
Lemma there_constructor ps (f : Value -> Value) :
  forallb shape (map fst ps) = true ->
  Proto.constructorIsObject ps = true ->
  Proto.constructorIsObject
    (Obj.fromEntries (map (fun kv => (there (fst kv), f (snd kv))) ps)) = true.
Proof.
  intros Hs Hps. unfold Proto.constructorIsObject, Obj.has in *.
  destruct (Obj.get "constructor" (Obj.fromEntries _)) as [x|] eqn:E;
    [exfalso|reflexivity].
  apply get_in_keys in E. unfold Obj.keys in E.
  apply in_map_iff in E as ([k' x'] & Hk' & He). cbn [fst] in Hk'. subst k'.
  apply fromEntries_In, in_map_iff in He as ([k0 x0] & [= Hk0 _] & Hin).
  cbn [fst] in Hk0.
  assert (k0 = "constructor") as ->.
  { rewrite <- back_constructor, <- Hk0. symmetry. apply key_round_trip.
    rewrite forallb_forall in Hs. apply Hs. now apply (in_map fst _ (k0, x0)). }
  destruct (Obj.get "constructor" ps) eqn:Hget; [discriminate|].
  apply get_none_keys in Hget. apply Hget. now apply (in_map fst _ ("constructor", x0)).
Qed.

Lemma there_distinct ks :
  forallb shape ks = true -> NoDup ks -> NoDup (map there ks).
Proof.
  induction ks as [|k ks IH]; intros Hs Hnd; [constructor|].
  cbn [forallb] in Hs. apply andb_true_iff in Hs as [Hk Hs].
  apply NoDup_cons in Hnd as [Hnotin Hnd]. cbn [map]. apply NoDup_cons.
  split; [|now apply IH].
  intros Hin. apply Hnotin. apply list_elem_of_In in Hin.
  apply in_map_iff in Hin as (k' & E & Hk').
  apply list_elem_of_In.
  assert (k' = k) as <-; [|assumption].
  rewrite <- (key_round_trip k Hk), <- E. symmetry. apply key_round_trip.
  rewrite forallb_forall in Hs. now apply Hs.
Qed.

Lemma rekey_round_trip :
  forall v, keyed shape v = true -> rekey back (rekey there v) = v.
Proof.
  induction v as [| | | | | items IH | ps IH | |] using Value_nested_ind;
    intros Hv; try reflexivity; cbn [rekey keyed] in *.
  - f_equal. rewrite map_map. apply map_fixed. intros x Hx.
    rewrite Forall_forall in IH. apply IH; [now apply list_elem_of_In|].
    rewrite forallb_forall in Hv. now apply Hv.
  - destruct (Proto.constructorIsObject ps) eqn:Hps;
      [|cbn [rekey]; now rewrite Hps].
    cbn [negb orb] in Hv.
    apply andb_true_iff in Hv as [Hv Hvals]. apply andb_true_iff in Hv as [Hd Hk].
    apply distinct_NoDup in Hd. cbn [rekey].
    rewrite (there_constructor ps (rekey there) Hk Hps). f_equal.
    rewrite (fromEntries_distinct (map _ ps)).
    + rewrite map_map. cbn [fst snd]. rewrite map_fixed.
      * now apply fromEntries_distinct.
      * intros [k x] Hin. cbn [fst snd]. f_equal.
        -- apply key_round_trip. rewrite forallb_forall in Hk. apply Hk.
           now apply (in_map fst _ (k, x)).
        -- rewrite Forall_forall in IH.
           apply (IH (k, x)); [now apply list_elem_of_In|].
           rewrite forallb_forall in Hvals. now apply (Hvals (k, x)).
    + unfold Obj.keys. rewrite map_map. cbn [fst].
      rewrite <- (map_map fst there). now apply there_distinct.
Qed.

End RoundTrip.

End ValueFacts.

(** X3: [toCamelCase] and [toSnakeCase] are idempotent, and the values each
    of them leaves as they are are exactly the data already in its form: in
    every object that the conversion enters, which is one without own
    property [constructor], the keys are distinct and have no underscore
    followed by a lower-case letter for [toCamelCase], no upper-case letter
    for [toSnakeCase].  An object with an own property [constructor] is
    left as it is, whatever its keys and members. *)
Theorem key_conversion_normalises :
  forall v : Value,
    toCamelCase (toCamelCase v) = toCamelCase v
    /\ toSnakeCase (toSnakeCase v) = toSnakeCase v
    /\ (toCamelCase v = v <-> camelKeyed v = true)
    /\ (toSnakeCase v = v <-> snakeKeyed v = true)
    /\ (forall props,
           v = VObj props -> Obj.has "constructor" props = true ->
           toCamelCase v = v /\ toSnakeCase v = v).
Proof.
  intros v. unfold camelKeyed, snakeKeyed.
  rewrite !ValueFacts.toCamelCase_rekey, !ValueFacts.toSnakeCase_rekey.
  pose proof (ValueFacts.rekey_keyed Keys.toCamelCaseKey Keys.settled
                KeysFacts.camel_settled) as Hc.
  pose proof (ValueFacts.rekey_keyed Keys.toSnakeCaseKey noUpperCase
                KeyRoundTrips.snake_noUpperCase) as Hs.
  pose proof (ValueFacts.keyed_fixed Keys.toCamelCaseKey Keys.settled
                KeyRoundTrips.camel_settled_id) as Fc.
  pose proof (ValueFacts.keyed_fixed Keys.toSnakeCaseKey noUpperCase
                KeyRoundTrips.snake_noUpperCase_id) as Fs.
  split; [apply Fc, Hc|]. split; [apply Fs, Hs|].
  split; [split; [intros E; rewrite <- E; apply Hc | apply Fc]|].
  split; [split; [intros E; rewrite <- E; apply Hs | apply Fs]|].
  intros props -> Hown. cbn [rekey]. unfold Proto.constructorIsObject.
  rewrite Hown. now split.
Qed.

(** X4: plain data in internal form survives export and import:
    [toCamelCase (toSnakeCase v)] is [v] when every object of [v] that the
    conversion enters has distinct keys without an underscore followed by a
    lower-case letter. *)
Theorem toCamelCase_inverts_toSnakeCase :
  forall v : Value, camelKeyed v = true -> toCamelCase (toSnakeCase v) = v.
Proof.
  intros v Hv. rewrite ValueFacts.toCamelCase_rekey, ValueFacts.toSnakeCase_rekey.
  apply (ValueFacts.rekey_round_trip _ _ Keys.settled); [|reflexivity|exact Hv].
  apply KeysFacts.camel_snake_settled.
Qed.

(** X5: plain data in external form survives import and export:
    [toSnakeCase (toCamelCase v)] is [v] when every object of [v] that the
    conversion enters has distinct keys without upper-case letter. *)
Theorem toSnakeCase_inverts_toCamelCase :
  forall v : Value, snakeKeyed v = true -> toSnakeCase (toCamelCase v) = v.
Proof.
  intros v Hv. rewrite ValueFacts.toCamelCase_rekey, ValueFacts.toSnakeCase_rekey.
  apply (ValueFacts.rekey_round_trip _ _ noUpperCase); [|reflexivity|exact Hv].
  apply KeyRoundTrips.snake_camel_noUpperCase.
Qed.

(** ** What [toJson] puts in the export *)

Module ExportValueFacts.
Import ObjFacts StoreFacts EntriesFacts.

(** The step of the loop of [toJson] for [key], from the inside. *)
Lemma exportKey_inv nested C fuel h this options key plain plain' :
  exportKey nested C fuel h this options key plain = Ok plain' ->
  (plain' = plain
   /\ (~ offered C options key \/ unchanged fuel h this options key = Ok true))
  \/ (offered C options key
      /\ unchanged fuel h this options key = Ok false
      /\ exists out,
           match Store.getField h this key with
           | VRef a => nested a
           | _ => Ok (toSnakeCase (Store.getField h this key))
           end = Ok out
           /\ plain' = Obj.set (Keys.toSnakeCaseKey key) out plain).
Proof.
  unfold exportKey, offered.
  destruct (Keys.startsWithUnderscore key);
    [intros [= <-]; left; split; [reflexivity | left; intros (? & _); discriminate]|].
  destruct (has_key key (excluded C));
    [intros [= <-]; left; split;
     [reflexivity | left; intros (_ & ? & _); discriminate]|].
  destruct (groupThrows C options key); [discriminate|].
  destruct (groupHides C options key);
    [intros [= <-]; left; split;
     [reflexivity | left; intros (_ & _ & ?); discriminate]|].
  intros H. apply rbind_Ok in H as (same & Hsame & H).
  destruct same.
  - injection H as <-. left. split; [reflexivity | now right].
  - destruct (Obj.has "constructor" (Store.ownProps h this)); [discriminate|].
    apply rbind_Ok in H as (out & Hout & H). injection H as <-.
    right. split; [now repeat split|]. split; [assumption|].
    exists out. now split.
Qed.

(** What the export holds under the external name of [key], when no other
    key of the loop has that name. *)
Lemma export_get nested C fuel h this options key xs :
  (forall key', In key' xs ->
                Keys.toSnakeCaseKey key' = Keys.toSnakeCaseKey key -> key' = key) ->
  forall acc out,
    foldRes (exportKey nested C fuel h this options) xs acc = Ok out ->
    ((~ offered C options key \/ unchanged fuel h this options key = Ok true) ->
     Obj.get (Keys.toSnakeCaseKey key) out = Obj.get (Keys.toSnakeCaseKey key) acc)
    /\ (forall o,
           offered C options key ->
           unchanged fuel h this options key = Ok false ->
           match Store.getField h this key with
           | VRef a => nested a
           | _ => Ok (toSnakeCase (Store.getField h this key))
           end = Ok o ->
           In key xs \/ Obj.get (Keys.toSnakeCaseKey key) acc = Some o ->
           Obj.get (Keys.toSnakeCaseKey key) out = Some o).
Proof.
  induction xs as [|x xs IH]; intros Hunique acc out Hrun; cbn [foldRes] in Hrun.
  - injection Hrun as <-. split; [reflexivity | intros o _ _ _ [[]|Hacc]; exact Hacc].
  - apply rbind_Ok in Hrun as (acc1 & Hstep & Hrest).
    assert (forall key', In key' xs ->
              Keys.toSnakeCaseKey key' = Keys.toSnakeCaseKey key -> key' = key)
      as Hunique' by (intros key' Hin; apply Hunique; now right).
    destruct (IH Hunique' _ _ Hrest) as [IHdrop IHemit].
    assert (x <> key ->
            Obj.get (Keys.toSnakeCaseKey key) acc1
            = Obj.get (Keys.toSnakeCaseKey key) acc) as Hother.
    { intros Hne.
      destruct (exportKey_inv _ _ _ _ _ _ _ _ _ Hstep)
        as [[-> _]|(_ & _ & o & _ & ->)]; [reflexivity|].
      apply get_set_ne. intros E. apply Hne. apply Hunique; [now left | now symmetry]. }
    split.
    + intros Hdrop. rewrite (IHdrop Hdrop).
      destruct (String.eqb_spec x key) as [->|Hne]; [|now apply Hother].
      destruct (exportKey_inv _ _ _ _ _ _ _ _ _ Hstep)
        as [[-> _]|(Hoff & Hsame & _)]; [reflexivity|].
      destruct Hdrop as [Hno|Hyes]; [tauto | congruence].
    + intros o Hoff Hsame Hval Hin. apply (IHemit o Hoff Hsame Hval).
      destruct (String.eqb_spec x key) as [->|Hne].
      * right.
        destruct (exportKey_inv _ _ _ _ _ _ _ _ _ Hstep)
          as [[_ [Hno|Hyes]]|(_ & _ & o' & Hval' & ->)];
          [tauto | congruence |].
        rewrite get_set_eq. congruence.
      * destruct Hin as [[E|Hin]|Hacc]; [congruence | now left | right].
        now rewrite Hother.
Qed.

Lemma export_step_returns nested C fuel h this options key xs :
  In key xs ->
  forall acc out,
    foldRes (exportKey nested C fuel h this options) xs acc = Ok out ->
    ~ offered C options key
    \/ unchanged fuel h this options key = Ok true
    \/ (unchanged fuel h this options key = Ok false
        /\ exists o,
             match Store.getField h this key with
             | VRef a => nested a
             | _ => Ok (toSnakeCase (Store.getField h this key))
             end = Ok o).
Proof.
  induction xs as [|x xs IH]; intros Hin acc out Hrun; [destruct Hin|].
  cbn [foldRes] in Hrun. apply rbind_Ok in Hrun as (acc1 & Hstep & Hrest).
  destruct Hin as [->|Hin]; [|now apply (IH Hin acc1 out)].
  destruct (exportKey_inv _ _ _ _ _ _ _ _ _ Hstep)
    as [[_ [Hno|Hyes]]|(_ & Hsame & o & Hval & _)]; [tauto | tauto |].
  right. right. split; [assumption | now exists o].
Qed.

End ExportValueFacts.

(** X6: whatever the options, [toJson] never exports a field that is
    excluded or whose name starts with an underscore: its external name is
    not a key of the result (no other own field having that external
    name). *)
Theorem toJson_never_exports_excluded :
  forall (classes : ClassId -> ClassDef) fuel h this c options plain key,
    Store.classOf h this = Some c ->
    toJson classes fuel h this options = Ok (VObj plain) ->
    has_key key (excluded (classes c)) = true
    \/ Keys.startsWithUnderscore key = true ->
    (forall key', In key' (Obj.keys (Store.ownProps h this)) ->
                  Keys.toSnakeCaseKey key' = Keys.toSnakeCaseKey key -> key' = key) ->
    Obj.has (Keys.toSnakeCaseKey key) plain = false.
Proof.
  intros classes fuel h this c options plain key Hc Hrun Hhidden Hunique.
  destruct fuel as [|fuel]; [discriminate|].
  pose proof (toJson_run classes _ _ _ _ _ _ Hc Hrun) as Hloop.
  destruct (Obj.has (Keys.toSnakeCaseKey key) plain) eqn:Hhas; [exfalso|reflexivity].
  destruct (export_origin _ _ _ _ _ _ _ _ _ _ Hloop Hhas)
    as [Hempty|(key' & Hin & (Hu & He & _) & Hname)]; [discriminate|].
  rewrite (Hunique key' Hin Hname) in Hu, He.
  destruct Hhidden; congruence.
Qed.

(** X7: the change filter of [toJson].  For an own field that the other
    filters let through (no other own field having its external name), the
    field is in the export exactly when the filter does not find it
    unchanged; the filter finds nothing unchanged when [onlyChanged] is not
    set or the instance has no snapshot, and otherwise compares the JSON
    text of the field with the JSON text of the snapshot's member. *)
Theorem toJson_onlyChanged :
  forall (classes : ClassId -> ClassDef) fuel h this c options plain key,
    Store.classOf h this = Some c ->
    toJson classes (S fuel) h this options = Ok (VObj plain) ->
    In key (Obj.keys (Store.ownProps h this)) ->
    offered (classes c) options key ->
    (forall key', In key' (Obj.keys (Store.ownProps h this)) ->
                  Keys.toSnakeCaseKey key' = Keys.toSnakeCaseKey key -> key' = key) ->
    let original := Store.getField h this "_originalState" in
    exists same,
      unchanged fuel h this options key = Ok same
      /\ Obj.has (Keys.toSnakeCaseKey key) plain = negb same
      /\ (onlyChanged options = false \/ truthy original = false -> same = false)
      /\ (onlyChanged options = true -> truthy original = true ->
          exists now before,
            Json.stringify fuel h (Store.getField h this key) = Ok now
            /\ Json.stringify fuel h (Store.member h original key) = Ok before
            /\ same = Json.sameText now before).
Proof.
  intros classes fuel h this c options plain key Hc Hrun Hin Hoff Hunique original.
  pose proof (toJson_run classes _ _ _ _ _ _ Hc Hrun) as Hloop.
  destruct (ExportValueFacts.export_get _ _ _ _ _ _ _ _ Hunique _ _ Hloop) as [Hdrop Hemit].
  assert (exists same, unchanged fuel h this options key = Ok same
                       /\ Obj.has (Keys.toSnakeCaseKey key) plain = negb same)
    as (same & Hsame & Hhas).
  { destruct (ExportValueFacts.export_step_returns _ _ _ _ _ _ _ _ Hin _ _ Hloop)
      as [Hno|[Hyes|(Hsame & o & Hval)]]; [tauto | |].
    - exists true. split; [assumption|]. unfold Obj.has.
      now rewrite (Hdrop (or_intror Hyes)).
    - exists false. split; [assumption|]. unfold Obj.has.
      now rewrite (Hemit o Hoff Hsame Hval (or_introl Hin)). }
  exists same. split; [assumption|]. split; [assumption|].
  unfold unchanged in Hsame. fold original in Hsame. split.
  - intros [Hflag|Hnone].
    + rewrite Hflag in Hsame. congruence.
    + destruct (onlyChanged options); [rewrite Hnone in Hsame|]; congruence.
  - intros Hflag Hsnap. rewrite Hflag, Hsnap in Hsame.
    apply rbind_Ok in Hsame as (now & Hnow & Hsame).
    apply rbind_Ok in Hsame as (before & Hbefore & [= <-]).
    now exists now, before.
Qed.

(** X8: the value [toJson] exports for an own field that passes the
    filters (no other own field having its external name): a field that
    holds a model is exported as the result of that model's own [toJson]
    with the same options, every other value as its [toSnakeCase]. *)
Theorem toJson_exports_field_value :
  forall (classes : ClassId -> ClassDef) fuel h this c options plain key,
    Store.classOf h this = Some c ->
    toJson classes (S fuel) h this options = Ok (VObj plain) ->
    In key (Obj.keys (Store.ownProps h this)) ->
    offered (classes c) options key ->
    unchanged fuel h this options key = Ok false ->
    (forall key', In key' (Obj.keys (Store.ownProps h this)) ->
                  Keys.toSnakeCaseKey key' = Keys.toSnakeCaseKey key -> key' = key) ->
    match Store.getField h this key with
    | VRef a =>
        exists o, toJson classes fuel h a options = Ok o
                  /\ Obj.get (Keys.toSnakeCaseKey key) plain = Some o
    | value => Obj.get (Keys.toSnakeCaseKey key) plain = Some (toSnakeCase value)
    end.
Proof.
  intros classes fuel h this c options plain key Hc Hrun Hin Hoff Hsame Hunique.
  pose proof (toJson_run classes _ _ _ _ _ _ Hc Hrun) as Hloop.
  destruct (ExportValueFacts.export_get _ _ _ _ _ _ _ _ Hunique _ _ Hloop) as [_ Hemit].
  destruct (ExportValueFacts.export_step_returns _ _ _ _ _ _ _ _ Hin _ _ Hloop)
    as [Hno|[Hyes|(_ & o & Hval)]]; [tauto | congruence |].
  specialize (Hemit o Hoff Hsame Hval (or_introl Hin)).
  destruct (Store.getField h this key) eqn:Hfield;
    try (injection Hval as <-; exact Hemit).
  exists o. now split.
Qed.

(** ** Fields that [toJson] does not read *)

Section HiddenFieldFacts.

Variable classes : ClassId -> ClassDef.

Import ObjFacts StoreFacts EntriesFacts.

Lemma foldRes_ext {A B} (f g : A -> B -> Res B) xs :
  (forall x acc, In x xs -> f x acc = g x acc) ->
  forall acc, foldRes f xs acc = foldRes g xs acc.
Proof.
  induction xs as [|x xs IH]; intros Hfg acc; [reflexivity|].
  cbn [foldRes]. rewrite (Hfg x acc) by now left.
  destruct (g x acc); cbn [rbind]; [|reflexivity|reflexivity|reflexivity].
  apply IH. intros y acc' Hy. apply Hfg. now right.
Qed.

Lemma foldRes_app {A B} (f : A -> B -> Res B) xs ys acc :
  foldRes f (xs ++ ys) acc = rbind (foldRes f xs acc) (foldRes f ys).
Proof.
  revert acc. induction xs as [|x xs IH]; intros acc; [reflexivity|].
  cbn [app foldRes]. destruct (f x acc); cbn [rbind]; [apply IH | | |]; reflexivity.
Qed.

Lemma exportKey_hidden nested C fuel h this options key plain :
  has_key key (excluded C) = true \/ Keys.startsWithUnderscore key = true ->
  exportKey nested C fuel h this options key plain = Ok plain.
Proof.
  unfold exportKey. intros [He|Hu].
  - rewrite He. now destruct (Keys.startsWithUnderscore key).
  - now rewrite Hu.
Qed.

Lemma exportKey_ext nested nested' C fuel h h' this options key plain :
  onlyChanged options = false ->
  Store.getField h' this key = Store.getField h this key ->
  Obj.has "constructor" (Store.ownProps h' this)
  = Obj.has "constructor" (Store.ownProps h this) ->
  (forall a, nested' a = nested a) ->
  exportKey nested' C fuel h' this options key plain
  = exportKey nested C fuel h this options key plain.
Proof.
  intros Hflag Hfield Hstatic Hnested. unfold exportKey, unchanged.
  rewrite Hflag, Hfield, Hstatic. cbn [rbind].
  destruct (Store.getField h this key); try reflexivity.
  now rewrite Hnested.
Qed.

(** Assigning a field that is excluded or underscore-prefixed in the class
    of its instance changes no export made without the change filter. *)
Lemma toJson_hidden_write fuel h a c k v options :
  Store.classOf h a = Some c ->
  has_key k (excluded (classes c)) = true \/ Keys.startsWithUnderscore k = true ->
  k <> "constructor" ->
  onlyChanged options = false ->
  forall x,
    toJson classes fuel (Store.writeField a k v h) x options
    = toJson classes fuel h x options.
Proof.
  intros Hc Hhidden Hname Hflag. pose proof (classOf_valid _ _ _ Hc) as Hvalid.
  induction fuel as [|fuel IH]; intros x; [reflexivity|].
  cbn [toJson]. rewrite writeField_classOf.
  destruct (Store.classOf h x) as [cx|] eqn:Hcx; [|reflexivity].
  f_equal. destruct (Nat.eq_dec x a) as [->|Hne].
  - assert (cx = c) as -> by congruence.
    rewrite writeField_ownProps by assumption. rewrite keys_set.
    assert (forall key acc,
               exportKey (fun b => toJson classes fuel (Store.writeField a k v h) b options)
                 (classes c) fuel (Store.writeField a k v h) a options key acc
               = exportKey (fun b => toJson classes fuel h b options)
                   (classes c) fuel h a options key acc) as Hstep.
    { intros key acc. destruct (String.eqb_spec key k) as [->|Hk].
      - now rewrite !exportKey_hidden.
      - apply exportKey_ext; [assumption| | |exact IH].
        + unfold Store.getField, Obj.read.
          rewrite writeField_ownProps by assumption. now rewrite get_set_ne.
        + unfold Obj.has. rewrite writeField_ownProps by assumption.
          rewrite get_set_ne; [reflexivity | congruence]. }
    destruct (Obj.has k (Store.ownProps h a)).
    + apply foldRes_ext. intros; apply Hstep.
    + rewrite foldRes_app.
      rewrite (foldRes_ext _ _ _ (fun key acc _ => Hstep key acc)).
      cbn [foldRes].
      match goal with
      | |- rbind ?loop _ = _ =>
          destruct loop as [acc| | |]; cbn [rbind];
            [|reflexivity|reflexivity|reflexivity]
      end.
      rewrite exportKey_hidden by assumption. reflexivity.
  - rewrite writeField_ownProps_other by assumption.
    apply foldRes_ext. intros key acc _.
    apply exportKey_ext; [assumption| | |exact IH].
    + unfold Store.getField. now rewrite writeField_ownProps_other.
    + now rewrite writeField_ownProps_other.
Qed.

End HiddenFieldFacts.

(** X9: assigning a field that is excluded, or whose name starts with an
    underscore, changes nothing of what [toJson] returns, for any instance
    and any group, as long as [onlyChanged] is not set.  The field is not
    [constructor]: no class can declare a field of that name, and an
    assignment to it would hide the class from [toJson]. *)
Theorem toJson_ignores_hidden_fields :
  forall (classes : ClassId -> ClassDef) fuel s a c k v s' options x,
    Store.classOf (heap s) a = Some c ->
    has_key k (excluded (classes c)) = true \/ Keys.startsWithUnderscore k = true ->
    k <> "constructor" ->
    onlyChanged options = false ->
    Store.setField a k v s = Ok (tt, s') ->
    toJson classes fuel (heap s') x options = toJson classes fuel (heap s) x options.
Proof.
  intros classes fuel s a c k v s' options x Hc Hhidden Hname Hflag [= <-].
  cbn [heap]. now apply (toJson_hidden_write classes fuel (heap s) a c).
Qed.

(** ** New instances *)

Section CreationFacts.

Variable classes : ClassId -> ClassDef.

Local Abbreviation post := (post classes).
Local Abbreviation evolves := (evolves classes).

Import ObjFacts StoreFacts.

Lemma instantiate_fresh fuel c s instance s0 :
  instantiate classes fuel c s = Ok (instance, s0) -> instance = length (heap s).
Proof.
  unfold instantiate. intros H.
  apply bind_Ok in H as (i & s1 & Hnew & H).
  destruct (construct_result classes _ _ _ _ _ Hnew) as [-> _].
  apply bind_Ok in H as ([] & s2 & _ & H).
  apply bind_Ok in H as ([] & s3 & _ & Hret). now injection Hret as <- _.
Qed.

(** The statements of [fromJson] that follow the import keep every class. *)
Lemma fromJson_tail_post fuel c instance (skip : bool) :
  post 0 everything
    (bind (runHook (afterApplyJson (classes c)) instance)
       (fun _ =>
          if skip then ret instance
          else bind (clone classes fuel instance)
                 (fun snapshot =>
                    bind (Store.setField instance "_originalState" (VRef snapshot))
                      (fun _ => ret instance))))
    (fun _ => True).
Proof.
  eapply post_bind; [apply runHook_post; lia|]. intros _ _.
  destruct skip; [now apply post_ret|].
  eapply post_bind;
    [apply cloneWith_post, fromJson_allocates|].
  intros snapshot _. eapply post_bind; [apply setField_post; left; lia|].
  intros _ _. now apply post_ret.
Qed.

Lemma fromJson_class fuel c json skip s a s' :
  fromJson classes fuel c json skip s = Ok (a, s') ->
  a = length (heap s) /\ Store.classOf (heap s') a = Some c.
Proof.
  destruct fuel as [|fuel]; [discriminate|]. intros Hrun.
  destruct (fromJson_run classes _ _ _ _ _ _ _ Hrun) as (s0 & s1 & Hi & Ha & Ht).
  split; [eapply instantiate_fresh; eassumption|].
  pose proof (instantiate_result classes _ _ _ _ _ Hi) as Hc.
  destruct (applyJsonWith_fresh classes _ 0 everything a json
              (fromJson_allocates classes fuel) (Nat.le_0_l _)
              s0 tt s1 (Nat.le_0_l _) Ha) as [E1 _].
  destruct (fromJson_tail_post fuel c a skip s1 a s' (Nat.le_0_l _) Ht) as [E2 _].
  eapply evolves_classOf; [exact E2|]. eapply evolves_classOf; eassumption.
Qed.

Lemma clone_class fuel this c s copy s' :
  Store.classOf (heap s) this = Some c ->
  clone classes fuel this s = Ok (copy, s') ->
  copy = length (heap s) /\ Store.classOf (heap s') copy = Some c.
Proof.
  intros Hc Hrun. unfold clone, cloneWith in Hrun.
  apply bind_Ok in Hrun as (plain & s1 & Hread & Hrun).
  unfold reading in Hread. apply rbind_Ok in Hread as (p & _ & [= <- <-]).
  apply bind_Ok in Hrun as (c' & s2 & Hclass & Hrun).
  apply constructorOf_Ok in Hclass as (Hc' & -> & _).
  assert (c' = c) as -> by congruence.
  now apply fromJson_class in Hrun.
Qed.

(** Existing instances after a run that keeps everything below its
    starting size. *)
Lemma evolves_frame s s' b :
  evolves (length (heap s)) everything s s' ->
  b < length (heap s) ->
  Store.classOf (heap s') b = Store.classOf (heap s) b
  /\ forall k, Obj.get k (Store.ownProps (heap s') b)
               = Obj.get k (Store.ownProps (heap s) b).
Proof.
  intros E Hb. split.
  - unfold Store.classOf at 2.
    destruct (lookup_lt_is_Some_2 (heap s) b Hb) as [i Hi].
    rewrite Hi. cbn. eapply evolves_classOf; [exact E|].
    unfold Store.classOf. now rewrite Hi.
  - intros k. eapply evolves_get; [exact E | assumption | exact I].
Qed.

End CreationFacts.

(** X10: [fromJson] returns a new instance of the class it is called on and
    changes no member of any instance that existed before; unless the
    snapshot is skipped, the member [_originalState] of the result is
    another new instance of the same class. *)
Theorem fromJson_creates_instance :
  forall (classes : ClassId -> ClassDef) fuel c json skip s instance s',
    fromJson classes fuel c json skip s = Ok (instance, s') ->
    instance = length (heap s)
    /\ Store.classOf (heap s') instance = Some c
    /\ (forall b,
           b < length (heap s) ->
           Store.classOf (heap s') b = Store.classOf (heap s) b
           /\ forall k, Obj.get k (Store.ownProps (heap s') b)
                        = Obj.get k (Store.ownProps (heap s) b))
    /\ (skip = false ->
        exists snapshot,
          Store.getField (heap s') instance "_originalState" = VRef snapshot
          /\ instance < snapshot
          /\ Store.classOf (heap s') snapshot = Some c).
Proof.
  intros classes fuel c json skip s instance s' Hrun.
  destruct (fromJson_class classes _ _ _ _ _ _ _ Hrun) as [Haddr Hc].
  split; [assumption|]. split; [assumption|]. split.
  - intros b Hb. apply (evolves_frame classes); [|assumption].
    exact (proj1 (fromJson_allocates classes fuel c json skip (length (heap s))
                    s instance s' (Nat.le_refl _) Hrun)).
  - intros ->. destruct fuel as [|fuel]; [discriminate|].
    destruct (fromJson_run classes _ _ _ _ _ _ _ Hrun) as (s0 & s1 & Hi & Ha & Ht).
    pose proof (instantiate_result classes _ _ _ _ _ Hi) as Hc0.
    destruct (applyJsonWith_fresh classes _ 0 everything instance json
                (fromJson_allocates classes fuel) (Nat.le_0_l _)
                s0 tt s1 (Nat.le_0_l _) Ha) as [E1 _].
    pose proof (evolves_classOf _ _ _ _ _ _ _ E1 Hc0) as Hc1.
    apply bind_Ok in Ht as ([] & s2 & Hhook & Ht).
    destruct (runHook_post classes 0 everything _ instance (Nat.le_0_l _)
                s1 tt s2 (Nat.le_0_l _) Hhook) as [E2 _].
    pose proof (evolves_classOf _ _ _ _ _ _ _ E2 Hc1) as Hc2.
    apply bind_Ok in Ht as (snapshot & s3 & Hclone & Ht).
    destruct (clone_class classes _ _ _ _ _ _ Hc2 Hclone) as [-> Hsnap].
    apply bind_Ok in Ht as ([] & s4 & Hset & Hret). injection Hret as <-.
    injection Hset as <-. cbn [heap].
    pose proof (StoreFacts.classOf_valid _ _ _ Hc2) as Hvalid.
    pose proof (cloneWith_post classes fuel _ 0 instance
                  (fromJson_allocates classes fuel) s2 _ s3 (Nat.le_0_l _) Hclone)
      as [E3 _].
    pose proof (evolves_length _ _ _ _ _ E3) as L3.
    exists (length (heap s2)). split; [|split; [assumption|]].
    + unfold Store.getField, Obj.read.
      rewrite StoreFacts.writeField_ownProps by lia.
      now rewrite ObjFacts.get_set_eq.
    + now rewrite StoreFacts.writeField_classOf.
Qed.

(** X11: [clone] returns a new instance of the receiver's class and changes
    no member of any instance that existed before, the receiver
    included. *)
Theorem clone_creates_instance :
  forall (classes : ClassId -> ClassDef) fuel this c s copy s',
    Store.classOf (heap s) this = Some c ->
    clone classes fuel this s = Ok (copy, s') ->
    copy = length (heap s)
    /\ Store.classOf (heap s') copy = Some c
    /\ (forall b,
           b < length (heap s) ->
           Store.classOf (heap s') b = Store.classOf (heap s) b
           /\ forall k, Obj.get k (Store.ownProps (heap s') b)
                        = Obj.get k (Store.ownProps (heap s) b)).
Proof.
  intros classes fuel this c s copy s' Hc Hrun.
  destruct (clone_class classes _ _ _ _ _ _ Hc Hrun) as [Haddr Hcopy].
  split; [assumption|]. split; [assumption|].
  intros b Hb. apply (evolves_frame classes); [|assumption].
  exact (proj1 (cloneWith_post classes fuel _ (length (heap s)) this
                  (fromJson_allocates classes fuel) s copy s'
                  (Nat.le_refl _) Hrun)).
Qed.

(** ** What [applyJson] assigns *)

Section AssignmentFacts.

Variable classes : ClassId -> ClassDef.

Local Abbreviation post := (post classes).
Local Abbreviation evolves := (evolves classes).

Import ObjFacts StoreFacts EntriesFacts.

(** The step that assigns [k], in a loop over entries with distinct keys:
    the states before and after it, and what the rest of the loop keeps:
    the member it assigned and every other instance. *)
Lemma applyEntries_step rec c this k v es :
  allocates classes rec ->
  NoDup (Obj.keys es) ->
  Obj.get k es = Some v ->
  forall s s',
    Store.classOf (heap s) this = Some c ->
    forEach es (applyEntry classes rec c this) s = Ok (tt, s') ->
    exists s0 s1,
      applyEntry classes rec c this (k, v) s0 = Ok (tt, s1)
      /\ evolves 0 everything s s0
      /\ evolves (length (heap s1)) (fun b _ => b <> this) s1 s'
      /\ Obj.get k (Store.ownProps (heap s') this)
         = Obj.get k (Store.ownProps (heap s1) this).
Proof.
  intros Hrec. induction es as [|[k' v'] es IH]; [discriminate|].
  intros Hnd Hget s s' Hc Hrun. cbn [forEach] in Hrun.
  apply bind_Ok in Hrun as ([] & s1 & Hstep & Hrest).
  cbn [Obj.keys map fst] in Hnd. apply NoDup_cons in Hnd as [Hnotin Hnd].
  assert (evolves 0 everything s s1) as E.
  { refine (proj1 (applyEntry_post classes rec 0 everything c this (k', v')
                     Hrec _ s tt s1 _ Hstep)); [left|]; lia. }
  cbn [Obj.get] in Hget. destruct (String.eqb_spec k k') as [<-|Hne].
  - injection Hget as ->. exists s, s1.
    split; [assumption|]. split; [apply evolves_refl|].
    pose proof (applyEntries_frame classes rec this es _ _ c Hrec Hrest) as E'.
    split; [eapply evolves_weaken; [| |exact E'];
            [lia | intros b k0 _ Hb; now left]|].
    eapply evolves_get; [exact E' | |].
    + pose proof (evolves_length _ _ _ _ _ E).
      pose proof (classOf_valid _ _ _ Hc). lia.
    + right. right. intros Hin. apply Hnotin. now apply list_elem_of_In.
  - destruct (IH Hnd Hget s1 s' (evolves_classOf _ _ _ _ _ _ _ E Hc) Hrest)
      as (s0 & s2 & Hk & E0 & E2 & Hkeep).
    exists s0, s2. split; [assumption|].
    split; [eapply evolves_trans; eassumption|]. now split.
Qed.

(** What a step that returns assigns to a field without registered type:
    [Object(val)] under a name of [Object.prototype], the value after the
    field's transform otherwise. *)
Lemma applyEntry_untyped rec c this k v s s1 :
  has_key k (readOnly (classes c)) = false ->
  assoc k (types (classes c)) = None ->
  applyEntry classes rec c this (k, v) s = Ok (tt, s1) ->
  heap s1
  = Store.writeField this k
      (if Proto.inherited k then Proto.toObject v
       else transformed (classes c) k v) (heap s).
Proof.
  intros Hro Hty. unfold applyEntry, transformed. cbn [fst snd].
  rewrite Hro, Hty. destruct (Proto.inherited k).
  - destruct (assoc k (transforms (classes c))); [discriminate|].
    unfold inheritedEntry. destruct (String.eqb k "constructor"); [|discriminate].
    destruct v; try (now intros [= <-]).
    destruct (forallb Proto.isObject items); [now intros [= <-] | discriminate].
  - intros H. apply bind_Ok in H as (value & s0 & Hvalue & Hset).
    destruct (assoc k (transforms (classes c))) as [f|].
    + apply bind_Ok in Hvalue as ([] & s00 & Hlog & Hret).
      injection Hlog as <-. injection Hret as <- <-. now injection Hset as <-.
    + injection Hvalue as <- <-. now injection Hset as <-.
Qed.

(** A step that returns for a key that a decorator registered: the key is
    not the name of a member of [Object.prototype]. *)
Lemma applyEntry_registered rec c this k v s s1 :
  has_key k (readOnly (classes c)) = false ->
  assoc k (transforms (classes c)) <> None \/ assoc k (types (classes c)) <> None ->
  applyEntry classes rec c this (k, v) s = Ok (tt, s1) ->
  Proto.inherited k = false.
Proof.
  intros Hro Hreg. unfold applyEntry. cbn [fst snd]. rewrite Hro.
  destruct (Proto.inherited k); [|reflexivity].
  destruct (assoc k (transforms (classes c))), (assoc k (types (classes c)));
    try discriminate.
  destruct Hreg as [H|H]; now destruct H.
Qed.

End AssignmentFacts.

Section TypedFieldFacts.

Variable classes : ClassId -> ClassDef.

Local Abbreviation post := (post classes).
Local Abbreviation evolves := (evolves classes).

Import ObjFacts StoreFacts.

Variable fuel : nat.

Local Abbreviation rec := (fromJson classes fuel).

Lemma instanceOf_stable N keep s s' v C :
  evolves N keep s s' ->
  instanceOf classes (heap s) v C = true ->
  instanceOf classes (heap s') v C = true.
Proof.
  intros E. destruct v; try discriminate. cbn [instanceOf].
  destruct (Store.classOf (heap s) a) as [c|] eqn:Hc; [|discriminate].
  now rewrite (evolves_classOf _ _ _ _ _ _ _ E Hc).
Qed.

Lemma instanceOf_late s s' v C :
  evolves 0 everything s s' ->
  instanceOf classes (heap s') v C = false ->
  instanceOf classes (heap s) v C = false.
Proof.
  intros E Hlate. destruct (instanceOf classes (heap s) v C) eqn:Hearly;
    [|reflexivity].
  rewrite (instanceOf_stable _ _ _ _ _ _ E Hearly) in Hlate. discriminate.
Qed.

Lemma instanceOf_written a k x h v C :
  instanceOf classes (Store.writeField a k x h) v C = instanceOf classes h v C.
Proof.
  destruct v; try reflexivity. cbn [instanceOf]. now rewrite writeField_classOf.
Qed.

(** [imported] between two states holds between any earlier state and any
    later state that has kept the instances made since. *)
Lemma imported_stable C (keep : addr -> string -> Prop) s0 s s1 s' x w :
  evolves 0 everything s0 s ->
  evolves (length (heap s1)) keep s1 s' ->
  (forall b k, length (heap s0) <= b -> keep b k) ->
  imported classes fuel C s s1 x w -> imported classes fuel C s0 s' x w.
Proof.
  intros E0 E1 Hkeep
    [[-> Hinst]|(Hnot & a & t & t' & -> & Hrun & Hnew & Hclass & Hsame)].
  - left. split; [reflexivity|]. eapply instanceOf_stable; eassumption.
  - right. split; [eapply instanceOf_late; eassumption|].
    pose proof (evolves_length _ _ _ _ _ E0) as Hle.
    exists a, t, t'. split; [reflexivity|]. split; [assumption|].
    split; [lia|]. split; [eapply evolves_classOf; eassumption|].
    intros k. rewrite <- Hsame. eapply evolves_get; [exact E1 | |].
    + eapply classOf_valid; eassumption.
    + apply Hkeep. lia.
Qed.

Lemma coerce_result C v s w s1 :
  coerce classes rec C v s = Ok (w, s1) ->
  evolves (length (heap s)) everything s s1 /\ imported classes fuel C s s1 v w.
Proof.
  intros Hrun.
  pose proof (coerce_post classes rec (length (heap s)) everything C v
                (fromJson_allocates classes fuel)
                s w s1 (Nat.le_refl _) Hrun) as [E _].
  split; [assumption|]. unfold coerce in Hrun.
  destruct (instanceOf classes (heap s) v C) eqn:Hv.
  - injection Hrun as <- <-. left. now split.
  - right. split; [exact Hv|].
    apply bind_Ok in Hrun as (a & s2 & Hnew & Hret). injection Hret as <- <-.
    destruct (fromJson_class classes _ _ _ _ _ _ _ Hnew) as [-> Hclass].
    exists (length (heap s)), s, s2. now repeat split.
Qed.

Lemma coerce_all_result C items :
  forall s models s1,
    mapM (coerce classes rec C) items s = Ok (models, s1) ->
    evolves (length (heap s)) everything s s1
    /\ Forall2 (imported classes fuel C s s1) items models.
Proof.
  induction items as [|x items IH]; intros s models s1 Hrun; cbn [mapM] in Hrun.
  - injection Hrun as <- <-. split; [apply evolves_refl | constructor].
  - apply bind_Ok in Hrun as (m & s2 & Hx & Hrun).
    apply bind_Ok in Hrun as (ms & s3 & Hitems & Hret). injection Hret as <- <-.
    destruct (coerce_result _ _ _ _ _ Hx) as (E1 & Hm).
    destruct (IH _ _ _ Hitems) as (E2 & Hms).
    pose proof (evolves_length _ _ _ _ _ E1) as Hle.
    split.
    + eapply evolves_trans; [exact E1|].
      eapply evolves_weaken; [exact Hle | | exact E2]. auto.
    + constructor.
      * eapply imported_stable;
          [apply evolves_refl | exact E2 | intros; exact I | exact Hm].
      * eapply Forall2_impl; [exact Hms|]. intros y w Hy.
        eapply imported_stable;
          [|apply evolves_refl | intros; exact I | exact Hy].
        eapply evolves_weaken; [apply Nat.le_0_l | | exact E1]. auto.
Qed.

Lemma typedResult_stable C (keep : addr -> string -> Prop) s0 s s1 s' value w :
  evolves 0 everything s0 s ->
  evolves (length (heap s1)) keep s1 s' ->
  (forall b k, length (heap s0) <= b -> keep b k) ->
  typedResult classes fuel C s s1 value w ->
  typedResult classes fuel C s0 s' value w.
Proof.
  intros E0 E1 Hkeep. unfold typedResult.
  destruct value; try (now apply (imported_stable C keep)).
  intros (models & -> & Hall). exists models. split; [reflexivity|].
  eapply Forall2_impl; [exact Hall|]. intros y w Hy.
  eapply imported_stable; eassumption.
Qed.

(** The same relation, across an assignment to an instance that existed
    before. *)
Lemma imported_written C a k x b k' s s1 v w :
  a < length (heap s) ->
  imported classes fuel C s s1 v w ->
  imported classes fuel C
    {| heap := heap s; calls := b |}
    {| heap := Store.writeField a k x (heap s1); calls := k' |} v w.
Proof.
  intros Ha
    [[-> Hinst]|(Hnot & a0 & t & t' & -> & Hrun & Hnew & Hclass & Hsame)].
  - left. split; [reflexivity|]. cbn [heap]. now rewrite instanceOf_written.
  - right. split; [exact Hnot|]. exists a0, t, t'. cbn [heap].
    rewrite writeField_classOf.
    rewrite writeField_ownProps_other by lia. now repeat split.
Qed.

(** The member a step leaves in a field with a registered type. *)
Lemma applyEntry_typed c this k v C s s1 :
  this < length (heap s) ->
  has_key k (readOnly (classes c)) = false ->
  assoc k (types (classes c)) = Some C ->
  applyEntry classes rec c this (k, v) s = Ok (tt, s1) ->
  exists w,
    Obj.get k (Store.ownProps (heap s1) this) = Some w
    /\ typedResult classes fuel C s s1 (transformed (classes c) k v) w.
Proof.
  intros Hvalid Hro Hty Hrun.
  assert (Proto.inherited k = false) as Hin.
  { apply (applyEntry_registered classes _ _ _ _ _ _ _ Hro) in Hrun;
      [exact Hrun|]. right. rewrite Hty. discriminate. }
  revert Hrun. unfold applyEntry, transformed. cbn [fst snd].
  rewrite Hro, Hin, Hty. intros H.
  apply bind_Ok in H as (value & s0 & Hvalue & Hset).
  assert (heap s0 = heap s
          /\ value = match assoc k (transforms (classes c)) with
                     | Some f => f v
                     | None => v
                     end) as [Hheap ->].
  { destruct (assoc k (transforms (classes c))) as [f|].
    - apply bind_Ok in Hvalue as ([] & s00 & Hlog & Hret).
      injection Hlog as <-. now injection Hret as <- <-.
    - now injection Hvalue as <- <-. }
  set (value := match assoc k (transforms (classes c)) with
                | Some f => f v
                | None => v
                end) in *.
  assert (forall w s2,
             length (heap s) <= length (heap s2) ->
             Store.setField this k w s2 = Ok (tt, s1) ->
             Obj.get k (Store.ownProps (heap s1) this) = Some w
             /\ s1 = {| heap := Store.writeField this k w (heap s2);
                        calls := calls s2 |}) as Hassign.
  { intros w s2 Hlen [= <-]. cbn [heap]. split; [|reflexivity].
    rewrite writeField_ownProps by lia. apply get_set_eq. }
  assert (forall x w s2,
             imported classes fuel C s0 s2 x w ->
             imported classes fuel C s
               {| heap := Store.writeField this k w (heap s2);
                  calls := calls s2 |} x w) as Hlift.
  { intros x w s2 Hx.
    pose proof (imported_written C this k w (calls s) (calls s2) s0 s2 x w
                  ltac:(rewrite Hheap; exact Hvalid) Hx) as Hw.
    rewrite Hheap in Hw. destruct s as [hs cs]. exact Hw. }
  unfold typedResult.
  destruct value as [| |b|n|str|items|obj|a|p] eqn:Hvalue';
    try (apply bind_Ok in Hset as (w & s2 & Hw & Hset);
         destruct (coerce_result _ _ _ _ _ Hw) as (E & Himp);
         pose proof (evolves_length _ _ _ _ _ E) as Hle;
         rewrite Hheap in Hle;
         destruct (Hassign w s2 Hle Hset) as [Hget ->];
         exists w; split; [assumption|]; now apply Hlift).
  apply bind_Ok in Hset as (models & s2 & Hms & Hset).
  destruct (coerce_all_result _ _ _ _ _ Hms) as (E & Hall).
  pose proof (evolves_length _ _ _ _ _ E) as Hle. rewrite Hheap in Hle.
  destruct (Hassign (VArr models) s2 Hle Hset) as [Hget ->].
  exists (VArr models). split; [assumption|]. exists models.
  split; [reflexivity|].
  eapply Forall2_impl; [exact Hall|]. intros y w Hy.
  pose proof (imported_written C this k (VArr models) (calls s) (calls s2)
                s0 s2 y w ltac:(rewrite Hheap; exact Hvalid) Hy) as Hw.
  rewrite Hheap in Hw. destruct s as [hs cs]. exact Hw.
Qed.

End TypedFieldFacts.

Section ImportedFieldFacts.

Variable classes : ClassId -> ClassDef.

(** The step of an import of a plain object for a key of the converted
    input: it runs on an instance that exists, the states before and after
    it come from and lead to the states of the import, and the rest of the
    loop keeps what it assigned and every other instance. *)
Lemma applyJson_step fuel this c input s s' k v :
  Store.classOf (heap s) this = Some c ->
  NoDup (Obj.keys input) ->
  applyJson classes fuel this (VObj input) s = Ok (tt, s') ->
  Obj.get k (entries (heap s) (toCamelCase (VObj input))) = Some v ->
  exists s0 s1,
    applyEntry classes (fromJson classes fuel) c this (k, v) s0 = Ok (tt, s1)
    /\ this < length (heap s0)
    /\ evolves classes 0 everything s s0
    /\ evolves classes (length (heap s1)) (fun b _ => b <> this) s1 s'
    /\ Obj.get k (Store.ownProps (heap s') this)
       = Obj.get k (Store.ownProps (heap s1) this).
Proof.
  intros Hc Hnd Hrun Hget.
  destruct (applyJsonWith_run classes _ _ _ _ _ Hrun eq_refl)
    as (c' & Hc' & Hloop).
  assert (c' = c) as -> by congruence.
  destruct (applyEntries_step classes _ c this k v _
              (fromJson_allocates classes fuel)
              (camel_entries_NoDup (heap s) input Hnd) Hget s s' Hc Hloop)
    as (s0 & s1 & Hstep & E0 & E1 & Hkeep).
  exists s0, s1. split; [assumption|]. split.
  - eapply StoreFacts.classOf_valid, evolves_classOf; eassumption.
  - split; [exact E0|]. split; [exact E1 | exact Hkeep].
Qed.

(** The member a step leaves in a field without registered type. *)
Lemma untyped_step_assigns c this k v s0 s1 :
  this < length (heap s0) ->
  has_key k (readOnly (classes c)) = false ->
  assoc k (types (classes c)) = None ->
  forall rec,
    applyEntry classes rec c this (k, v) s0 = Ok (tt, s1) ->
    Obj.get k (Store.ownProps (heap s1) this)
    = Some (if Proto.inherited k then Proto.toObject v
            else transformed (classes c) k v).
Proof.
  intros Hvalid Hro Hty rec Hstep.
  rewrite (applyEntry_untyped classes _ _ _ _ _ _ _ Hro Hty Hstep).
  rewrite StoreFacts.writeField_ownProps by assumption.
  apply ObjFacts.get_set_eq.
Qed.

End ImportedFieldFacts.

(** X12: an import of a plain object, with no key twice, assigns every
    entry of the converted input whose field is neither read-only nor typed:
    under its key the instance then holds the value of the entry, after the
    field's transform when it has one.  The entries are those of the input
    itself when it has an own property [constructor], the key-converted ones
    otherwise; under a key that names a member of [Object.prototype], the
    import that returns has assigned [Object(value)]. *)
Theorem applyJson_assigns_transformed_value :
  forall (classes : ClassId -> ClassDef) fuel this c input s s' k v,
    Store.classOf (heap s) this = Some c ->
    NoDup (Obj.keys input) ->
    applyJson classes fuel this (VObj input) s = Ok (tt, s') ->
    Obj.get k (entries (heap s) (toCamelCase (VObj input))) = Some v ->
    has_key k (readOnly (classes c)) = false ->
    assoc k (types (classes c)) = None ->
    Store.getField (heap s') this k
    = (if Proto.inherited k then Proto.toObject v
       else transformed (classes c) k v)
    /\ (Proto.inherited k = true ->
        k = "constructor" /\ assoc k (transforms (classes c)) = None).
Proof.
  intros classes fuel this c input s s' k v Hc Hnd Hrun Hget Hro Hty.
  destruct (applyJson_step classes fuel this c input s s' k v Hc Hnd Hrun Hget)
    as (s0 & s1 & Hstep & Hvalid & _ & _ & Hkeep).
  split.
  - unfold Store.getField, Obj.read. rewrite Hkeep.
    now rewrite (untyped_step_assigns classes c this k v s0 s1 Hvalid Hro Hty
                   _ Hstep).
  - intros Hin. revert Hstep. unfold applyEntry. cbn [fst snd].
    rewrite Hro, Hin, Hty.
    destruct (assoc k (transforms (classes c))); [discriminate|].
    unfold inheritedEntry. destruct (String.eqb_spec k "constructor");
      [now split | discriminate].
Qed.

(** X13: an import of a plain object, with no key twice, leaves in every
    field that is typed and not read-only and that the converted input
    names, a model for the value of the entry (after the field's
    transform): the value itself when it is an instance of the registered
    class or of a class that extends it, and otherwise the instance that
    [ClassType.fromJson(value)], called during the import, returned, which
    is new and of the registered class.  For an array it leaves an array of
    such models, one for each element in order, each element passed through
    or built on its own. *)
Theorem applyJson_coerces_typed_field :
  forall (classes : ClassId -> ClassDef) fuel this c input s s' k v ClassType,
    Store.classOf (heap s) this = Some c ->
    NoDup (Obj.keys input) ->
    applyJson classes fuel this (VObj input) s = Ok (tt, s') ->
    Obj.get k (entries (heap s) (toCamelCase (VObj input))) = Some v ->
    has_key k (readOnly (classes c)) = false ->
    assoc k (types (classes c)) = Some ClassType ->
    exists w,
      Obj.get k (Store.ownProps (heap s') this) = Some w
      /\ typedResult classes fuel ClassType s s'
           (transformed (classes c) k v) w.
Proof.
  intros classes fuel this c input s s' k v C Hc Hnd Hrun Hget Hro Hty.
  destruct (applyJson_step classes fuel this c input s s' k v Hc Hnd Hrun Hget)
    as (s0 & s1 & Hstep & Hvalid & E0 & E1 & Hkeep).
  destruct (applyEntry_typed classes fuel c this k v C s0 s1 Hvalid Hro Hty
              Hstep) as (w & Hw & Hres).
  exists w. split; [now rewrite Hkeep|].
  eapply typedResult_stable; [exact E0 | exact E1 | | exact Hres].
  intros b k0 Hb. pose proof (StoreFacts.classOf_valid _ _ _ Hc). cbn. lia.
Qed.

Section ResetFacts.

Variable classes : ClassId -> ClassDef.

Local Abbreviation evolves := (evolves classes).

Import ObjFacts StoreFacts EntriesFacts.

Lemma toJson_object fuel h a options v :
  toJson classes fuel h a options = Ok v -> exists plain, v = VObj plain.
Proof.
  destruct fuel as [|fuel]; [discriminate|]. cbn [toJson].
  destruct (Store.classOf h a); [|discriminate]. intros H.
  apply rbind_Ok in H as (p & _ & [= <-]). now exists p.
Qed.

(** [toSnakeCaseKey] only returns a name without underscore for that name. *)
Lemma snake_plain :
  forall k t,
    forallb (fun c => negb (Keys.is_underscore c)) (list_ascii_of_string t)
    = true ->
    Keys.toSnakeCaseKey k = t -> k = t.
Proof.
  induction k as [|c k IH]; intros t Ht H; cbn [Keys.toSnakeCaseKey] in H.
  - exact H.
  - destruct (Keys.is_upper c); subst t; cbn in Ht; [discriminate|].
    apply andb_true_iff in Ht as [_ Ht]. f_equal. now apply IH.
Qed.

Lemma export_NoDup nested C fuel h this options xs :
  forall acc out,
    foldRes (exportKey nested C fuel h this options) xs acc = Ok out ->
    NoDup (Obj.keys acc) -> NoDup (Obj.keys out).
Proof.
  induction xs as [|x xs IH]; intros acc out Hrun Hacc; cbn [foldRes] in Hrun.
  - now injection Hrun as <-.
  - apply rbind_Ok in Hrun as (acc1 & Hstep & Hrest).
    apply (IH _ _ Hrest).
    destruct (exportKey_cases _ _ _ _ _ _ _ _ _ Hstep) as [->|(_ & o & ->)];
      [assumption | now apply set_NoDup].
Qed.

(** The names in an export are outputs of [toSnakeCaseKey]. *)
Lemma export_names nested C fuel h this options xs out k :
  foldRes (exportKey nested C fuel h this options) xs [] = Ok out ->
  In k (Obj.keys out) -> noUpperCase k = true.
Proof.
  intros Hrun Hin.
  assert (Obj.has k out = true) as Hhas.
  { unfold Obj.has. destruct (Obj.get k out) eqn:E; [reflexivity|].
    now apply get_none_keys in E. }
  destruct (export_origin _ _ _ _ _ _ _ _ _ _ Hrun Hhas)
    as [Hacc|(key & _ & _ & <-)]; [discriminate|].
  apply KeyRoundTrips.snake_noUpperCase.
Qed.

(** No name of an export of the own keys is [constructor]: the export of an
    instance with such an own property raises an error at the first field
    that it offers. *)
Lemma export_no_constructor nested C fuel h this options out :
  foldRes (exportKey nested C fuel h this options)
    (Obj.keys (Store.ownProps h this)) [] = Ok out ->
  Obj.has "constructor" out = false.
Proof.
  intros Hrun. destruct (Obj.has "constructor" out) eqn:Hhas; [|reflexivity].
  destruct (export_origin _ _ _ _ _ _ _ _ _ _ Hrun Hhas)
    as [Hacc|(key & Hin & _ & Hk)]; [discriminate|].
  apply snake_plain in Hk; [|reflexivity]. subst key.
  destruct (export_static _ _ _ _ _ _ _ _ _ Hrun) as [->|Hno];
    [discriminate|].
  unfold Obj.has in Hno.
  destruct (Obj.get "constructor" (Store.ownProps h this)) eqn:E;
    [discriminate|].
  now apply get_none_keys in E.
Qed.

Lemma toJson_no_constructor fuel h a options plain :
  toJson classes fuel h a options = Ok (VObj plain) ->
  Obj.has "constructor" plain = false.
Proof.
  destruct fuel as [|fuel]; [discriminate|]. cbn [toJson].
  destruct (Store.classOf h a); [|discriminate]. intros H.
  apply rbind_Ok in H as (p & Hloop & [= <-]).
  exact (export_no_constructor _ _ _ _ _ _ _ Hloop).
Qed.

Lemma toJson_NoDup fuel h a options plain :
  toJson classes fuel h a options = Ok (VObj plain) -> NoDup (Obj.keys plain).
Proof.
  destruct fuel as [|fuel]; [discriminate|]. cbn [toJson].
  destruct (Store.classOf h a); [|discriminate]. intros H.
  apply rbind_Ok in H as (p & Hloop & [= <-]).
  eapply export_NoDup; [exact Hloop | constructor].
Qed.

(** An export that is not empty is that of an instance without own property
    [constructor]. *)
Lemma toJson_static fuel h a options plain :
  toJson classes fuel h a options = Ok (VObj plain) ->
  plain = [] \/ Obj.has "constructor" (Store.ownProps h a) = false.
Proof.
  destruct fuel as [|fuel]; [discriminate|]. cbn [toJson].
  destruct (Store.classOf h a); [|discriminate]. intros H.
  apply rbind_Ok in H as (p & Hloop & [= <-]).
  exact (export_static _ _ _ _ _ _ _ _ _ Hloop).
Qed.

(** The keys of a camel-cased plain object without own property
    [constructor] are outputs of the key conversion. *)
Lemma camel_keys_settled h input k :
  Obj.has "constructor" input = false ->
  In k (Obj.keys (entries h (toCamelCase (VObj input)))) ->
  Keys.settled k = true.
Proof.
  intros Hno. rewrite camel_entries. unfold Proto.constructorIsObject.
  rewrite Hno. cbn [negb]. unfold Obj.keys. intros Hin.
  apply in_map_iff in Hin as ([k' v] & <- & He).
  apply ValueFacts.fromEntries_In in He.
  apply in_map_iff in He as ([k0 v0] & [= <- _] & _).
  apply KeysFacts.camel_settled.
Qed.

Lemma applyJson_object_frame fuel this c input s s' :
  Store.classOf (heap s) this = Some c ->
  applyJson classes fuel this (VObj input) s = Ok (tt, s') ->
  forall b k,
    b < length (heap s) ->
    b <> this \/ has_key k (readOnly (classes c)) = true
    \/ ~ In k (Obj.keys (entries (heap s) (toCamelCase (VObj input)))) ->
    Obj.get k (Store.ownProps (heap s') b) = Obj.get k (Store.ownProps (heap s) b).
Proof.
  intros Hc Hrun b k Hb Hk.
  pose proof (applyJsonWith_frame classes _ _ _ _ _ c
                (fromJson_allocates classes fuel) Hc Hrun) as E.
  eapply evolves_get; [exact E | assumption | exact Hk].
Qed.

Lemma reset_run fuel this s s' :
  reset classes fuel this s = Ok (tt, s') ->
  (truthy (Store.getField (heap s) this "_originalState") = false /\ s' = s)
  \/ exists snapshot plain,
       Store.getField (heap s) this "_originalState" = VRef snapshot
       /\ toJson classes fuel (heap s) snapshot noOptions = Ok (VObj plain)
       /\ applyJson classes fuel this (VObj plain) s = Ok (tt, s').
Proof.
  unfold reset. intros H.
  apply bind_Ok in H as (original & s0 & Hread & H).
  injection Hread as <- <-.
  destruct (truthy (Store.getField (heap s) this "_originalState")) eqn:Ht.
  - right. destruct (Store.getField (heap s) this "_originalState")
      as [| | | | | | |snapshot|]; try discriminate H.
    apply bind_Ok in H as (plain & s1 & Hplain & H).
    unfold reading in Hplain.
    apply rbind_Ok in Hplain as (v & Hv & [= <- <-]).
    destruct (toJson_object _ _ _ _ _ Hv) as [p ->]. now exists snapshot, p.
  - left. now injection H as <-.
Qed.

(** A step that returns for a field without registered type whose name is
    that of a member of [Object.prototype]: the name is [constructor], and
    the field has no transform. *)
Lemma applyEntry_inherited_Ok rec c this k v s s1 :
  has_key k (readOnly (classes c)) = false ->
  assoc k (types (classes c)) = None ->
  Proto.inherited k = true ->
  applyEntry classes rec c this (k, v) s = Ok (tt, s1) ->
  k = "constructor" /\ assoc k (transforms (classes c)) = None.
Proof.
  intros Hro Hty Hin. unfold applyEntry. cbn [fst snd]. rewrite Hro, Hin, Hty.
  destruct (assoc k (transforms (classes c))); [discriminate|].
  unfold inheritedEntry. destruct (String.eqb_spec k "constructor");
    [now split | discriminate].
Qed.

End ResetFacts.

(** X14: an import of a plain object assigns only keys of the converted
    input.  When the input has no own property [constructor], these are
    outputs of the key conversion: a member whose name has an underscore
    followed by a lower-case letter is never assigned, so [applyJson] and
    [merge] of such an object leave the snapshot under [_originalState] in
    place.  (An input with an own property [constructor] is imported under
    its own keys, whatever they are.) *)
Theorem applyJson_never_assigns_snake_key :
  forall (classes : ClassId -> ClassDef) fuel this c input s s',
    Store.classOf (heap s) this = Some c ->
    merge classes fuel this (VObj input) s = Ok (tt, s') ->
    (forall k,
        ~ In k (Obj.keys (entries (heap s) (toCamelCase (VObj input)))) ->
        Obj.get k (Store.ownProps (heap s') this)
        = Obj.get k (Store.ownProps (heap s) this))
    /\ (Obj.has "constructor" input = false ->
        (forall k,
            Keys.settled k = false ->
            Obj.get k (Store.ownProps (heap s') this)
            = Obj.get k (Store.ownProps (heap s) this))
        /\ Store.getField (heap s') this "_originalState"
           = Store.getField (heap s) this "_originalState").
Proof.
  intros classes fuel this c input s s' Hc Hrun.
  pose proof (StoreFacts.classOf_valid _ _ _ Hc) as Hvalid.
  assert (forall k,
             ~ In k (Obj.keys (entries (heap s) (toCamelCase (VObj input)))) ->
             Obj.get k (Store.ownProps (heap s') this)
             = Obj.get k (Store.ownProps (heap s) this)) as Hkeep.
  { intros k Hk.
    apply (applyJson_object_frame classes fuel this c input s s' Hc Hrun);
      [assumption | now right; right]. }
  split; [exact Hkeep|]. intros Hno.
  assert (forall k,
             Keys.settled k = false ->
             Obj.get k (Store.ownProps (heap s') this)
             = Obj.get k (Store.ownProps (heap s) this)) as Hsnake.
  { intros k Hk. apply Hkeep. intros Hin.
    apply (camel_keys_settled (heap s) input k Hno) in Hin. congruence. }
  split; [exact Hsnake|].
  unfold Store.getField, Obj.read. now rewrite Hsnake.
Qed.

(** X15: [reset] does nothing on an instance without snapshot; otherwise it
    imports the export of the snapshot, and then it leaves the read-only
    fields of the instance, its [_originalState], and every member of every
    other existing instance, the snapshot included, as they are. *)
Theorem reset_keeps_readonly_and_snapshot :
  forall (classes : ClassId -> ClassDef) fuel this c s s',
    Store.classOf (heap s) this = Some c ->
    reset classes fuel this s = Ok (tt, s') ->
    (truthy (Store.getField (heap s) this "_originalState") = false -> s' = s)
    /\ (forall k,
           has_key k (readOnly (classes c)) = true ->
           Store.getField (heap s') this k = Store.getField (heap s) this k)
    /\ Store.getField (heap s') this "_originalState"
       = Store.getField (heap s) this "_originalState"
    /\ (forall b k,
           b < length (heap s) -> b <> this ->
           Obj.get k (Store.ownProps (heap s') b)
           = Obj.get k (Store.ownProps (heap s) b)).
Proof.
  intros classes fuel this c s s' Hc Hrun.
  pose proof (StoreFacts.classOf_valid _ _ _ Hc) as Hvalid.
  destruct (reset_run classes _ _ _ _ Hrun)
    as [[Hnone ->]|(snapshot & plain & Horig & Hexport & Happly)].
  - split; [reflexivity|]. now repeat split.
  - pose proof (applyJson_object_frame classes fuel this c plain s s' Hc Happly)
      as Hframe.
    split; [rewrite Horig; discriminate|]. unfold Store.getField, Obj.read.
    split; [|split].
    + intros k Hk. rewrite (Hframe this k Hvalid); [reflexivity|].
      right. now left.
    + rewrite (Hframe this "_originalState" Hvalid); [reflexivity|].
      right. right. intros Hin.
      apply (camel_keys_settled (heap s) plain "_originalState"
               (toJson_no_constructor classes _ _ _ _ _ Hexport)) in Hin.
      discriminate Hin.
    + intros b k Hb Hne. apply Hframe; [assumption | now left].
Qed.

Section RestoreFacts.

Variable classes : ClassId -> ClassDef.

Import ObjFacts StoreFacts EntriesFacts.

(** Reading an object rebuilt by [Object.fromEntries] over renamed keys, at a
    key that no other key is renamed to. *)
Lemma fold_set_renamed (f : string -> string) (g : Value -> Value) k x :
  forall ps acc,
    NoDup (Obj.keys ps) ->
    (forall k2, In k2 (Obj.keys ps) -> f k2 = f k -> k2 = k) ->
    let out :=
      fold_left (fun acc e => Obj.set (fst e) (snd e) acc)
        (map (fun kv => (f (fst kv), g (snd kv))) ps) acc in
    (Obj.get k ps = Some x -> Obj.get (f k) out = Some (g x))
    /\ (~ In k (Obj.keys ps) -> Obj.get (f k) out = Obj.get (f k) acc).
Proof.
  induction ps as [|[k1 v1] ps IH]; intros acc Hnd Hunique; cbn zeta.
  - split; [discriminate | reflexivity].
  - cbn [Obj.keys map fst] in Hnd. apply NoDup_cons in Hnd as [Hnotin Hnd].
    rewrite list_elem_of_In in Hnotin.
    assert (forall k2, In k2 (Obj.keys ps) -> f k2 = f k -> k2 = k) as Hunique'
      by (intros k2 Hin; apply Hunique; now right).
    cbn [map fold_left fst snd].
    destruct (IH (Obj.set (f k1) (g v1) acc) Hnd Hunique') as [IHin IHout].
    cbn zeta in IHin, IHout. split.
    + cbn [Obj.get]. destruct (String.eqb_spec k k1) as [->|Hne].
      * intros [= ->]. rewrite (IHout Hnotin). apply get_set_eq.
      * exact IHin.
    + intros Hout. cbn [Obj.keys map fst In] in Hout.
      rewrite IHout by tauto. apply get_set_ne.
      intros E. apply Hout. left. apply Hunique; [now left | now symmetry].
Qed.

Lemma get_fromEntries_renamed (f : string -> string) (g : Value -> Value) ps k x :
  NoDup (Obj.keys ps) ->
  (forall k2, In k2 (Obj.keys ps) -> f k2 = f k -> k2 = k) ->
  Obj.get k ps = Some x ->
  Obj.get (f k) (Obj.fromEntries (map (fun kv => (f (fst kv), g (snd kv))) ps))
  = Some (g x).
Proof.
  intros Hnd Hunique. unfold Obj.fromEntries.
  exact (proj1 (fold_set_renamed f g k x ps [] Hnd Hunique)).
Qed.

(** What the export holds for a field that it offers and that is not a
    model. *)
Lemma export_offered_get fuel h a c plain key v :
  Store.classOf h a = Some c ->
  toJson classes fuel h a noOptions = Ok (VObj plain) ->
  Obj.get key (Store.ownProps h a) = Some v ->
  (forall b, v <> VRef b) ->
  Keys.startsWithUnderscore key = false ->
  has_key key (excluded (classes c)) = false ->
  (forall key', In key' (Obj.keys (Store.ownProps h a)) ->
                Keys.toSnakeCaseKey key' = Keys.toSnakeCaseKey key -> key' = key) ->
  Obj.get (Keys.toSnakeCaseKey key) plain = Some (toSnakeCase v).
Proof.
  intros Hc Hrun Hget Hplainv Hunder Hexcl Hunique.
  destruct fuel as [|fuel]; [discriminate|].
  pose proof (toJson_run classes _ _ _ _ _ _ Hc Hrun) as Hloop.
  destruct (ExportValueFacts.export_get _ _ _ _ _ _ _ _ Hunique _ _ Hloop)
    as [_ Hemit].
  assert (Store.getField h a key = v) as Hfield
    by (unfold Store.getField, Obj.read; now rewrite Hget).
  apply Hemit.
  - now repeat split.
  - reflexivity.
  - rewrite Hfield. destruct v; try reflexivity. now destruct (Hplainv a0).
  - left. eapply get_in_keys; eassumption.
Qed.

(** What the import of an export reads under [key]. *)
Lemma export_camel_get fuel h a plain key x :
  toJson classes fuel h a noOptions = Ok (VObj plain) ->
  Obj.get (Keys.toSnakeCaseKey key) plain = Some x ->
  Keys.settled key = true ->
  Obj.get key (entries h (toCamelCase (VObj plain))) = Some (toCamelCase x).
Proof.
  intros Hrun Hout Hsettled.
  rewrite camel_entries. unfold Proto.constructorIsObject.
  rewrite (toJson_no_constructor classes _ _ _ _ _ Hrun). cbn [negb].
  rewrite <- (KeysFacts.camel_snake_settled key Hsettled) at 1.
  apply get_fromEntries_renamed; [| |exact Hout].
  - exact (toJson_NoDup classes _ _ _ _ _ Hrun).
  - intros k2 Hin E.
    assert (noUpperCase k2 = true) as Hk2.
    { destruct fuel as [|fuel]; [discriminate|]. cbn [toJson] in Hrun.
      destruct (Store.classOf h a); [|discriminate].
      apply rbind_Ok in Hrun as (p & Hloop & [= <-]).
      eapply export_names; eassumption. }
    rewrite <- (KeyRoundTrips.snake_camel_noUpperCase k2 Hk2).
    rewrite E. apply KeyRoundTrips.snake_camel_noUpperCase.
    apply KeyRoundTrips.snake_noUpperCase.
Qed.

End RestoreFacts.

(** X16: what [reset] puts back.  For a field of the snapshot that its
    export offers (no leading underscore, not excluded, no other field with
    the same external name), whose name is in camel case and whose value is
    not a model, and that is neither read-only nor typed on the instance:
    after [reset] the instance holds the snapshot's value, taken through
    [toSnakeCase] and [toCamelCase] and then through the field's transform
    once more; the two key conversions cancel when the value has camel-case
    keys only, an object with an own property [constructor], which neither
    conversion enters, counting as such. *)
Theorem reset_restores_field :
  forall (classes : ClassId -> ClassDef) fuel this c snapshot c' key v s s',
    Store.classOf (heap s) this = Some c ->
    Store.getField (heap s) this "_originalState" = VRef snapshot ->
    Store.classOf (heap s) snapshot = Some c' ->
    reset classes fuel this s = Ok (tt, s') ->
    Obj.get key (Store.ownProps (heap s) snapshot) = Some v ->
    (forall b, v <> VRef b) ->
    Keys.startsWithUnderscore key = false ->
    has_key key (excluded (classes c')) = false ->
    Keys.settled key = true ->
    (forall key', In key' (Obj.keys (Store.ownProps (heap s) snapshot)) ->
                  Keys.toSnakeCaseKey key' = Keys.toSnakeCaseKey key ->
                  key' = key) ->
    has_key key (readOnly (classes c)) = false ->
    assoc key (types (classes c)) = None ->
    Store.getField (heap s') this key
    = transformed (classes c) key (toCamelCase (toSnakeCase v))
    /\ (camelKeyed v = true ->
        Store.getField (heap s') this key = transformed (classes c) key v).
Proof.
  intros classes fuel this c snapshot c' key v s s' Hc Horig Hc' Hrun Hget
    Hplainv Hunder Hexcl Hsettled Hunique Hro Hty.
  destruct (reset_run classes _ _ _ _ Hrun)
    as [[Hnone _]|(snapshot' & plain & Horig' & Hexport & Happly)];
    [rewrite Horig in Hnone; discriminate|].
  assert (snapshot' = snapshot) as -> by congruence.
  pose proof (export_offered_get classes _ _ _ _ _ _ _ Hc' Hexport Hget Hplainv
                Hunder Hexcl Hunique) as Hout.
  pose proof (export_camel_get classes _ _ _ _ _ _ Hexport Hout Hsettled)
    as Hinput.
  assert (Store.getField (heap s') this key
          = transformed (classes c) key (toCamelCase (toSnakeCase v))) as Hfield.
  { destruct (applyJson_step classes fuel this c plain s s' key _ Hc
                (toJson_NoDup classes _ _ _ _ _ Hexport) Happly Hinput)
      as (s0 & s1 & Hstep & Hvalid & _ & _ & Hkeep).
    unfold Store.getField, Obj.read. rewrite Hkeep.
    rewrite (untyped_step_assigns classes c this key _ s0 s1 Hvalid Hro
               Hty _ Hstep).
    destruct (Proto.inherited key) eqn:Hin; [|reflexivity]. exfalso.
    destruct (applyEntry_inherited_Ok classes _ _ _ _ _ _ _ Hro Hty Hin Hstep)
      as [-> _].
    destruct (toJson_static classes _ _ _ _ _ Hexport) as [->|Hno];
      [discriminate Hout|].
    unfold Obj.has in Hno. rewrite Hget in Hno. discriminate Hno. }
  split; [exact Hfield|]. intros Hkeys. rewrite Hfield. f_equal.
  rewrite ValueFacts.toSnakeCase_rekey, ValueFacts.toCamelCase_rekey.
  apply (ValueFacts.rekey_round_trip _ _ Keys.settled);
    [|reflexivity|exact Hkeys].
  apply KeysFacts.camel_snake_settled.
Qed.

Section ComparisonFacts.

Import ObjFacts.

Lemma sameText_refl x : Json.sameText x x = true.
Proof. destruct x as [s|]; [apply String.eqb_refl | reflexivity]. Qed.

Lemma differs_same fuel h this other key b :
  Store.member h other key = Store.getField h this key ->
  differs fuel h this other key = Ok b -> b = false.
Proof.
  intros Hsame. unfold differs. rewrite Hsame. intros H.
  apply rbind_Ok in H as (mine & Hm & H).
  apply rbind_Ok in H as (theirs & Ht & [= <-]).
  assert (theirs = mine) as -> by congruence. now rewrite sameText_refl.
Qed.

Lemma diff_loop_same fuel h this other xs :
  (forall key, In key xs ->
               Store.member h other key = Store.getField h this key) ->
  forall acc out,
    foldRes (diffKey fuel h this other) xs acc = Ok out -> out = acc.
Proof.
  induction xs as [|x xs IH]; intros Hsame acc out Hrun; cbn [foldRes] in Hrun.
  - now injection Hrun as <-.
  - apply rbind_Ok in Hrun as (acc1 & Hstep & Hrest).
    rewrite (IH (fun key Hin => Hsame key (or_intror Hin)) _ _ Hrest).
    destruct (DiffFacts.diffKey_cases _ _ _ _ _ _ _ Hstep)
      as [[Hd _]|[_ ->]]; [|reflexivity].
    now apply (differs_same _ _ _ _ _ _ (Hsame x (or_introl eq_refl))) in Hd.
Qed.

Lemma diff_loop_keys fuel h this other xs key :
  forall acc out,
    foldRes (diffKey fuel h this other) xs acc = Ok out ->
    Obj.has key out = true -> Obj.has key acc = true \/ In key xs.
Proof.
  induction xs as [|x xs IH]; intros acc out Hrun Hhas; cbn [foldRes] in Hrun.
  - injection Hrun as <-. now left.
  - apply rbind_Ok in Hrun as (acc1 & Hstep & Hrest).
    destruct (IH _ _ Hrest Hhas) as [Hacc1|Hin]; [|right; now right].
    destruct (DiffFacts.diffKey_cases _ _ _ _ _ _ _ Hstep)
      as [[_ ->]|[_ ->]]; [|now left].
    apply has_set_inv in Hacc1 as [->|Hacc]; [right; now left | now left].
Qed.

End ComparisonFacts.

(** X18: [diff] only reports members of the receiver: a key of the result
    is an own key of the receiver, whatever else the other value holds; and
    the result is empty when the other value has, under every own key of the
    receiver, the value the receiver has, as the receiver itself does. *)
Theorem diff_reports_own_members_only :
  forall fuel h this other diffs,
    diff fuel h this other = Ok (VObj diffs) ->
    (forall key, Obj.has key diffs = true ->
                 In key (Obj.keys (Store.ownProps h this)))
    /\ ((forall key, In key (Obj.keys (Store.ownProps h this)) ->
                     Store.member h other key = Store.getField h this key) ->
        diffs = [])
    /\ (other = VRef this -> diffs = []).
Proof.
  intros fuel h this other diffs Hrun. unfold diff in Hrun.
  apply rbind_Ok in Hrun as (out & Hloop & [= <-]).
  assert ((forall key, In key (Obj.keys (Store.ownProps h this)) ->
                       Store.member h other key = Store.getField h this key) ->
          out = []) as Hsame
    by (intros Hall; exact (diff_loop_same _ _ _ _ _ Hall _ _ Hloop)).
  split; [|split].
  - intros key Hhas.
    destruct (diff_loop_keys _ _ _ _ _ _ _ _ Hloop Hhas) as [Hempty|Hin];
      [discriminate | exact Hin].
  - exact Hsame.
  - intros ->. apply Hsame. reflexivity.
Qed.

(** ** Registration by the decorators *)

Module DecoratorFacts.
Import Decorator.

Lemma assoc_put_eq {A} k (x : A) m : assoc k (put k x m) = Some x.
Proof.
  induction m as [|[k' y] m IH]; cbn [put assoc].
  - now rewrite String.eqb_refl.
  - destruct (String.eqb k k') eqn:E; cbn [assoc].
    + now rewrite String.eqb_refl.
    + now rewrite E.
Qed.

Lemma assoc_put_ne {A} k k' (x : A) m :
  k' <> k -> assoc k' (put k x m) = assoc k' m.
Proof.
  intros Hne. induction m as [|[k2 y] m IH]; cbn [put assoc].
  - apply String.eqb_neq in Hne. now rewrite Hne.
  - destruct (String.eqb_spec k k2) as [->|Hk]; cbn [assoc].
    + apply String.eqb_neq in Hne. now rewrite Hne.
    + now rewrite IH.
Qed.

Lemma has_key_app k s t : has_key k (s ++ t) = has_key k s || has_key k t.
Proof. apply existsb_app. Qed.

Lemma has_key_add_eq k s : has_key k (add k s) = true.
Proof.
  unfold add. destruct (has_key k s) eqn:E; [assumption|].
  rewrite has_key_app. cbn. rewrite String.eqb_refl. apply orb_true_r.
Qed.

Lemma has_key_add_ne k k' s : k' <> k -> has_key k' (add k s) = has_key k' s.
Proof.
  intros Hne. unfold add. destruct (has_key k s); [reflexivity|].
  rewrite has_key_app. cbn. apply String.eqb_neq in Hne. rewrite Hne.
  now rewrite !orb_false_r.
Qed.

Lemma put_keys {A} k (x : A) m :
  map fst (put k x m) = if has_key k (map fst m) then map fst m
                        else map fst m ++ [k].
Proof.
  induction m as [|[k' y] m IH]; [reflexivity|].
  cbn [put map fst has_key existsb].
  destruct (String.eqb_spec k k') as [->|Hne]; cbn [orb map fst].
  - reflexivity.
  - rewrite IH. fold (has_key k (map fst m)).
    now destruct (has_key k (map fst m)).
Qed.

(** A registry filled by a decorator holds no key twice. *)
Lemma put_NoDup {A} k (x : A) m :
  NoDup (map fst m) -> NoDup (map fst (put k x m)).
Proof.
  intros Hnd. rewrite put_keys.
  destruct (has_key k (map fst m)) eqn:E; [assumption|].
  apply NoDup_app. split; [assumption|]. split.
  - intros y Hy Hy'. apply list_elem_of_singleton in Hy'. subst y.
    apply list_elem_of_In, ValueFacts.has_key_In in Hy. congruence.
  - apply NoDup_singleton.
Qed.

End DecoratorFacts.

(** ** [applyDefaults] *)

Section DefaultFacts.

Variable classes : ClassId -> ClassDef.

Local Abbreviation post := (post classes).
Local Abbreviation evolves := (evolves classes).

Import ObjFacts StoreFacts.

Lemma assoc_none_keys {A} k (m : list (string * A)) :
  ~ In k (map fst m) -> assoc k m = None.
Proof.
  induction m as [|[k' x] m IH]; [reflexivity|]. cbn [map fst In assoc].
  intros Hk. destruct (String.eqb_spec k k') as [->|Hne]; [tauto|].
  apply IH. tauto.
Qed.

(** What a loop of initialisers leaves in the members of the instance it
    runs on. *)
Lemma initFields_assign fuel this k :
  forall inits s s',
    this < length (heap s) ->
    NoDup (map fst inits) ->
    forEach inits
      (fun ki => bind (evalInit (construct classes fuel) (snd ki))
                   (fun v => Store.setField this (fst ki) v)) s = Ok (tt, s') ->
    match assoc k inits with
    | Some (InitValue v) => Obj.get k (Store.ownProps (heap s') this) = Some v
    | Some (InitNew C) =>
        exists a,
          Obj.get k (Store.ownProps (heap s') this) = Some (VRef a)
          /\ length (heap s) <= a
          /\ Store.classOf (heap s') a = Some C
    | None =>
        Obj.get k (Store.ownProps (heap s') this)
        = Obj.get k (Store.ownProps (heap s) this)
    end.
Proof.
  induction inits as [|[k1 i1] inits IH]; intros s s' Hvalid Hnd Hrun.
  - injection Hrun as <-. reflexivity.
  - cbn [forEach] in Hrun.
    apply bind_Ok in Hrun as ([] & s2 & Hstep & Hrest).
    apply bind_Ok in Hstep as (v & s1 & Hinit & Hset).
    injection Hset as <-. cbn [fst snd] in *.
    cbn [map fst] in Hnd. apply NoDup_cons in Hnd as [Hnotin Hnd].
    rewrite list_elem_of_In in Hnotin.
    assert (evolves (length (heap s)) everything s s1) as E1.
    { refine (proj1 (evalInit_post classes (length (heap s)) everything _ i1
                       _ s v s1 (Nat.le_refl _) Hinit)).
      intros d. eapply post_consequence; [apply construct_post | auto]. }
    pose proof (evolves_length _ _ _ _ _ E1) as Hlen1.
    set (s2 := {| heap := Store.writeField this k1 v (heap s1);
                  calls := calls s1 |}) in *.
    assert (length (heap s2) = length (heap s1)) as Hlen2
      by apply writeField_length.
    assert (evolves 0 everything s2 s') as E2.
    { refine (proj1 (initFields_post classes 0 everything _ this inits
                       (Nat.le_0_l _) _ s2 tt s' (Nat.le_0_l _) Hrest)).
      intros d. eapply post_consequence; [apply construct_post | auto]. }
    specialize (IH s2 s' ltac:(lia) Hnd Hrest).
    assert (Obj.get k (Store.ownProps (heap s1) this)
            = Obj.get k (Store.ownProps (heap s) this)) as Hkeep
      by (eapply evolves_get; [exact E1 | assumption | exact I]).
    cbn [assoc]. destruct (String.eqb_spec k k1) as [->|Hne].
    + rewrite (assoc_none_keys _ _ Hnotin) in IH. rewrite IH.
      subst s2. cbn [heap]. rewrite writeField_ownProps by lia.
      rewrite get_set_eq. destruct i1 as [v0|C]; cbn [evalInit] in Hinit.
      * now injection Hinit as <- _.
      * apply bind_Ok in Hinit as (a & s0 & Hnew & Hret).
        injection Hret as <- <-.
        destruct (construct_result classes _ _ _ _ _ Hnew) as [-> Hclass].
        exists (length (heap s)). split; [reflexivity|]. split; [lia|].
        eapply evolves_classOf; [exact E2|]. cbn [heap].
        now rewrite writeField_classOf.
    + assert (Obj.get k (Store.ownProps (heap s2) this)
              = Obj.get k (Store.ownProps (heap s) this)) as Hsame.
      { subst s2. cbn [heap]. rewrite writeField_ownProps by lia.
        now rewrite get_set_ne. }
      destruct (assoc k inits) as [[v0|C]|].
      * exact IH.
      * destruct IH as (a & Hget & Hge & Hclass). exists a.
        split; [assumption|]. split; [lia | assumption].
      * now rewrite IH.
Qed.

End DefaultFacts.

(** X19: [applyDefaults] calls every registered provider and assigns its
    result: afterwards a field with a provider holds the provider's value
    (for a provider that builds a model, a new instance of that class); a
    field without provider is as before. *)
Theorem applyDefaults_assigns_provided_values :
  forall (classes : ClassId -> ClassDef) fuel this c s s' key,
    Store.classOf (heap s) this = Some c ->
    NoDup (map fst (defaults (classes c))) ->
    applyDefaults classes fuel this s = Ok (tt, s') ->
    match assoc key (defaults (classes c)) with
    | Some (InitValue v) => Store.getField (heap s') this key = v
    | Some (InitNew C) =>
        exists a,
          Store.getField (heap s') this key = VRef a
          /\ length (heap s) <= a
          /\ Store.classOf (heap s') a = Some C
    | None =>
        Obj.get key (Store.ownProps (heap s') this)
        = Obj.get key (Store.ownProps (heap s) this)
    end.
Proof.
  intros classes fuel this c s s' key Hc Hnd Hrun. unfold applyDefaults in Hrun.
  apply bind_Ok in Hrun as (c' & s0 & Hclass & Hloop).
  unfold classOfThis in Hclass. rewrite Hc in Hclass. injection Hclass as <- <-.
  pose proof (initFields_assign classes fuel this key _ s s'
                (StoreFacts.classOf_valid _ _ _ Hc) Hnd Hloop) as H.
  unfold Store.getField, Obj.read.
  destruct (assoc key (defaults (classes c))) as [[v|C]|].
  - now rewrite H.
  - destruct H as (a & Hget & Hge & Hclass). exists a. now rewrite Hget.
  - exact H.
Qed.

(** ** The decorators, from registration to behaviour *)

(** X20: [@Readonly()] on a field registers it so that no import assigns
    it: on a class decorated this way, [applyJson] of any value leaves the
    field as it is.  The registration of every other field is as before. *)
Theorem Readonly_field_is_never_assigned :
  forall (classes : ClassId -> ClassDef) C c key fuel this json s s',
    classes c = Decorator.Readonly key C ->
    Store.classOf (heap s) this = Some c ->
    applyJson classes fuel this json s = Ok (tt, s') ->
    Store.getField (heap s') this key = Store.getField (heap s) this key
    /\ forall k, k <> key ->
         has_key k (readOnly (classes c)) = has_key k (readOnly C).
Proof.
  intros classes C c key fuel this json s s' Hdef Hc Hrun. split.
  - pose proof (applyJsonWith_frame classes _ _ _ _ _ c
                  (fromJson_allocates classes fuel) Hc Hrun) as E.
    unfold Store.getField, Obj.read.
    rewrite (evolves_get _ _ _ _ _ this key E); [reflexivity | |].
    + eapply StoreFacts.classOf_valid; eassumption.
    + right. left. rewrite Hdef. apply DecoratorFacts.has_key_add_eq.
  - intros k Hne. rewrite Hdef. now apply DecoratorFacts.has_key_add_ne.
Qed.

(** X21: [@Exclude()] on a field registers it so that no export holds it:
    on a class decorated this way, whatever the options, the external name
    of the field is not a key of [toJson]'s result (no other own field
    having that external name).  The registration of every other field is as
    before. *)
Theorem Exclude_field_is_never_exported :
  forall (classes : ClassId -> ClassDef) C c key fuel h this options plain,
    classes c = Decorator.Exclude key C ->
    Store.classOf h this = Some c ->
    toJson classes fuel h this options = Ok (VObj plain) ->
    (forall key', In key' (Obj.keys (Store.ownProps h this)) ->
                  Keys.toSnakeCaseKey key' = Keys.toSnakeCaseKey key ->
                  key' = key) ->
    Obj.has (Keys.toSnakeCaseKey key) plain = false
    /\ forall k, k <> key ->
         has_key k (excluded (classes c)) = has_key k (excluded C).
Proof.
  intros classes C c key fuel h this options plain Hdef Hc Hrun Hunique. split.
  - destruct fuel as [|fuel]; [discriminate|].
    pose proof (toJson_run classes _ _ _ _ _ _ Hc Hrun) as Hloop.
    destruct (Obj.has (Keys.toSnakeCaseKey key) plain) eqn:Hhas;
      [exfalso|reflexivity].
    destruct (export_origin _ _ _ _ _ _ _ _ _ _ Hloop Hhas)
      as [Hempty|(key' & Hin & (_ & He & _) & Hname)]; [discriminate|].
    rewrite (Hunique key' Hin Hname), Hdef in He. cbn [excluded Decorator.Exclude] in He.
    now rewrite DecoratorFacts.has_key_add_eq in He.
  - intros k Hne. rewrite Hdef. now apply DecoratorFacts.has_key_add_ne.
Qed.

(** X22: [@Expose(options)] registers [options.groups], or the empty list
    when no groups are given.  For an own field decorated this way that the
    other filters let through: when a group is requested, the field is in
    the export exactly when the group is in the registered list, so a field
    registered without groups is absent under every requested group; when
    no group is requested the field is exported. *)
Theorem Expose_field_follows_requested_group :
  forall (classes : ClassId -> ClassDef) C c key groups fuel h this options plain,
    classes c = Decorator.Expose groups key C ->
    Store.classOf h this = Some c ->
    In key (Obj.keys (Store.ownProps h this)) ->
    Keys.startsWithUnderscore key = false ->
    has_key key (excluded C) = false ->
    toJson classes (S fuel) h this options = Ok (VObj plain) ->
    unchanged fuel h this options key = Ok false ->
    (forall key', In key' (Obj.keys (Store.ownProps h this)) ->
                  Keys.toSnakeCaseKey key' = Keys.toSnakeCaseKey key ->
                  key' = key) ->
    Obj.has (Keys.toSnakeCaseKey key) plain
    = match requestedGroup options with
      | Some g => has_key g (match groups with Some gs => gs | None => [] end)
      | None => true
      end.
Proof.
  intros classes C c key groups fuel h this options plain Hdef Hc Hin Hu He
    Hrun Hsame Hunique.
  pose proof (toJson_run classes _ _ _ _ _ _ Hc Hrun) as Hloop.
  assert (groupHides (classes c) options key
          = match requestedGroup options with
            | Some g =>
                negb (has_key g (match groups with Some gs => gs | None => [] end))
            | None => false
            end) as Hhides.
  { unfold groupHides. rewrite Hdef. cbn [exposed Decorator.Expose].
    rewrite DecoratorFacts.assoc_put_eq. reflexivity. }
  assert (has_key key (excluded (classes c)) = false) as He'
    by (rewrite Hdef; exact He).
  destruct (groupHides (classes c) options key) eqn:Hg.
  - assert (Obj.has (Keys.toSnakeCaseKey key) plain = false) as ->.
    { destruct (Obj.has (Keys.toSnakeCaseKey key) plain) eqn:Hhas;
        [exfalso|reflexivity].
      destruct (export_origin _ _ _ _ _ _ _ _ _ _ Hloop Hhas)
        as [Hempty|(key' & Hin' & (_ & _ & Hg') & Hname)]; [discriminate|].
      rewrite (Hunique key' Hin' Hname) in Hg'. congruence. }
    destruct (requestedGroup options) as [g|]; [|discriminate].
    symmetry in Hhides. now apply negb_true_iff in Hhides.
  - assert (Obj.has (Keys.toSnakeCaseKey key) plain = true) as ->.
    { eapply export_present; [|exact Hsame|exact Hin|exact Hloop].
      now repeat split. }
    destruct (requestedGroup options) as [g|]; [|reflexivity].
    symmetry in Hhides. apply negb_false_iff in Hhides. now symmetry.
Qed.

(** X23: [@Transform(fn)] on a field that is neither read-only nor typed:
    an import of a plain object, with no key twice, that returns has
    assigned, for an entry of the converted input under the name of the
    field, [fn] of the value of that entry.  The entries are the
    key-converted ones, or those of the input itself when it has an own
    property [constructor]. *)
Theorem Transform_is_applied_on_import :
  forall (classes : ClassId -> ClassDef) C c key fn fuel this input s s' v,
    classes c = Decorator.Transform fn key C ->
    Store.classOf (heap s) this = Some c ->
    has_key key (readOnly C) = false ->
    assoc key (types C) = None ->
    NoDup (Obj.keys input) ->
    applyJson classes fuel this (VObj input) s = Ok (tt, s') ->
    Obj.get key (entries (heap s) (toCamelCase (VObj input))) = Some v ->
    Store.getField (heap s') this key = fn v.
Proof.
  intros classes C c key fn fuel this input s s' v Hdef Hc Hro Hty Hnd Hrun
    Hget.
  destruct (applyJson_step classes fuel this c input s s' key v Hc Hnd Hrun
              Hget) as (s0 & s1 & Hstep & Hvalid & _ & _ & Hkeep).
  assert (has_key key (readOnly (classes c)) = false) as Hro'
    by (rewrite Hdef; exact Hro).
  assert (assoc key (transforms (classes c)) = Some fn) as Htr.
  { rewrite Hdef. cbn [transforms Decorator.Transform].
    apply DecoratorFacts.assoc_put_eq. }
  assert (Proto.inherited key = false) as Hin.
  { apply (applyEntry_registered classes _ _ _ _ _ _ _ Hro') in Hstep;
      [exact Hstep|]. left. rewrite Htr. discriminate. }
  unfold Store.getField, Obj.read. rewrite Hkeep.
  rewrite (untyped_step_assigns classes c this key v s0 s1 Hvalid Hro'
             ltac:(rewrite Hdef; exact Hty) _ Hstep).
  rewrite Hin. unfold transformed. now rewrite Htr.
Qed.

(** X24: [@Type(ClassType)] on a field that is not read-only: an import of
    a plain object, with no key twice, that names the field after the key
    conversion leaves in it a model for the value of the entry: the value
    itself when it is an instance of [ClassType] or of a class that extends
    it, and otherwise the instance that [ClassType.fromJson(value)], called
    during the import, returned, new and of class [ClassType]; for an array,
    the array of such models, one for each element in order. *)
Theorem Type_is_applied_on_import :
  forall (classes : ClassId -> ClassDef) C c key ClassType fuel this input
         s s' v,
    classes c = Decorator.Type_ ClassType key C ->
    Store.classOf (heap s) this = Some c ->
    has_key key (readOnly C) = false ->
    NoDup (Obj.keys input) ->
    applyJson classes fuel this (VObj input) s = Ok (tt, s') ->
    Obj.get key (entries (heap s) (toCamelCase (VObj input))) = Some v ->
    exists w,
      Obj.get key (Store.ownProps (heap s') this) = Some w
      /\ typedResult classes fuel ClassType s s' (transformed C key v) w.
Proof.
  intros classes C c key T fuel this input s s' v Hdef Hc Hro Hnd Hrun Hget.
  destruct (applyJson_step classes fuel this c input s s' key v Hc Hnd Hrun
              Hget) as (s0 & s1 & Hstep & Hvalid & E0 & E1 & Hkeep).
  assert (assoc key (types (classes c)) = Some T) as Hty.
  { rewrite Hdef. cbn [types Decorator.Type_].
    apply DecoratorFacts.assoc_put_eq. }
  destruct (applyEntry_typed classes fuel c this key v T s0 s1 Hvalid
              ltac:(rewrite Hdef; exact Hro) Hty Hstep) as (w & Hw & Hres).
  exists w. split; [now rewrite Hkeep|].
  unfold transformed in *. rewrite Hdef in Hres.
  eapply typedResult_stable; [exact E0 | exact E1 | | exact Hres].
  intros b k0 Hb. pose proof (StoreFacts.classOf_valid _ _ _ Hc). cbn. lia.
Qed.

(** X25: [@Default(valueFn)] on a field: [applyDefaults] assigns what the
    provider returns to the field, a value, or for a provider that builds a
    model a new instance of its class; and for every other field it does
    what it did without the decorator's registration.  The field is not
    named [__proto__]: the assignment [map[propertyKey] = valueFn] of the
    decorator adds no entry under that name. *)
Theorem Default_is_applied_by_applyDefaults :
  forall (classes : ClassId -> ClassDef) C c key valueFn fuel this s s',
    classes c = Decorator.Default valueFn key C ->
    key <> "__proto__" ->
    NoDup (map fst (defaults C)) ->
    Store.classOf (heap s) this = Some c ->
    applyDefaults classes fuel this s = Ok (tt, s') ->
    match valueFn with
    | InitValue v => Store.getField (heap s') this key = v
    | InitNew ClassType =>
        exists a,
          Store.getField (heap s') this key = VRef a
          /\ length (heap s) <= a
          /\ Store.classOf (heap s') a = Some ClassType
    end
    /\ forall k, k <> key ->
         assoc k (defaults (classes c)) = assoc k (defaults C).
Proof.
  intros classes C c key valueFn fuel this s s' Hdef _ Hnd Hc Hrun. split.
  - unfold applyDefaults in Hrun.
    apply bind_Ok in Hrun as (c' & s0 & Hclass & Hloop).
    unfold classOfThis in Hclass. rewrite Hc in Hclass.
    injection Hclass as <- <-.
    assert (NoDup (map fst (defaults (classes c)))) as Hnd'
      by (rewrite Hdef; now apply DecoratorFacts.put_NoDup).
    pose proof (initFields_assign classes fuel this key _ s s'
                  (StoreFacts.classOf_valid _ _ _ Hc) Hnd' Hloop) as H.
    rewrite Hdef in H. cbn [defaults Decorator.Default] in H.
    rewrite DecoratorFacts.assoc_put_eq in H.
    unfold Store.getField, Obj.read. destruct valueFn as [v|ClassType].
    + now rewrite H.
    + destruct H as (a & Hget & Hge & Hclass). exists a. now rewrite Hget.
  - intros k Hne. rewrite Hdef. now apply DecoratorFacts.assoc_put_ne.
Qed.

(** ** [toFormData] *)

Module FormFacts.
Import ObjFacts.

Lemma lastChar_app a b :
  b <> EmptyString -> Form.lastChar (a ++ b) = Form.lastChar b.
Proof.
  intros Hb. induction a as [|d a IH]; [reflexivity|].
  cbn [String.append Form.lastChar]. rewrite IH.
  destruct (a ++ b)%string eqn:E; [|reflexivity].
  destruct a; [now cbn in E | discriminate E].
Qed.

(** The name of an entry appended for an element of an array ends with a
    closing bracket. *)
Lemma lastChar_indexed key i :
  Form.lastChar (key ++ "[" ++ i ++ "]") = Some "]"%char.
Proof.
  assert (forall t, (t ++ "]")%string <> EmptyString) as Hne
    by (intros [|? ?]; discriminate).
  rewrite lastChar_app by (cbn; discriminate).
  rewrite lastChar_app by apply Hne.
  now rewrite lastChar_app by discriminate.
Qed.

Lemma get_app name xs ys :
  Form.get name (xs ++ ys)
  = match Form.get name xs with
    | Some text => Some text
    | None => Form.get name ys
    end.
Proof.
  induction xs as [|[k text] xs IH]; [reflexivity|].
  cbn [app Form.get]. now destruct (String.eqb name k).
Qed.

Lemma mapRes_cons {A B} (f : A -> Res B) x xs ys :
  mapRes f (x :: xs) = Ok ys ->
  exists y ys', f x = Ok y /\ mapRes f xs = Ok ys' /\ ys = y :: ys'.
Proof.
  cbn [mapRes]. intros H. apply rbind_Ok in H as (y & Hy & H).
  apply rbind_Ok in H as (ys' & Hys & [= <-]). now exists y, ys'.
Qed.

Lemma mapRes_In {A B} (f : A -> Res B) x xs :
  In x xs ->
  forall ys, mapRes f xs = Ok ys -> exists y, f x = Ok y /\ In y ys.
Proof.
  induction xs as [|x' xs IH]; intros Hin ys Hrun; [destruct Hin|].
  apply mapRes_cons in Hrun as (y & ys' & Hy & Hys & ->).
  destruct Hin as [->|Hin].
  - exists y. split; [assumption | now left].
  - destruct (IH Hin _ Hys) as (y' & Hy' & Hin'). exists y'.
    split; [assumption | now right].
Qed.

(** The form is the entries appended for the members of the export, one
    member after the other. *)
Lemma form_parts h ps :
  forall acc form,
    foldRes (fun kv form => rbind (Form.append h (fst kv) (snd kv))
                              (fun added => Ok (form ++ added))) ps acc
    = Ok form ->
    exists parts,
      mapRes (fun kv => Form.append h (fst kv) (snd kv)) ps = Ok parts
      /\ form = acc ++ concat parts.
Proof.
  induction ps as [|kv ps IH]; intros acc form Hrun; cbn [foldRes] in Hrun.
  - injection Hrun as <-. exists []. split; [reflexivity|].
    cbn [concat]. now rewrite app_nil_r.
  - apply rbind_Ok in Hrun as (acc1 & Hstep & Hrest).
    apply rbind_Ok in Hstep as (added & Hadded & [= <-]).
    destruct (IH _ _ Hrest) as (parts & Hparts & ->).
    exists (added :: parts). split.
    + cbn [mapRes]. rewrite Hadded. cbn [rbind]. now rewrite Hparts.
    + cbn [concat]. now rewrite app_assoc.
Qed.

Lemma get_array_entries h name key items added :
  Form.lastChar name <> Some "]"%char ->
  Form.append h key (VArr items) = Ok added ->
  Form.get name added = None.
Proof.
  intros Hname. cbn [Form.append]. revert added. generalize 0.
  induction items as [|x items IH]; intros n added Hrun; cbn [indexed] in Hrun.
  - now injection Hrun as <-.
  - apply mapRes_cons in Hrun as (y & ys & Hy & Hys & ->).
    cbn [fst snd] in Hy. apply rbind_Ok in Hy as (text & _ & [= <-]).
    cbn [Form.get].
    destruct (String.eqb name _) eqn:E; [exfalso | exact (IH _ _ Hys)].
    apply String.eqb_eq in E. apply Hname. rewrite E.
    exact (lastChar_indexed key (indexKey n)).
Qed.

Lemma append_single h key v added :
  (forall items, v <> VArr items) ->
  Form.append h key v = Ok added ->
  exists text, Form.toText h v = Ok text /\ added = [(key, text)].
Proof.
  intros Hv Hrun.
  destruct v; try (now destruct (Hv items));
    cbn [Form.append] in Hrun;
    apply rbind_Ok in Hrun as (text & Htext & [= <-]); now exists text.
Qed.

Lemma get_entry k ps v : Obj.get k ps = Some v -> In (k, v) ps.
Proof.
  induction ps as [|[k' v'] ps IH]; cbn [Obj.get]; [discriminate|].
  destruct (String.eqb_spec k k') as [->|Hne].
  - intros [= ->]. now left.
  - intros H. right. now apply IH.
Qed.

Lemma indexed_lookup items :
  forall n i x,
    items !! i = Some x -> In (indexKey (n + i), x) (indexed n items).
Proof.
  induction items as [|y items IH]; intros n i x Hi; [discriminate|].
  cbn [indexed]. destruct i as [|i].
  - injection Hi as ->. left. now rewrite Nat.add_0_r.
  - right. replace (n + S i) with (S n + i) by lia. now apply IH.
Qed.

(** Reading the form built from an export under a name that is not the
    name of an array element. *)
Lemma get_form h name ps :
  Form.lastChar name <> Some "]"%char ->
  NoDup (Obj.keys ps) ->
  forall parts,
    mapRes (fun kv => Form.append h (fst kv) (snd kv)) ps = Ok parts ->
    match Obj.get name ps with
    | Some (VArr _) | None => Form.get name (concat parts) = None
    | Some v =>
        exists text,
          Form.toText h v = Ok text
          /\ Form.get name (concat parts) = Some text
    end.
Proof.
  intros Hname. induction ps as [|[k v] ps IH]; intros Hnd parts Hrun.
  - now injection Hrun as <-.
  - cbn [Obj.keys map fst] in Hnd. apply NoDup_cons in Hnd as [Hnotin Hnd].
    rewrite list_elem_of_In in Hnotin.
    apply mapRes_cons in Hrun as (added & rest & Hadded & Hrest & ->).
    specialize (IH Hnd rest Hrest). cbn [fst snd] in Hadded.
    cbn [concat Obj.get]. rewrite get_app.
    assert ((exists items, v = VArr items) \/ forall items, v <> VArr items)
      as [[items ->]|Hv]
      by (destruct v; try (right; discriminate); left; now exists items).
    + rewrite (get_array_entries _ _ _ _ _ Hname Hadded).
      destruct (String.eqb_spec name k) as [->|Hne]; [|exact IH].
      apply get_none_keys in Hnotin. now rewrite Hnotin in IH.
    + destruct (append_single _ _ _ _ Hv Hadded) as (text & Htext & ->).
      cbn [Form.get]. destruct (String.eqb_spec name k) as [->|Hne].
      * destruct v; try (now exists text). now destruct (Hv items).
      * exact IH.
Qed.

Lemma array_entries h k ps items i x parts :
  Obj.get k ps = Some (VArr items) ->
  items !! i = Some x ->
  mapRes (fun kv => Form.append h (fst kv) (snd kv)) ps = Ok parts ->
  exists text,
    Form.toText h x = Ok text
    /\ In ((k ++ "[" ++ indexKey i ++ "]")%string, text) (concat parts).
Proof.
  intros Hget Hi Hrun.
  destruct (mapRes_In _ _ _ (get_entry _ _ _ Hget) _ Hrun)
    as (added & Hadded & Hin).
  cbn [fst snd Form.append] in Hadded.
  destruct (mapRes_In _ _ _ (indexed_lookup items 0 i x Hi) _ Hadded)
    as (entry & Hentry & Hin').
  cbn [fst snd] in Hentry. apply rbind_Ok in Hentry as (text & Htext & [= <-]).
  exists text. split; [assumption|]. apply in_concat. now exists added.
Qed.

(** What [toFormData] that returns has done. *)
Lemma toFormData_run classes fuel h this form :
  toFormData classes fuel h this = Ok form ->
  exists plain parts,
    toJson classes fuel h this noOptions = Ok (VObj plain)
    /\ mapRes (fun kv => Form.append h (fst kv) (snd kv)) plain = Ok parts
    /\ form = concat parts.
Proof.
  unfold toFormData. intros Hrun.
  apply rbind_Ok in Hrun as (json & Hjson & Hloop).
  destruct (toJson_object classes _ _ _ _ _ Hjson) as [plain ->].
  cbn [entries] in Hloop.
  destruct (form_parts _ _ _ _ Hloop) as (parts & Hparts & ->).
  now exists plain, parts.
Qed.

End FormFacts.

(** X26: the form [toFormData] builds from the export without options,
    when it returns.  Under a name that does not end with a closing bracket
    the form holds the text [String(value)] of the export's member of that
    name, and nothing when that member is an array or is missing; for an
    array member, the text of each element is in the form under the
    member's name followed by its index in brackets. *)
Theorem toFormData_entries :
  forall (classes : ClassId -> ClassDef) fuel h this c form,
    Store.classOf h this = Some c ->
    toFormData classes fuel h this = Ok form ->
    exists plain,
      toJson classes fuel h this noOptions = Ok (VObj plain)
      /\ (forall name,
             Form.lastChar name <> Some "]"%char ->
             match Obj.get name plain with
             | Some (VArr _) | None => Form.get name form = None
             | Some v =>
                 exists text,
                   Form.toText h v = Ok text
                   /\ Form.get name form = Some text
             end)
      /\ (forall k items i x,
             Obj.get k plain = Some (VArr items) ->
             items !! i = Some x ->
             exists text,
               Form.toText h x = Ok text
               /\ In ((k ++ "[" ++ indexKey i ++ "]")%string, text) form).
Proof.
  intros classes fuel h this c form Hc Hrun.
  destruct (FormFacts.toFormData_run _ _ _ _ _ Hrun)
    as (plain & parts & Hjson & Hparts & ->).
  exists plain. split; [assumption|]. split.
  - intros name Hname. apply FormFacts.get_form; [assumption | | assumption].
    exact (toJson_NoDup classes _ _ _ _ _ Hjson).
  - intros k items i x Hget Hi.
    exact (FormFacts.array_entries _ _ _ _ _ _ _ Hget Hi Hparts).
Qed.

(** X27: what the form holds for a field, when [toFormData] returns.  For
    an own field that the export offers (no leading underscore, not
    excluded, no other own field with its external name), under the
    external name when that does not end with a closing bracket: a field
    that holds a model or a plain object is written as the text
    [[object Object]], a field that holds an array has no entry under its
    name, and any other value is written as its text [String(value)]. *)
Theorem toFormData_field :
  forall (classes : ClassId -> ClassDef) fuel h this c form key,
    Store.classOf h this = Some c ->
    toFormData classes fuel h this = Ok form ->
    In key (Obj.keys (Store.ownProps h this)) ->
    Keys.startsWithUnderscore key = false ->
    has_key key (excluded (classes c)) = false ->
    (forall key', In key' (Obj.keys (Store.ownProps h this)) ->
                  Keys.toSnakeCaseKey key' = Keys.toSnakeCaseKey key ->
                  key' = key) ->
    Form.lastChar (Keys.toSnakeCaseKey key) <> Some "]"%char ->
    match Store.getField h this key with
    | VArr _ => Form.get (Keys.toSnakeCaseKey key) form = None
    | VRef _ | VObj _ =>
        Form.get (Keys.toSnakeCaseKey key) form = Some "[object Object]"
    | v =>
        exists text,
          Form.toText h v = Ok text
          /\ Form.get (Keys.toSnakeCaseKey key) form = Some text
    end.
Proof.
  intros classes fuel h this c form key Hc Hrun Hin Hu He Hunique Hname.
  destruct (FormFacts.toFormData_run _ _ _ _ _ Hrun)
    as (plain & parts & Hjson & Hparts & ->).
  pose proof (FormFacts.get_form h _ plain Hname
                (toJson_NoDup classes _ _ _ _ _ Hjson) parts Hparts) as Hform.
  destruct fuel as [|fuel]; [discriminate|].
  pose proof (toJson_run classes _ _ _ _ _ _ Hc Hjson) as Hloop.
  destruct (ExportValueFacts.export_get _ _ _ _ _ _ _ _ Hunique _ _ Hloop)
    as [_ Hemit].
  destruct (ExportValueFacts.export_step_returns _ _ _ _ _ _ _ _ Hin _ _ Hloop)
    as [Hno|[Hyes|(_ & o & Hval)]];
    [exfalso; apply Hno; now repeat split | discriminate Hyes|].
  rewrite (Hemit o ltac:(now repeat split) eq_refl Hval (or_introl Hin))
    in Hform.
  destruct (Store.getField h this key) as [| |b|n|str|items|ps|a|p] eqn:Hfield;
    try (injection Hval as <-; exact Hform).
  - injection Hval as <-. cbn [toSnakeCase] in Hform.
    assert (forall qs text,
               Form.toText h (VObj qs) = Ok text -> text = "[object Object]")
      as Hobject.
    { intros qs text. cbn [Form.toText].
      destruct (Obj.has "toString" qs); [discriminate | now intros [= <-]]. }
    destruct (Proto.constructorIsObject ps);
      destruct Hform as (text & Htext & ->);
      now rewrite (Hobject _ _ Htext).
  - destruct (toJson_object classes _ _ _ _ _ Hval) as [q ->].
    destruct Hform as (text & Htext & ->). cbn [Form.toText] in Htext.
    destruct (Obj.has "toString" q); [discriminate | now injection Htext as <-].
Qed.

(** ** The properties above on the classes of the test suite *)

Lemma toCamelCase_inverts_toSnakeCase_witness :
  toCamelCase
    (toSnakeCase
       (VObj [("firstName", VStr "Pavel");
              ("posts", VArr [VObj [("createdAt", VNum 1)]])]))
  = VObj [("firstName", VStr "Pavel");
          ("posts", VArr [VObj [("createdAt", VNum 1)]])].
Proof.
  apply (toCamelCase_inverts_toSnakeCase
           (VObj [("firstName", VStr "Pavel");
                  ("posts", VArr [VObj [("createdAt", VNum 1)]])])).
  vm_compute; reflexivity.
Defined.

Lemma toSnakeCase_inverts_toCamelCase_witness :
  toSnakeCase (toCamelCase Suite.input) = Suite.input.
Proof.
  apply (toSnakeCase_inverts_toCamelCase Suite.input).
  vm_compute; reflexivity.
Defined.

Lemma toJson_never_exports_excluded_witness :
  Obj.has (Keys.toSnakeCaseKey "password")
    (Suite.objectOf
       (toJson Suite.classes 6 (heap Suite.hydrated) Suite.user noOptions))
  = false.
Proof.
  apply (toJson_never_exports_excluded Suite.classes 6 (heap Suite.hydrated)
           Suite.user "User" noOptions _ "password").
  - vm_compute; reflexivity.
  - vm_compute; reflexivity.
  - left. vm_compute; reflexivity.
  - intros key' Hin. vm_compute in Hin.
    repeat (destruct Hin as [<-|Hin]; [vm_compute; congruence|]).
    destruct Hin.
Defined.

Lemma toJson_onlyChanged_witness :
  exists same,
    unchanged 5 (heap Suite.hydrated) Suite.user
      {| group := None; onlyChanged := true |} "firstName" = Ok same
    /\ Obj.has (Keys.toSnakeCaseKey "firstName")
         (Suite.objectOf
            (toJson Suite.classes 6 (heap Suite.hydrated) Suite.user
               {| group := None; onlyChanged := true |}))
       = negb same.
Proof.
  destruct (toJson_onlyChanged Suite.classes 5 (heap Suite.hydrated) Suite.user
              "User" {| group := None; onlyChanged := true |}
              (Suite.objectOf
                 (toJson Suite.classes 6 (heap Suite.hydrated) Suite.user
                    {| group := None; onlyChanged := true |}))
              "firstName")
    as (same & Hsame & Hhas & _).
  - vm_compute; reflexivity.
  - vm_compute; reflexivity.
  - vm_compute; tauto.
  - vm_compute; tauto.
  - intros key' Hin. vm_compute in Hin.
    repeat (destruct Hin as [<-|Hin]; [vm_compute; congruence|]).
    destruct Hin.
  - exists same. split; assumption.
Defined.

Lemma toJson_exports_field_value_witness :
  exists o,
    toJson Suite.classes 5 (heap Suite.hydrated) 2 noOptions = Ok o
    /\ Obj.get (Keys.toSnakeCaseKey "profile")
         (Suite.objectOf
            (toJson Suite.classes 6 (heap Suite.hydrated) Suite.user noOptions))
       = Some o.
Proof.
  apply (toJson_exports_field_value Suite.classes 5 (heap Suite.hydrated)
           Suite.user "User" noOptions
           (Suite.objectOf
              (toJson Suite.classes 6 (heap Suite.hydrated) Suite.user noOptions))
           "profile").
  - vm_compute; reflexivity.
  - vm_compute; reflexivity.
  - vm_compute; tauto.
  - vm_compute; tauto.
  - vm_compute; reflexivity.
  - intros key' Hin. vm_compute in Hin.
    repeat (destruct Hin as [<-|Hin]; [vm_compute; congruence|]).
    destruct Hin.
Defined.

Lemma toJson_ignores_hidden_fields_witness :
  toJson Suite.classes 6
    (heap (Suite.stateOf
             (Store.setField Suite.user "password" (VStr "changed")
                Suite.hydrated)))
    Suite.user noOptions
  = toJson Suite.classes 6 (heap Suite.hydrated) Suite.user noOptions.
Proof.
  apply (toJson_ignores_hidden_fields Suite.classes 6 Suite.hydrated Suite.user
           "User" "password" (VStr "changed")).
  - vm_compute; reflexivity.
  - left. vm_compute; reflexivity.
  - discriminate.
  - reflexivity.
  - reflexivity.
Defined.

(** An own property [constructor], excluded or not, hides the class from
    [toJson], which then fails at the first field it exports: assigning it
    is not an assignment that [toJson] ignores. *)
Lemma toJson_after_constructor_assignment :
  toJson Cases.classes 6 (heap (Cases.made "Detached")) 0 noOptions
  = Ok (VObj [("title", VStr "hola"); ("created_at", VStr "T0")])
  /\ toJson Cases.classes 6
       (heap (Suite.stateOf
                (Store.setField 0 "constructor" (VNum 1)
                   (Cases.made "Detached"))))
       0 noOptions
     = TypeError.
Proof. split; vm_compute; reflexivity. Qed.

(** An input key that the conversion turns into the name of a member of
    [Object.prototype] makes the import fail, and an input with an own
    property [constructor] is imported under its own keys. *)
Lemma applyJson_inherited_names :
  applyJson Suite.classes 6 0 (VObj [("to_string", VNum 1)])
    (Suite.stateOf (fromJson Suite.classes 6 "Profile" (VObj []) true Suite.empty))
  = TypeError
  /\ Store.ownProps
       (heap (Suite.stateOf
                (applyJson Suite.classes 6 0
                   (VObj [("constructor", VStr "c"); ("nick_name", VStr "pdp")])
                   (Suite.stateOf
                      (fromJson Suite.classes 6 "Profile" (VObj []) true
                         Suite.empty)))))
       0
     = [("bio", VStr EmptyString); ("website", VStr EmptyString);
        ("constructor", VBoxed (PStr "c")); ("nick_name", VStr "pdp")].
Proof. split; vm_compute; reflexivity. Qed.

Lemma fromJson_creates_instance_witness :
  Store.classOf (heap Suite.hydrated) Suite.user = Some "User"
  /\ exists snapshot,
       Store.getField (heap Suite.hydrated) Suite.user "_originalState"
       = VRef snapshot
       /\ Suite.user < snapshot.
Proof.
  destruct (fromJson_creates_instance Suite.classes 6 "User" Suite.input false
              Suite.empty Suite.user Suite.hydrated
              ltac:(vm_compute; reflexivity)) as (_ & Hc & _ & Hsnapshot).
  split; [exact Hc|].
  destruct (Hsnapshot eq_refl) as (snapshot & Hfield & Hlater & _).
  exists snapshot. split; assumption.
Defined.

Lemma clone_creates_instance_witness :
  Store.classOf
    (heap (Suite.stateOf (clone Suite.classes 6 Suite.user Suite.hydrated))) 12
  = Some "User".
Proof.
  destruct (clone_creates_instance Suite.classes 6 Suite.user "User"
              Suite.hydrated 12
              (Suite.stateOf (clone Suite.classes 6 Suite.user Suite.hydrated))
              ltac:(vm_compute; reflexivity) ltac:(vm_compute; reflexivity))
    as (_ & Hc & _).
  exact Hc.
Defined.

Lemma applyJson_assigns_transformed_value_witness :
  Store.getField
    (heap (Suite.stateOf
             (applyJson Sample.classes 6 0
                (VObj [("constructor", VNum 1); ("note", VStr "adios");
                       ("first_name", VStr "P")])
                Cases.entry)))
    0 "note"
  = Sample.shout (VStr "adios")
  /\ Store.getField
       (heap (Suite.stateOf
                (applyJson Sample.classes 6 0
                   (VObj [("constructor", VNum 1); ("note", VStr "adios");
                          ("first_name", VStr "P")])
                   Cases.entry)))
       0 "first_name"
     = VStr "P"
  /\ Store.getField
       (heap (Suite.stateOf
                (applyJson Sample.classes 6 0
                   (VObj [("constructor", VNum 1); ("note", VStr "adios");
                          ("first_name", VStr "P")])
                   Cases.entry)))
       0 "constructor"
     = VBoxed (PNum 1).
Proof.
  pose proof (fun k v =>
                applyJson_assigns_transformed_value Sample.classes 6 0 "Entry"
                  [("constructor", VNum 1); ("note", VStr "adios");
                   ("first_name", VStr "P")]
                  Cases.entry
                  (Suite.stateOf
                     (applyJson Sample.classes 6 0
                        (VObj [("constructor", VNum 1); ("note", VStr "adios");
                               ("first_name", VStr "P")])
                        Cases.entry))
                  k v
                  ltac:(vm_compute; reflexivity)
                  ltac:(apply ValueFacts.distinct_NoDup; vm_compute; reflexivity)
                  ltac:(vm_compute; reflexivity)) as H.
  split; [|split].
  - exact (proj1 (H "note" (VStr "adios") ltac:(vm_compute; reflexivity)
                    ltac:(vm_compute; reflexivity)
                    ltac:(vm_compute; reflexivity))).
  - exact (proj1 (H "first_name" (VStr "P") ltac:(vm_compute; reflexivity)
                    ltac:(vm_compute; reflexivity)
                    ltac:(vm_compute; reflexivity))).
  - exact (proj1 (H "constructor" (VNum 1) ltac:(vm_compute; reflexivity)
                    ltac:(vm_compute; reflexivity)
                    ltac:(vm_compute; reflexivity))).
Defined.

Lemma applyJson_coerces_typed_field_witness :
  exists w,
    Obj.get "profile"
      (Store.ownProps
         (heap (Suite.stateOf
                  (applyJson Suite.classes 6 Suite.user
                     (VObj [("profile", VObj [("bio", VStr "x")])])
                     Suite.hydrated)))
         Suite.user)
    = Some w
    /\ typedResult Suite.classes 6 "Profile" Suite.hydrated
         (Suite.stateOf
            (applyJson Suite.classes 6 Suite.user
               (VObj [("profile", VObj [("bio", VStr "x")])])
               Suite.hydrated))
         (transformed (Suite.classes "User") "profile" (VObj [("bio", VStr "x")]))
         w.
Proof.
  apply (applyJson_coerces_typed_field Suite.classes 6 Suite.user "User"
           [("profile", VObj [("bio", VStr "x")])] Suite.hydrated).
  - vm_compute; reflexivity.
  - apply NoDup_singleton.
  - vm_compute; reflexivity.
  - vm_compute; reflexivity.
  - vm_compute; reflexivity.
  - vm_compute; reflexivity.
Defined.

Lemma applyJson_never_assigns_snake_key_witness :
  Store.getField
    (heap (Suite.stateOf
             (merge Suite.classes 6 Suite.user
                (VObj [("_original_state", VNull); ("first_name", VStr "P")])
                Suite.hydrated)))
    Suite.user "_originalState"
  = Store.getField (heap Suite.hydrated) Suite.user "_originalState".
Proof.
  exact (proj2
           (proj2
              (applyJson_never_assigns_snake_key Suite.classes 6 Suite.user
                 "User"
                 [("_original_state", VNull); ("first_name", VStr "P")]
                 Suite.hydrated
                 (Suite.stateOf
                    (merge Suite.classes 6 Suite.user
                       (VObj [("_original_state", VNull);
                              ("first_name", VStr "P")])
                       Suite.hydrated))
                 ltac:(vm_compute; reflexivity)
                 ltac:(vm_compute; reflexivity))
              ltac:(vm_compute; reflexivity))).
Defined.

Lemma reset_keeps_readonly_and_snapshot_witness :
  Store.getField
    (heap (Suite.stateOf (reset Suite.classes 6 Suite.user Cases.renamed)))
    Suite.user "_originalState"
  = Store.getField (heap Cases.renamed) Suite.user "_originalState".
Proof.
  apply (reset_keeps_readonly_and_snapshot Suite.classes 6 Suite.user "User"
           Cases.renamed).
  - vm_compute; reflexivity.
  - vm_compute; reflexivity.
Defined.

Lemma reset_restores_field_witness :
  Store.getField
    (heap (Suite.stateOf (reset Suite.classes 6 Suite.user Cases.renamed)))
    Suite.user "firstName"
  = transformed (Suite.classes "User") "firstName" (VStr "Pavel").
Proof.
  apply (reset_restores_field Suite.classes 6 Suite.user "User" 8 "User"
           "firstName" (VStr "Pavel") Cases.renamed).
  - vm_compute; reflexivity.
  - vm_compute; reflexivity.
  - vm_compute; reflexivity.
  - vm_compute; reflexivity.
  - vm_compute; reflexivity.
  - intros b. discriminate.
  - vm_compute; reflexivity.
  - vm_compute; reflexivity.
  - vm_compute; reflexivity.
  - intros key' Hin. vm_compute in Hin.
    repeat (destruct Hin as [<-|Hin]; [vm_compute; congruence|]).
    destruct Hin.
  - vm_compute; reflexivity.
  - vm_compute; reflexivity.
  - vm_compute; reflexivity.
Defined.

Lemma diff_reports_own_members_only_witness :
  Suite.objectOf (diff 6 (heap Suite.hydrated) Suite.user (VRef Suite.user)) = [].
Proof.
  apply (diff_reports_own_members_only 6 (heap Suite.hydrated) Suite.user
           (VRef Suite.user)).
  - vm_compute; reflexivity.
  - reflexivity.
Defined.

Lemma applyDefaults_assigns_provided_values_witness :
  Store.getField
    (heap (Suite.stateOf
             (applyDefaults Cases.classes 5 0
                (Suite.stateOf (construct Cases.classes 5 "Draft" Suite.empty)))))
    0 "title"
  = VStr "draft".
Proof.
  apply (applyDefaults_assigns_provided_values Cases.classes 5 0 "Draft"
           (Suite.stateOf (construct Cases.classes 5 "Draft" Suite.empty))
           _ "title").
  - vm_compute; reflexivity.
  - vm_compute. repeat constructor. intros H. inversion H.
  - vm_compute; reflexivity.
Defined.

Lemma Readonly_field_is_never_assigned_witness :
  Store.getField
    (heap (Suite.stateOf
             (applyJson Cases.classes 6 0 (VObj [("title", VStr "adios")])
                (Cases.made "Locked"))))
    0 "title"
  = Store.getField (heap (Cases.made "Locked")) 0 "title".
Proof.
  apply (Readonly_field_is_never_assigned Cases.classes Suite.Post "Locked"
           "title" 6 0 (VObj [("title", VStr "adios")]) (Cases.made "Locked")).
  - reflexivity.
  - vm_compute; reflexivity.
  - vm_compute; reflexivity.
Defined.

Lemma Exclude_field_is_never_exported_witness :
  Obj.has (Keys.toSnakeCaseKey "title")
    (Suite.objectOf
       (toJson Cases.classes 6 (heap (Cases.made "Hidden")) 0 noOptions))
  = false.
Proof.
  apply (Exclude_field_is_never_exported Cases.classes Suite.Post "Hidden"
           "title" 6 (heap (Cases.made "Hidden")) 0 noOptions).
  - reflexivity.
  - vm_compute; reflexivity.
  - vm_compute; reflexivity.
  - intros key' Hin. vm_compute in Hin.
    repeat (destruct Hin as [<-|Hin]; [vm_compute; congruence|]).
    destruct Hin.
Defined.

Lemma Expose_field_follows_requested_group_witness :
  Obj.has (Keys.toSnakeCaseKey "title")
    (Suite.objectOf
       (toJson Cases.classes 6 (heap (Cases.made "Grouped")) 0
          {| group := Some "admin"; onlyChanged := false |}))
  = match requestedGroup {| group := Some "admin"; onlyChanged := false |} with
    | Some g => has_key g []
    | None => true
    end.
Proof.
  apply (Expose_field_follows_requested_group Cases.classes Suite.Post
           "Grouped" "title" None 5 (heap (Cases.made "Grouped")) 0
           {| group := Some "admin"; onlyChanged := false |}).
  - reflexivity.
  - vm_compute; reflexivity.
  - vm_compute; tauto.
  - vm_compute; reflexivity.
  - vm_compute; reflexivity.
  - vm_compute; reflexivity.
  - vm_compute; reflexivity.
  - intros key' Hin. vm_compute in Hin.
    repeat (destruct Hin as [<-|Hin]; [vm_compute; congruence|]).
    destruct Hin.
Defined.

Lemma Transform_is_applied_on_import_witness :
  Store.getField
    (heap (Suite.stateOf
             (applyJson Cases.classes 6 0 (VObj [("title", VStr "adios")])
                (Cases.made "Loud"))))
    0 "title"
  = Sample.shout (VStr "adios").
Proof.
  apply (Transform_is_applied_on_import Cases.classes Suite.Post "Loud" "title"
           Sample.shout 6 0 [("title", VStr "adios")] (Cases.made "Loud")).
  - reflexivity.
  - vm_compute; reflexivity.
  - vm_compute; reflexivity.
  - vm_compute; reflexivity.
  - apply NoDup_singleton.
  - vm_compute; reflexivity.
  - vm_compute; reflexivity.
Defined.

Lemma Type_is_applied_on_import_witness :
  exists w,
    Obj.get "latest"
      (Store.ownProps
         (heap (Suite.stateOf
                  (applyJson Cases.classes 6 0
                     (VObj [("latest", VObj [("title", VStr "x")])])
                     (Cases.made "Article"))))
         0)
    = Some w
    /\ typedResult Cases.classes 6 "Post" (Cases.made "Article")
         (Suite.stateOf
            (applyJson Cases.classes 6 0
               (VObj [("latest", VObj [("title", VStr "x")])])
               (Cases.made "Article")))
         (transformed (Suite.plainClass [("latest", InitValue VNull)]) "latest"
            (VObj [("title", VStr "x")]))
         w.
Proof.
  apply (Type_is_applied_on_import Cases.classes
           (Suite.plainClass [("latest", InitValue VNull)]) "Article" "latest"
           "Post" 6 0 [("latest", VObj [("title", VStr "x")])]
           (Cases.made "Article")).
  - reflexivity.
  - vm_compute; reflexivity.
  - vm_compute; reflexivity.
  - apply NoDup_singleton.
  - vm_compute; reflexivity.
  - vm_compute; reflexivity.
Defined.

Lemma Default_is_applied_by_applyDefaults_witness :
  Store.getField
    (heap (Suite.stateOf
             (applyDefaults Cases.classes 5 0
                (Suite.stateOf (construct Cases.classes 5 "Draft" Suite.empty)))))
    0 "title"
  = VStr "draft".
Proof.
  exact (proj1
           (Default_is_applied_by_applyDefaults Cases.classes Suite.Post "Draft"
              "title" (InitValue (VStr "draft")) 5 0
              (Suite.stateOf (construct Cases.classes 5 "Draft" Suite.empty))
              (Suite.stateOf
                 (applyDefaults Cases.classes 5 0
                    (Suite.stateOf
                       (construct Cases.classes 5 "Draft" Suite.empty))))
              eq_refl
              ltac:(discriminate)
              ltac:(vm_compute; constructor)
              ltac:(vm_compute; reflexivity)
              ltac:(vm_compute; reflexivity))).
Defined.

Lemma toFormData_entries_witness :
  exists plain,
    toJson Suite.classes 6 (heap Suite.hydrated) Suite.user noOptions
    = Ok (VObj plain)
    /\ match Obj.get "first_name" plain with
       | Some (VArr _) | None =>
           Form.get "first_name"
             (match toFormData Suite.classes 6 (heap Suite.hydrated) Suite.user
              with
              | Ok form => form
              | _ => []
              end)
           = None
       | Some v =>
           exists text,
             Form.toText (heap Suite.hydrated) v = Ok text
             /\ Form.get "first_name"
                  (match toFormData Suite.classes 6 (heap Suite.hydrated)
                           Suite.user
                   with
                   | Ok form => form
                   | _ => []
                   end)
                = Some text
       end.
Proof.
  destruct (toFormData_entries Suite.classes 6 (heap Suite.hydrated) Suite.user
              "User"
              (match toFormData Suite.classes 6 (heap Suite.hydrated) Suite.user with
               | Ok form => form
               | _ => []
               end)
              ltac:(vm_compute; reflexivity) ltac:(vm_compute; reflexivity))
    as (plain & Hjson & Hget & _).
  exists plain. split; [exact Hjson|].
  apply Hget. vm_compute. discriminate.
Defined.

Lemma toFormData_field_witness :
  match Store.getField (heap Suite.hydrated) Suite.user "profile" with
  | VArr _ =>
      Form.get (Keys.toSnakeCaseKey "profile")
        (match toFormData Suite.classes 6 (heap Suite.hydrated) Suite.user with
         | Ok form => form
         | _ => []
         end)
      = None
  | VRef _ | VObj _ =>
      Form.get (Keys.toSnakeCaseKey "profile")
        (match toFormData Suite.classes 6 (heap Suite.hydrated) Suite.user with
         | Ok form => form
         | _ => []
         end)
      = Some "[object Object]"
  | v =>
      exists text,
        Form.toText (heap Suite.hydrated) v = Ok text
        /\ Form.get (Keys.toSnakeCaseKey "profile")
             (match toFormData Suite.classes 6 (heap Suite.hydrated) Suite.user
              with
              | Ok form => form
              | _ => []
              end)
           = Some text
  end.
Proof.
  apply (toFormData_field Suite.classes 6 (heap Suite.hydrated) Suite.user
           "User"
           (match toFormData Suite.classes 6 (heap Suite.hydrated) Suite.user with
            | Ok form => form
            | _ => []
            end)
           "profile").
  - vm_compute; reflexivity.
  - vm_compute; reflexivity.
  - vm_compute; tauto.
  - vm_compute; reflexivity.
  - vm_compute; reflexivity.
  - intros key' Hin. vm_compute in Hin.
    repeat (destruct Hin as [<-|Hin]; [vm_compute; congruence|]).
    destruct Hin.
  - vm_compute. discriminate.
Defined.
